(** * mitre-mcp: the ATT&CK parser and the in-memory data store

    A shallow embedding of the STIX parser ([parseTechniques],
    [parseTactics], ..., [parseRelationships]), of the class
    [AttackDataStore] with its indices and queries, of the cache loader
    ([isCacheStale], [hasCachedData], [downloadAllMatrices],
    [loadCachedBundles]) and of the tables of the type module, followed
    by the properties of the store.

    Conventions of the embedding.
    - A JavaScript string is a [string]. On a string of ASCII characters
      ([Js.ascii_only]) its length, [toUpperCase], [toLowerCase], [trim]
      and the character classes of the regular expressions are those of
      JavaScript; this covers the identifiers and names of the ATT&CK
      data set, and the sample data. A general statement below either
      holds whatever the two case mappings do to a character (its proof
      uses at most that they keep the empty string), or it carries the
      hypothesis [Js.ascii_only].
    - An optional field [f?: T] is an [option T]; the tests [!!x],
      [x || d], [if (x)] and [x === true] are written out on it.
    - A [Map<string, V>] is an association list in insertion order, the
      order in which [values()] enumerates it: [set] on a key already
      present replaces the value in place, a new key is added at the end.
    - An object used as a table ([Record<string, number>]) is the finite
      map of its own properties, and [table[key]] is [JsObject.get]: it
      also answers for the names the object inherits from
      [Object.prototype].
    - A [number] that holds an integer is a [Z]; where the code can get
      NaN or a value that is no number, the type says so
      ([Tactic.Order], [Loader.Timestamp]). *)

From Stdlib Require Import List String Ascii Bool ZArith NArith Lia.
From Stdlib Require Import Sorting.Sorted Permutation.
Import ListNotations.
Local Open Scope string_scope.
Local Open Scope list_scope.

Set Implicit Arguments.

(* ================================================================= *)
(** ** JavaScript strings *)

Module Js.

(** Every character of [s] is an ASCII character: the strings on which
    the functions of this module are JavaScript's, character for
    character. *)
Definition ascii_only (s : string) : Prop :=
  Forall (fun c => (N_of_ascii c < 128)%N) (list_ascii_of_string s).

(** [c.toUpperCase()] on one ASCII character. *)
Definition upper_ascii (c : ascii) : ascii :=
  let n := N_of_ascii c in
  if ((97 <=? n) && (n <=? 122))%N then ascii_of_N (n - 32) else c.

(** [c.toLowerCase()] on one ASCII character. *)
Definition lower_ascii (c : ascii) : ascii :=
  let n := N_of_ascii c in
  if ((65 <=? n) && (n <=? 90))%N then ascii_of_N (n + 32) else c.

Fixpoint map_string (f : ascii -> ascii) (s : string) : string :=
  match s with
  | EmptyString => EmptyString
  | String c s' => String (f c) (map_string f s')
  end.

(** [s.toUpperCase()] and [s.toLowerCase()] for an ASCII string [s];
    JavaScript also maps letters outside ASCII, which these leave as
    they are. *)
Definition toUpperCase (s : string) : string := map_string upper_ascii s.
Definition toLowerCase (s : string) : string := map_string lower_ascii s.

(** [s.includes(sub)]: [sub] occurs in [s] as a contiguous substring. *)
Fixpoint includes (s sub : string) : bool :=
  String.prefix sub s ||
  match s with
  | EmptyString => false
  | String _ s' => includes s' sub
  end.

(** [s.split(c)] for a one-character separator: never the empty list. *)
Fixpoint split (c : ascii) (s : string) : list string :=
  match s with
  | EmptyString => [EmptyString]
  | String a s' =>
      if Ascii.eqb a c then EmptyString :: split c s'
      else match split c s' with
           | [] => [String a EmptyString]
           | p :: ps => String a p :: ps
           end
  end.

(** Truthiness of a string: every string but the empty one. *)
Definition truthy (s : string) : bool := negb (s =? "").

(** Truthiness of an optional string: present and not empty. *)
Definition truthy_opt (o : option string) : bool :=
  match o with
  | Some s => truthy s
  | None => false
  end.

(** [o || d] on an optional string. *)
Definition or_default (o : option string) (d : string) : string :=
  match o with
  | Some s => if truthy s then s else d
  | None => d
  end.

(** [o || []] on an optional array (an array is always truthy). *)
Definition or_nil (A : Type) (o : option (list A)) : list A :=
  match o with
  | Some l => l
  | None => []
  end.

(** [o === true] on an optional boolean. *)
Definition is_true (o : option bool) : bool :=
  match o with
  | Some true => true
  | _ => false
  end.

(** [!o] on an optional boolean. *)
Definition falsy (o : option bool) : bool := negb (is_true o).

(** [a || b] where both sides are objects or [undefined]. *)
Definition or_else (A : Type) (a b : option A) : option A :=
  match a with
  | Some x => Some x
  | None => b
  end.

(** [l.sort(cmp)]: the stable sort of [l], by insertion. An element goes
    in front of the first element it does not compare greater than, so
    elements that compare equal keep their order. For a comparator that
    is consistent (it ranks the elements) this is the one order the
    language allows; for one that is not, the language leaves the order
    to the implementation and only a permutation is certain. *)
Fixpoint insert_sorted (A : Type) (cmp : A -> A -> Z) (x : A) (l : list A)
  : list A :=
  match l with
  | [] => [x]
  | y :: l' =>
      if (cmp x y <=? 0)%Z then x :: y :: l'
      else y :: insert_sorted cmp x l'
  end.

Fixpoint sort (A : Type) (cmp : A -> A -> Z) (l : list A) : list A :=
  match l with
  | [] => []
  | x :: l' => insert_sorted cmp x (sort cmp l')
  end.

End Js.

(* ================================================================= *)
(** ** [Map<string, V>] in insertion order *)

Module JsMap.

Definition t (V : Type) : Type := list (string * V).

Definition empty (V : Type) : t V := [].

Fixpoint get (V : Type) (k : string) (m : t V) : option V :=
  match m with
  | [] => None
  | (k', v) :: m' => if k' =? k then Some v else get k m'
  end.

Fixpoint set (V : Type) (k : string) (v : V) (m : t V) : t V :=
  match m with
  | [] => [(k, v)]
  | (k', v') :: m' =>
      if k' =? k then (k', v) :: m' else (k', v') :: set k v m'
  end.

Definition keys (V : Type) (m : t V) : list string := map fst m.
Definition values (V : Type) (m : t V) : list V := map snd m.

(** [for (const x of xs) m.set(key x, x)]. *)
Definition set_each (V : Type) (key : V -> string) (xs : list V) (m : t V)
  : t V :=
  fold_left (fun acc x => set (key x) x acc) xs m.

(** A run of [set] calls, first to last. *)
Definition set_all (V : Type) (ops : list (string * V)) (m : t V) : t V :=
  fold_left (fun acc kv => set (fst kv) (snd kv) acc) ops m.

End JsMap.

(* ================================================================= *)
(** ** Plain objects used as tables *)

Module JsObject.

(** The property names every plain object inherits from
    [Object.prototype]. *)
Definition prototype : list string :=
  [ "constructor"; "__proto__"; "hasOwnProperty"; "isPrototypeOf";
    "propertyIsEnumerable"; "toLocaleString"; "toString"; "valueOf";
    "__defineGetter__"; "__defineSetter__"; "__lookupGetter__";
    "__lookupSetter__" ].

Definition inherits (key : string) : bool :=
  existsb (String.eqb key) prototype.

(** What [table[key]] evaluates to: the table's own property, else the
    property of [Object.prototype] of that name (a function, or for
    "__proto__" the prototype object), else [undefined]. *)
Inductive Property (A : Type) : Type :=
| Own (a : A)
| Inherited (name : string)
| Undefined.
Arguments Inherited {A}.
Arguments Undefined {A}.

(** [table[key]], the table given by its own properties. *)
Definition get (A : Type) (key : string) (table : JsMap.t A) : Property A :=
  match JsMap.get key table with
  | Some a => Own a
  | None => if inherits key then Inherited key else Undefined
  end.

End JsObject.

(* ================================================================= *)
(** ** [src/types.ts]: the raw STIX objects *)

Record StixExternalReference : Type := {
  source_name : string;
  external_id : option string;
  url : option string
}.

Record StixKillChainPhase : Type := {
  kill_chain_name : string;
  phase_name : string
}.

(** One record for [StixObject] and all its extensions; [type] is the
    discriminator and a field an extension does not declare is absent. *)
Module Stix.
Record Object : Type := {
  id : string;
  type : string;
  name : option string;
  description : option string;
  external_references : option (list StixExternalReference);
  x_mitre_deprecated : option bool;
  revoked : option bool;
  kill_chain_phases : option (list StixKillChainPhase);
  x_mitre_platforms : option (list string);
  x_mitre_data_sources : option (list string);
  x_mitre_detection : option string;
  x_mitre_is_subtechnique : option bool;
  x_mitre_shortname : option string;
  aliases : option (list string);
  x_mitre_data_source_ref : option string;
  relationship_type : string;
  source_ref : string;
  target_ref : string
}.
End Stix.

Record StixBundle : Type := { objects : list Stix.Object }.

(** ** [src/types.ts]: the parsed entities *)

Record AttackReference : Type := {
  ref_source : string;
  ref_url : option string
}.

Module Technique.
Record t : Type := {
  id : string;
  stixId : string;
  name : string;
  description : string;
  tactics : list string;
  platforms : list string;
  dataSources : list string;
  detection : string;
  isSubtechnique : bool;
  parentId : option string;
  deprecated : bool;
  revoked : bool;
  references : list AttackReference
}.
End Technique.

Module Tactic.

(** The field [order] is declared a [number]. What [parseTactics] puts
    there is what the lookup in the order table gives: a number, or, for
    a short name that is a property name of [Object.prototype], that
    property, which is a function or an object and no number. *)
Inductive Order : Type :=
| Number (n : Z)
| NotANumber (inherited : string).

Record t : Type := {
  id : string;
  stixId : string;
  name : string;
  shortName : string;
  description : string;
  order : Order
}.

(** [a - b] on two orders: [None] is NaN, the difference as soon as one
    side is no number. *)
Definition minus (a b : Order) : option Z :=
  match a, b with
  | Number x, Number y => Some (x - y)%Z
  | _, _ => None
  end.
End Tactic.

Module Group.
Record t : Type := {
  id : string;
  stixId : string;
  name : string;
  aliases : list string;
  description : string;
  deprecated : bool;
  revoked : bool;
  references : list AttackReference
}.
End Group.

Inductive SoftwareType : Type := malware | tool.

Definition SoftwareType_eqb (a b : SoftwareType) : bool :=
  match a, b with
  | malware, malware | tool, tool => true
  | _, _ => false
  end.

Module Software.
Record t : Type := {
  id : string;
  stixId : string;
  name : string;
  type : SoftwareType;
  aliases : list string;
  description : string;
  platforms : list string;
  deprecated : bool;
  revoked : bool;
  references : list AttackReference
}.
End Software.

Module Mitigation.
Record t : Type := {
  id : string;
  stixId : string;
  name : string;
  description : string;
  deprecated : bool;
  revoked : bool;
  references : list AttackReference
}.
End Mitigation.

Module DataSource.
Record t : Type := {
  id : string;
  stixId : string;
  name : string;
  description : string;
  platforms : list string;
  references : list AttackReference
}.
End DataSource.

Module DataComponent.
Record t : Type := {
  id : string;
  stixId : string;
  name : string;
  description : string;
  dataSourceId : string
}.
End DataComponent.

Module Relationship.
Record t : Type := {
  sourceRef : string;
  targetRef : string;
  relationshipType : string;
  description : string
}.
End Relationship.

(** Kill chain ordering for the enterprise matrix. *)
Definition ENTERPRISE_TACTIC_ORDER : JsMap.t Z :=
  [ ("reconnaissance", 0%Z);
    ("resource-development", 1%Z);
    ("initial-access", 2%Z);
    ("execution", 3%Z);
    ("persistence", 4%Z);
    ("privilege-escalation", 5%Z);
    ("defense-evasion", 6%Z);
    ("credential-access", 7%Z);
    ("discovery", 8%Z);
    ("lateral-movement", 9%Z);
    ("collection", 10%Z);
    ("command-and-control", 11%Z);
    ("exfiltration", 12%Z);
    ("impact", 13%Z) ].

Inductive MatrixType : Type := enterprise | mobile | ics.

Record MitreConfig : Type := {
  dataDir : string;
  matrices : list MatrixType;
  updateInterval : Z
}.

(* ================================================================= *)
(** ** [src/data/parser.ts] *)

Definition getExternalId (refs : option (list StixExternalReference))
  : string :=
  match refs with
  | None => ""
  | Some refs =>
      match find (fun r => source_name r =? "mitre-attack") refs with
      | Some mitreRef => Js.or_default (external_id mitreRef) ""
      | None => ""
      end
  end.

Definition parseReferences (refs : option (list StixExternalReference))
  : list AttackReference :=
  match refs with
  | None => []
  | Some refs =>
      map (fun r => {| ref_source := source_name r; ref_url := url r |})
          (filter (fun r => Js.truthy_opt (url r)) refs)
  end.

(** The filter each parser starts with: the discriminator and [!!obj.name]. *)
Definition named_of_type (ty : string) (obj : Stix.Object) : bool :=
  (Stix.type obj =? ty) && Js.truthy_opt (Stix.name obj).

Definition technique_of (ap : Stix.Object) : Technique.t :=
  let id := getExternalId (Stix.external_references ap) in
  let tactics :=
    map phase_name
        (filter (fun kc => Js.includes (kill_chain_name kc) "attack")
                (Js.or_nil (Stix.kill_chain_phases ap))) in
  let isSubtechnique :=
    Js.is_true (Stix.x_mitre_is_subtechnique ap) || Js.includes id "." in
  let parentId :=
    if isSubtechnique then Some (hd "" (Js.split "." id)) else None in
  {| Technique.id := id;
     Technique.stixId := Stix.id ap;
     Technique.name := Js.or_default (Stix.name ap) "";
     Technique.description := Js.or_default (Stix.description ap) "";
     Technique.tactics := tactics;
     Technique.platforms := Js.or_nil (Stix.x_mitre_platforms ap);
     Technique.dataSources := Js.or_nil (Stix.x_mitre_data_sources ap);
     Technique.detection := Js.or_default (Stix.x_mitre_detection ap) "";
     Technique.isSubtechnique := isSubtechnique;
     Technique.parentId := parentId;
     Technique.deprecated := Js.is_true (Stix.x_mitre_deprecated ap);
     Technique.revoked := Js.is_true (Stix.revoked ap);
     Technique.references := parseReferences (Stix.external_references ap) |}.

Definition parseTechniques (bundle : StixBundle) : list Technique.t :=
  map technique_of (filter (named_of_type "attack-pattern") (objects bundle)).

(** [tacticOrder[shortName] ?? 99]: the default 99 stands in for
    [undefined] only, so an inherited property is kept. *)
Definition order_in (tacticOrder : JsMap.t Z) (shortName : string)
  : Tactic.Order :=
  match JsObject.get shortName tacticOrder with
  | JsObject.Own n => Tactic.Number n
  | JsObject.Inherited p => Tactic.NotANumber p
  | JsObject.Undefined => Tactic.Number 99
  end.

Definition tactic_of (tacticOrder : JsMap.t Z) (t : Stix.Object) : Tactic.t :=
  let id := getExternalId (Stix.external_references t) in
  let shortName := Js.or_default (Stix.x_mitre_shortname t) "" in
  {| Tactic.id := id;
     Tactic.stixId := Stix.id t;
     Tactic.name := Js.or_default (Stix.name t) "";
     Tactic.shortName := shortName;
     Tactic.description := Js.or_default (Stix.description t) "";
     Tactic.order := order_in tacticOrder shortName |}.

(** The comparator [(a, b) => a.order - b.order] as [sort] reads its
    result: NaN counts as +0. *)
Definition by_order (a b : Tactic.t) : Z :=
  match Tactic.minus (Tactic.order a) (Tactic.order b) with
  | Some d => d
  | None => 0%Z
  end.

Definition parseTactics (bundle : StixBundle) (tacticOrder : JsMap.t Z)
  : list Tactic.t :=
  Js.sort by_order
    (map (tactic_of tacticOrder)
         (filter (named_of_type "x-mitre-tactic") (objects bundle))).

Definition group_of (g : Stix.Object) : Group.t :=
  {| Group.id := getExternalId (Stix.external_references g);
     Group.stixId := Stix.id g;
     Group.name := Js.or_default (Stix.name g) "";
     Group.aliases := Js.or_nil (Stix.aliases g);
     Group.description := Js.or_default (Stix.description g) "";
     Group.deprecated := Js.is_true (Stix.x_mitre_deprecated g);
     Group.revoked := Js.is_true (Stix.revoked g);
     Group.references := parseReferences (Stix.external_references g) |}.

Definition parseGroups (bundle : StixBundle) : list Group.t :=
  map group_of (filter (named_of_type "intrusion-set") (objects bundle)).

Definition software_of (ty : SoftwareType) (m : Stix.Object) : Software.t :=
  {| Software.id := getExternalId (Stix.external_references m);
     Software.stixId := Stix.id m;
     Software.name := Js.or_default (Stix.name m) "";
     Software.type := ty;
     Software.aliases := Js.or_nil (Stix.aliases m);
     Software.description := Js.or_default (Stix.description m) "";
     Software.platforms := Js.or_nil (Stix.x_mitre_platforms m);
     Software.deprecated := Js.is_true (Stix.x_mitre_deprecated m);
     Software.revoked := Js.is_true (Stix.revoked m);
     Software.references := parseReferences (Stix.external_references m) |}.

Definition parseSoftware (bundle : StixBundle) : list Software.t :=
  map (software_of malware) (filter (named_of_type "malware") (objects bundle))
  ++ map (software_of tool) (filter (named_of_type "tool") (objects bundle)).

Definition mitigation_of (c : Stix.Object) : Mitigation.t :=
  {| Mitigation.id := getExternalId (Stix.external_references c);
     Mitigation.stixId := Stix.id c;
     Mitigation.name := Js.or_default (Stix.name c) "";
     Mitigation.description := Js.or_default (Stix.description c) "";
     Mitigation.deprecated := Js.is_true (Stix.x_mitre_deprecated c);
     Mitigation.revoked := Js.is_true (Stix.revoked c);
     Mitigation.references := parseReferences (Stix.external_references c) |}.

Definition parseMitigations (bundle : StixBundle) : list Mitigation.t :=
  map mitigation_of
      (filter (named_of_type "course-of-action") (objects bundle)).

Definition dataSource_of (ds : Stix.Object) : DataSource.t :=
  {| DataSource.id := getExternalId (Stix.external_references ds);
     DataSource.stixId := Stix.id ds;
     DataSource.name := Js.or_default (Stix.name ds) "";
     DataSource.description := Js.or_default (Stix.description ds) "";
     DataSource.platforms := Js.or_nil (Stix.x_mitre_platforms ds);
     DataSource.references := parseReferences (Stix.external_references ds) |}.

Definition parseDataSources (bundle : StixBundle) : list DataSource.t :=
  map dataSource_of
      (filter (named_of_type "x-mitre-data-source") (objects bundle)).

Definition dataComponent_of (dc : Stix.Object) : DataComponent.t :=
  {| DataComponent.id := Stix.id dc;
     DataComponent.stixId := Stix.id dc;
     DataComponent.name := Js.or_default (Stix.name dc) "";
     DataComponent.description := Js.or_default (Stix.description dc) "";
     DataComponent.dataSourceId :=
       Js.or_default (Stix.x_mitre_data_source_ref dc) "" |}.

Definition parseDataComponents (bundle : StixBundle) : list DataComponent.t :=
  map dataComponent_of
      (filter (named_of_type "x-mitre-data-component") (objects bundle)).

Definition relationship_of (r : Stix.Object) : Relationship.t :=
  {| Relationship.sourceRef := Stix.source_ref r;
     Relationship.targetRef := Stix.target_ref r;
     Relationship.relationshipType := Stix.relationship_type r;
     Relationship.description := Js.or_default (Stix.description r) "" |}.

Definition parseRelationships (bundle : StixBundle) : list Relationship.t :=
  map relationship_of
      (filter (fun r => Js.falsy (Stix.x_mitre_deprecated r)
                        && Js.falsy (Stix.revoked r))
              (filter (fun obj => Stix.type obj =? "relationship")
                      (objects bundle))).

(* ================================================================= *)
(** ** [src/data/index.ts]: class [AttackDataStore] *)

(** [xs.map(f).filter(x => x !== null)]. *)
Fixpoint filter_null (A : Type) (l : list (option A)) : list A :=
  match l with
  | [] => []
  | Some x :: l' => x :: filter_null l'
  | None :: l' => filter_null l'
  end.

(** [new Set(xs).has(x)]. *)
Definition set_has (xs : list string) (x : string) : bool :=
  existsb (fun y => y =? x) xs.

Record TechniqueSearch : Type := {
  ts_query : option string;
  ts_tactic : option string;
  ts_platform : option string;
  ts_dataSource : option string;
  ts_isSubtechnique : option bool
}.

Record GroupSearch : Type := {
  gs_query : option string;
  gs_technique : option string
}.

Record SoftwareSearch : Type := {
  ss_query : option string;
  ss_technique : option string;
  ss_type : option SoftwareType
}.

Module AttackDataStore.

Record t : Type := {
  techniques : JsMap.t Technique.t;
  techniquesByStixId : JsMap.t Technique.t;
  tactics : JsMap.t Tactic.t;
  tacticsByShortName : JsMap.t Tactic.t;
  groups : JsMap.t Group.t;
  groupsByStixId : JsMap.t Group.t;
  groupsByName : JsMap.t Group.t;
  software : JsMap.t Software.t;
  softwareByStixId : JsMap.t Software.t;
  softwareByName : JsMap.t Software.t;
  mitigations : JsMap.t Mitigation.t;
  mitigationsByStixId : JsMap.t Mitigation.t;
  dataSources : JsMap.t DataSource.t;
  dataSourcesByStixId : JsMap.t DataSource.t;
  dataSourcesByName : JsMap.t DataSource.t;
  dataComponents : list DataComponent.t;
  relationships : list Relationship.t;
  config : MitreConfig;
  loaded : bool
}.

(** [new AttackDataStore(config)]. *)
Definition create (cfg : MitreConfig) : t :=
  {| techniques := JsMap.empty _;
     techniquesByStixId := JsMap.empty _;
     tactics := JsMap.empty _;
     tacticsByShortName := JsMap.empty _;
     groups := JsMap.empty _;
     groupsByStixId := JsMap.empty _;
     groupsByName := JsMap.empty _;
     software := JsMap.empty _;
     softwareByStixId := JsMap.empty _;
     softwareByName := JsMap.empty _;
     mitigations := JsMap.empty _;
     mitigationsByStixId := JsMap.empty _;
     dataSources := JsMap.empty _;
     dataSourcesByStixId := JsMap.empty _;
     dataSourcesByName := JsMap.empty _;
     dataComponents := [];
     relationships := [];
     config := cfg;
     loaded := false |}.

(** The name index of groups and software: the lowercased name, then
    every lowercased alias, entity by entity. *)
Definition set_names (V : Type) (name : V -> string)
  (aliases : V -> list string) (xs : list V) (m : JsMap.t V) : JsMap.t V :=
  fold_left
    (fun acc x =>
       fold_left (fun acc' alias => JsMap.set (Js.toLowerCase alias) x acc')
                 (aliases x)
                 (JsMap.set (Js.toLowerCase (name x)) x acc))
    xs m.

Definition indexBundle (bundle : StixBundle) (s : t) : t :=
  let techs := parseTechniques bundle in
  let tacs := parseTactics bundle ENTERPRISE_TACTIC_ORDER in
  let grps := parseGroups bundle in
  let sw := parseSoftware bundle in
  let mits := parseMitigations bundle in
  let dss := parseDataSources bundle in
  {| techniques := JsMap.set_each Technique.id techs (techniques s);
     techniquesByStixId :=
       JsMap.set_each Technique.stixId techs (techniquesByStixId s);
     tactics := JsMap.set_each Tactic.id tacs (tactics s);
     tacticsByShortName :=
       JsMap.set_each Tactic.shortName tacs (tacticsByShortName s);
     groups := JsMap.set_each Group.id grps (groups s);
     groupsByStixId := JsMap.set_each Group.stixId grps (groupsByStixId s);
     groupsByName :=
       set_names Group.name Group.aliases grps (groupsByName s);
     software := JsMap.set_each Software.id sw (software s);
     softwareByStixId :=
       JsMap.set_each Software.stixId sw (softwareByStixId s);
     softwareByName :=
       set_names Software.name Software.aliases sw (softwareByName s);
     mitigations := JsMap.set_each Mitigation.id mits (mitigations s);
     mitigationsByStixId :=
       JsMap.set_each Mitigation.stixId mits (mitigationsByStixId s);
     dataSources := JsMap.set_each DataSource.id dss (dataSources s);
     dataSourcesByStixId :=
       JsMap.set_each DataSource.stixId dss (dataSourcesByStixId s);
     dataSourcesByName :=
       JsMap.set_each (fun ds => Js.toLowerCase (DataSource.name ds)) dss
                      (dataSourcesByName s);
     dataComponents := dataComponents s ++ parseDataComponents bundle;
     relationships := relationships s ++ parseRelationships bundle;
     config := config s;
     loaded := loaded s |}.

Definition set_loaded (s : t) : t :=
  {| techniques := techniques s;
     techniquesByStixId := techniquesByStixId s;
     tactics := tactics s;
     tacticsByShortName := tacticsByShortName s;
     groups := groups s;
     groupsByStixId := groupsByStixId s;
     groupsByName := groupsByName s;
     software := software s;
     softwareByStixId := softwareByStixId s;
     softwareByName := softwareByName s;
     mitigations := mitigations s;
     mitigationsByStixId := mitigationsByStixId s;
     dataSources := dataSources s;
     dataSourcesByStixId := dataSourcesByStixId s;
     dataSourcesByName := dataSourcesByName s;
     dataComponents := dataComponents s;
     relationships := relationships s;
     config := config s;
     loaded := true |}.

(** [for (const [, bundle] of bundles) this.indexBundle(bundle)]. *)
Definition indexBundles (bundles : list StixBundle) (s : t) : t :=
  fold_left (fun acc b => indexBundle b acc) bundles s.

(** [bundles] is a [Map<MatrixType, StixBundle>], keyed by matrix name. *)
Definition loadFromBundles (bundles : JsMap.t StixBundle) (s : t) : t :=
  set_loaded (indexBundles (JsMap.values bundles) s).

Definition isLoaded (s : t) : bool := loaded s.

(** *** Technique queries *)

Definition getTechnique (s : t) (id : string) : option Technique.t :=
  JsMap.get (Js.toUpperCase id) (techniques s).

Definition getTechniqueByStixId (s : t) (stixId : string)
  : option Technique.t :=
  JsMap.get stixId (techniquesByStixId s).

Definition getAllTechniques (s : t) (includeDeprecated : bool)
  : list Technique.t :=
  let all := JsMap.values (techniques s) in
  if includeDeprecated then all
  else filter (fun x => negb (Technique.deprecated x)
                        && negb (Technique.revoked x)) all.

Definition some_eq_lower (xs : list string) (v : string) : bool :=
  existsb (fun x => Js.toLowerCase x =? v) xs.

Definition some_includes_lower (xs : list string) (v : string) : bool :=
  existsb (fun x => Js.includes (Js.toLowerCase x) v) xs.

Definition searchTechniques (s : t) (opts : TechniqueSearch)
  : list Technique.t :=
  let results := getAllTechniques s false in
  let results :=
    match ts_query opts with
    | Some query =>
        if Js.truthy query then
          let q := Js.toLowerCase query in
          filter (fun x =>
                    Js.includes (Js.toLowerCase (Technique.name x)) q
                    || Js.includes (Js.toLowerCase (Technique.description x)) q
                    || Js.includes (Js.toLowerCase (Technique.id x)) q)
                 results
        else results
    | None => results
    end in
  let results :=
    match ts_tactic opts with
    | Some tac =>
        if Js.truthy tac then
          let tactic := Js.toLowerCase tac in
          filter (fun x => some_eq_lower (Technique.tactics x) tactic) results
        else results
    | None => results
    end in
  let results :=
    match ts_platform opts with
    | Some p =>
        if Js.truthy p then
          let platform := Js.toLowerCase p in
          filter (fun x => some_eq_lower (Technique.platforms x) platform)
                 results
        else results
    | None => results
    end in
  let results :=
    match ts_dataSource opts with
    | Some d =>
        if Js.truthy d then
          let ds := Js.toLowerCase d in
          filter (fun x => some_includes_lower (Technique.dataSources x) ds)
                 results
        else results
    | None => results
    end in
  let results :=
    match ts_isSubtechnique opts with
    | Some b => filter (fun x => Bool.eqb (Technique.isSubtechnique x) b) results
    | None => results
    end in
  results.

Definition getSubtechniques (s : t) (parentId : string) : list Technique.t :=
  filter (fun x =>
            match Technique.parentId x with
            | Some p => p =? Js.toUpperCase parentId
            | None => false
            end)
         (getAllTechniques s false).

(** *** Tactic queries *)

Definition getTactic (s : t) (id : string) : option Tactic.t :=
  Js.or_else (JsMap.get (Js.toUpperCase id) (tactics s))
             (JsMap.get (Js.toLowerCase id) (tacticsByShortName s)).

Definition getAllTactics (s : t) : list Tactic.t :=
  Js.sort by_order (JsMap.values (tactics s)).

Definition getTechniquesForTactic (s : t) (tacticShortName : string)
  : list Technique.t :=
  let name := Js.toLowerCase tacticShortName in
  filter (fun x => some_eq_lower (Technique.tactics x) name)
         (getAllTechniques s false).

(** *** Group queries *)

Definition getGroup (s : t) (idOrName : string) : option Group.t :=
  Js.or_else (JsMap.get (Js.toUpperCase idOrName) (groups s))
             (JsMap.get (Js.toLowerCase idOrName) (groupsByName s)).

Definition getAllGroups (s : t) (includeDeprecated : bool) : list Group.t :=
  let all := JsMap.values (groups s) in
  if includeDeprecated then all
  else filter (fun g => negb (Group.deprecated g) && negb (Group.revoked g))
              all.

(** The [stixId] of the technique a [technique] filter names, when the
    lookup finds one: [this.techniques.get(id.toUpperCase())?.stixId]. *)
Definition techStixId_of (s : t) (technique : string) : option string :=
  option_map Technique.stixId
             (JsMap.get (Js.toUpperCase technique) (techniques s)).

(** The sources of the "uses" edges that point to [techStixId]. *)
Definition users_of (s : t) (techStixId : string) : list string :=
  map Relationship.sourceRef
      (filter (fun r => (Relationship.targetRef r =? techStixId)
                        && (Relationship.relationshipType r =? "uses"))
              (relationships s)).

Definition searchGroups (s : t) (opts : GroupSearch) : list Group.t :=
  let results := getAllGroups s false in
  let results :=
    match gs_query opts with
    | Some query =>
        if Js.truthy query then
          let q := Js.toLowerCase query in
          filter (fun g =>
                    Js.includes (Js.toLowerCase (Group.name g)) q
                    || Js.includes (Js.toLowerCase (Group.description g)) q
                    || some_includes_lower (Group.aliases g) q)
                 results
        else results
    | None => results
    end in
  let results :=
    match gs_technique opts with
    | Some technique =>
        if Js.truthy technique then
          if Js.truthy_opt (techStixId_of s technique) then
            let groupStixIds :=
              users_of s (Js.or_default (techStixId_of s technique) "") in
            filter (fun g => set_has groupStixIds (Group.stixId g)) results
          else []
        else results
    | None => results
    end in
  results.

Definition uses_from (gid : string) (r : Relationship.t) : bool :=
  (Relationship.sourceRef r =? gid)
  && (Relationship.relationshipType r =? "uses").

Definition uses_to (sid : string) (r : Relationship.t) : bool :=
  (Relationship.targetRef r =? sid)
  && (Relationship.relationshipType r =? "uses").

(** The body of the [map] of the technique joins: the target technique
    with the edge's description, or [null]. *)
Definition technique_entry (s : t) (r : Relationship.t)
  : option (Technique.t * string) :=
  match JsMap.get (Relationship.targetRef r) (techniquesByStixId s) with
  | Some technique =>
      if Technique.deprecated technique || Technique.revoked technique
      then None
      else Some (technique, Relationship.description r)
  | None => None
  end.

Definition getGroupTechniques (s : t) (groupStixId : string)
  : list (Technique.t * string) :=
  filter_null
    (map (technique_entry s) (filter (uses_from groupStixId) (relationships s))).

Definition getGroupSoftware (s : t) (groupStixId : string)
  : list Software.t :=
  filter_null
    (map (fun r => JsMap.get (Relationship.targetRef r) (softwareByStixId s))
         (filter (uses_from groupStixId) (relationships s))).

(** *** Software queries *)

Definition getSoftware (s : t) (idOrName : string) : option Software.t :=
  Js.or_else (JsMap.get (Js.toUpperCase idOrName) (software s))
             (JsMap.get (Js.toLowerCase idOrName) (softwareByName s)).

Definition getAllSoftware (s : t) (includeDeprecated : bool)
  : list Software.t :=
  let all := JsMap.values (software s) in
  if includeDeprecated then all
  else filter (fun x => negb (Software.deprecated x)
                        && negb (Software.revoked x)) all.

Definition searchSoftware (s : t) (opts : SoftwareSearch)
  : list Software.t :=
  let results := getAllSoftware s false in
  let results :=
    match ss_type opts with
    | Some ty => filter (fun x => SoftwareType_eqb (Software.type x) ty) results
    | None => results
    end in
  let results :=
    match ss_query opts with
    | Some query =>
        if Js.truthy query then
          let q := Js.toLowerCase query in
          filter (fun x =>
                    Js.includes (Js.toLowerCase (Software.name x)) q
                    || Js.includes (Js.toLowerCase (Software.description x)) q
                    || some_includes_lower (Software.aliases x) q)
                 results
        else results
    | None => results
    end in
  let results :=
    match ss_technique opts with
    | Some technique =>
        if Js.truthy technique then
          if Js.truthy_opt (techStixId_of s technique) then
            let swStixIds :=
              users_of s (Js.or_default (techStixId_of s technique) "") in
            filter (fun x => set_has swStixIds (Software.stixId x)) results
          else []
        else results
    | None => results
    end in
  results.

Definition getSoftwareTechniques (s : t) (swStixId : string)
  : list (Technique.t * string) :=
  filter_null
    (map (technique_entry s) (filter (uses_from swStixId) (relationships s))).

Definition getSoftwareGroups (s : t) (swStixId : string) : list Group.t :=
  filter_null
    (map (fun r => JsMap.get (Relationship.sourceRef r) (groupsByStixId s))
         (filter (uses_to swStixId) (relationships s))).

(** *** Mitigation queries *)

Definition getMitigation (s : t) (id : string) : option Mitigation.t :=
  JsMap.get (Js.toUpperCase id) (mitigations s).

Definition getAllMitigations (s : t) (includeDeprecated : bool)
  : list Mitigation.t :=
  let all := JsMap.values (mitigations s) in
  if includeDeprecated then all
  else filter (fun m => negb (Mitigation.deprecated m)
                        && negb (Mitigation.revoked m)) all.

Definition searchMitigations (s : t) (query : string) : list Mitigation.t :=
  let q := Js.toLowerCase query in
  filter (fun m =>
            Js.includes (Js.toLowerCase (Mitigation.name m)) q
            || Js.includes (Js.toLowerCase (Mitigation.description m)) q)
         (getAllMitigations s false).

Definition mitigation_entry (s : t) (r : Relationship.t)
  : option (Mitigation.t * string) :=
  match JsMap.get (Relationship.sourceRef r) (mitigationsByStixId s) with
  | Some mitigation =>
      if Mitigation.deprecated mitigation || Mitigation.revoked mitigation
      then None
      else Some (mitigation, Relationship.description r)
  | None => None
  end.

Definition getMitigationsForTechnique (s : t) (techniqueId : string)
  : list (Mitigation.t * string) :=
  match JsMap.get (Js.toUpperCase techniqueId) (techniques s) with
  | None => []
  | Some tech =>
      filter_null
        (map (mitigation_entry s)
             (filter (fun r =>
                        (Relationship.targetRef r =? Technique.stixId tech)
                        && (Relationship.relationshipType r =? "mitigates"))
                     (relationships s)))
  end.

Definition getTechniquesForMitigation (s : t) (mitigationId : string)
  : list (Technique.t * string) :=
  match JsMap.get (Js.toUpperCase mitigationId) (mitigations s) with
  | None => []
  | Some mit =>
      filter_null
        (map (technique_entry s)
             (filter (fun r =>
                        (Relationship.sourceRef r =? Mitigation.stixId mit)
                        && (Relationship.relationshipType r =? "mitigates"))
                     (relationships s)))
  end.

(** *** Data source queries *)

Definition getDataSource (s : t) (idOrName : string) : option DataSource.t :=
  Js.or_else (JsMap.get (Js.toUpperCase idOrName) (dataSources s))
             (JsMap.get (Js.toLowerCase idOrName) (dataSourcesByName s)).

Definition getAllDataSources (s : t) : list DataSource.t :=
  JsMap.values (dataSources s).

Definition getDataComponents (s : t) : list DataComponent.t :=
  dataComponents s.

Definition getComponentsForDataSource (s : t) (dsStixId : string)
  : list DataComponent.t :=
  filter (fun dc => DataComponent.dataSourceId dc =? dsStixId)
         (dataComponents s).

Definition getTechniquesDetectedByComponent (s : t) (componentStixId : string)
  : list Technique.t :=
  let techStixIds :=
    map Relationship.targetRef
        (filter (fun r =>
                   (Relationship.sourceRef r =? componentStixId)
                   && (Relationship.relationshipType r =? "detects"))
                (relationships s)) in
  filter_null
    (map (fun id =>
            match JsMap.get id (techniquesByStixId s) with
            | Some x =>
                if negb (Technique.deprecated x) && negb (Technique.revoked x)
                then Some x else None
            | None => None
            end)
         techStixIds).

(** *** Relationships *)

Definition getRelationships (s : t) : list Relationship.t := relationships s.

End AttackDataStore.

(* ================================================================= *)
(** ** [src/data/loader.ts] and [AttackDataStore.initialize]

    The loader reads and writes the cache directory, reads the clock and
    fetches from the network. The state it works on is a [World]: the
    cache file of each matrix, the metadata file, the clock, and what a
    fetch of each matrix returns. A function that writes returns the new
    world; one that can throw returns a [Result]. A metadata file that
    parses holds the time [downloadAllMatrices] wrote, in milliseconds;
    a file that [JSON.parse] rejects is [Corrupt]. *)

Module Loader.

Definition MatrixType_eqb (a b : MatrixType) : bool :=
  match a, b with
  | enterprise, enterprise | mobile, mobile | ics, ics => true
  | _, _ => false
  end.

(** The string a [MatrixType] is at run time. *)
Definition matrix_name (m : MatrixType) : string :=
  match m with
  | enterprise => "enterprise"
  | mobile => "mobile"
  | ics => "ics"
  end.

(** A file of the cache directory: it parses to a value or it does not. *)
Inductive File (A : Type) : Type :=
| Parses (a : A)
| Corrupt.
Arguments Corrupt {A}.

(** The field [lastUpdated] of the metadata file as
    [new Date(meta.lastUpdated).getTime()] reads it: a time in
    milliseconds, or NaN when the string is no date. *)
Inductive Timestamp : Type :=
| At (ms : Z)
| InvalidDate.

Record World : Type := {
  cache : MatrixType -> option (File StixBundle);
  metadata : option (File Timestamp);
  now : Z;
  remote : MatrixType -> StixBundle + string
}.

Inductive Result (A : Type) : Type :=
| Ok (a : A)
| Throw (message : string).
Arguments Throw {A}.

Definition write_cache (w : World) (m : MatrixType) (b : StixBundle) : World :=
  {| cache := fun m' => if MatrixType_eqb m' m then Some (Parses b)
                        else cache w m';
     metadata := metadata w;
     now := now w;
     remote := remote w |}.

Definition write_metadata (w : World) : World :=
  {| cache := cache w;
     metadata := Some (Parses (At (now w)));
     now := now w;
     remote := remote w |}.

(** [lastUpdated] is the time in milliseconds, [updateInterval] is in
    seconds. A metadata file is [Corrupt] when reading it throws (its
    text is no JSON, or no object) and the [catch] answers; with a
    [lastUpdated] that is no date the difference is NaN, and [NaN > x]
    is false. *)
Definition isCacheStale (w : World) (updateInterval : Z) : bool :=
  match metadata w with
  | None => true
  | Some Corrupt => true
  | Some (Parses (At lastUpdated)) =>
      (now w - lastUpdated >? updateInterval * 1000)%Z
  | Some (Parses InvalidDate) => false
  end.

Definition hasCachedData (w : World) (ms : list MatrixType) : bool :=
  forallb (fun m => match cache w m with Some _ => true | None => false end)
          ms.

Definition downloadMatrix (w : World) (m : MatrixType)
  : World * Result StixBundle :=
  match remote w m with
  | inl data => (write_cache w m data, Ok data)
  | inr message => (w, Throw message)
  end.

(** The loop of [downloadAllMatrices]: the bundles so far are [acc]. *)
Fixpoint download_each (w : World) (ms : list MatrixType)
  (acc : JsMap.t StixBundle) : World * Result (JsMap.t StixBundle) :=
  match ms with
  | [] => (w, Ok acc)
  | m :: ms' =>
      match downloadMatrix w m with
      | (w', Ok bundle) =>
          download_each w' ms' (JsMap.set (matrix_name m) bundle acc)
      | (w', Throw message) => (w', Throw message)
      end
  end.

Definition downloadAllMatrices (w : World) (ms : list MatrixType)
  : World * Result (JsMap.t StixBundle) :=
  match download_each w ms (JsMap.empty _) with
  | (w', Ok bundles) => (write_metadata w', Ok bundles)
  | (w', Throw message) => (w', Throw message)
  end.

Definition loadCachedBundle (w : World) (m : MatrixType) : option StixBundle :=
  match cache w m with
  | Some (Parses b) => Some b
  | Some Corrupt => None
  | None => None
  end.

Fixpoint load_each (w : World) (ms : list MatrixType)
  (acc : JsMap.t StixBundle) : option (JsMap.t StixBundle) :=
  match ms with
  | [] => Some acc
  | m :: ms' =>
      match loadCachedBundle w m with
      | None => None
      | Some bundle => load_each w ms' (JsMap.set (matrix_name m) bundle acc)
      end
  end.

Definition loadCachedBundles (w : World) (ms : list MatrixType)
  : option (JsMap.t StixBundle) :=
  load_each w ms (JsMap.empty _).

(** [AttackDataStore.initialize]: the world and the store after the call,
    and whether the call returned or threw. *)
Definition initialize (w : World) (s : AttackDataStore.t)
  : World * AttackDataStore.t * Result unit :=
  let cfg := AttackDataStore.config s in
  let bundles :=
    if hasCachedData w (matrices cfg)
       && negb (isCacheStale w (updateInterval cfg))
    then loadCachedBundles w (matrices cfg)
    else None in
  let fetched : World * Result (JsMap.t StixBundle) :=
    match bundles with
    | Some bs => (w, Ok bs)
    | None =>
        match downloadAllMatrices w (matrices cfg) with
        | (w', Ok bs) => (w', Ok bs)
        | (w', Throw message) =>
            match loadCachedBundles w' (matrices cfg) with
            | Some bs => (w', Ok bs)
            | None =>
                (w', Throw ("Failed to load ATT&CK data: " ++ message))
            end
        end
    end in
  match fetched with
  | (w', Ok bs) => (w', AttackDataStore.loadFromBundles bs s, Ok tt)
  | (w', Throw message) => (w', s, Throw message)
  end.

End Loader.

(* ================================================================= *)
(** ** The states of the store

    A store starts empty ([create]) and changes only through
    [loadFromBundles]; a successful [initialize] is such a load and a
    failed one leaves the store as it was. *)

Inductive Reachable : AttackDataStore.t -> Prop :=
| reach_create (cfg : MitreConfig) : Reachable (AttackDataStore.create cfg)
| reach_load (bundles : JsMap.t StixBundle) (s : AttackDataStore.t) :
    Reachable s -> Reachable (AttackDataStore.loadFromBundles bundles s).

(** The keys of a map are pairwise different. *)
Definition distinct_keys (V : Type) (m : JsMap.t V) : Prop :=
  NoDup (JsMap.keys m).

(** Every entry of an index sits under the key computed from its value. *)
Definition keyed_by (V : Type) (key : V -> string) (m : JsMap.t V) : Prop :=
  Forall (fun kv => fst kv = key (snd kv)) m.

(** The value of the last [set] on [k] in a run of them. *)
Fixpoint last_set (V : Type) (ops : list (string * V)) (k : string)
  : option V :=
  match ops with
  | [] => None
  | (k', v) :: ops' =>
      match last_set ops' k with
      | Some v' => Some v'
      | None => if (k' =? k)%string then Some v else None
      end
  end.

(** The [set] calls the name index makes for one entity. *)
Definition name_ops (V : Type) (name : V -> string)
  (aliases : V -> list string) (x : V) : list (string * V) :=
  (Js.toLowerCase (name x), x)
  :: map (fun alias => (Js.toLowerCase alias, x)) (aliases x).

(** The order [parseTactics] gives a short name under the enterprise
    table. *)
Definition order_of (shortName : string) : Tactic.Order :=
  order_in ENTERPRISE_TACTIC_ORDER shortName.

(** What every reachable store satisfies: no index holds a key twice, an
    index by ID or by internal ID holds each entity under that ID, and a
    tactic carries the order of its short name. *)
Record Indexed (s : AttackDataStore.t) : Prop := {
  ix_techniques : distinct_keys (AttackDataStore.techniques s);
  ix_techniquesByStixId : distinct_keys (AttackDataStore.techniquesByStixId s);
  ix_tactics : distinct_keys (AttackDataStore.tactics s);
  ix_tacticsByShortName : distinct_keys (AttackDataStore.tacticsByShortName s);
  ix_groups : distinct_keys (AttackDataStore.groups s);
  ix_groupsByStixId : distinct_keys (AttackDataStore.groupsByStixId s);
  ix_groupsByName : distinct_keys (AttackDataStore.groupsByName s);
  ix_software : distinct_keys (AttackDataStore.software s);
  ix_softwareByStixId : distinct_keys (AttackDataStore.softwareByStixId s);
  ix_softwareByName : distinct_keys (AttackDataStore.softwareByName s);
  ix_mitigations : distinct_keys (AttackDataStore.mitigations s);
  ix_mitigationsByStixId :
    distinct_keys (AttackDataStore.mitigationsByStixId s);
  ix_dataSources : distinct_keys (AttackDataStore.dataSources s);
  ix_dataSourcesByStixId :
    distinct_keys (AttackDataStore.dataSourcesByStixId s);
  ix_dataSourcesByName : distinct_keys (AttackDataStore.dataSourcesByName s);
  key_techniques : keyed_by Technique.id (AttackDataStore.techniques s);
  key_techniquesByStixId :
    keyed_by Technique.stixId (AttackDataStore.techniquesByStixId s);
  key_groupsByStixId :
    keyed_by Group.stixId (AttackDataStore.groupsByStixId s);
  key_softwareByStixId :
    keyed_by Software.stixId (AttackDataStore.softwareByStixId s);
  key_mitigationsByStixId :
    keyed_by Mitigation.stixId (AttackDataStore.mitigationsByStixId s);
  ord_tactics :
    Forall (fun kv => Tactic.order (snd kv) = order_of (Tactic.shortName (snd kv)))
           (AttackDataStore.tactics s)
}.



(** The fifteen indices of two stores are the same maps. *)
Definition same_indices (a b : AttackDataStore.t) : Prop :=
  AttackDataStore.techniques a = AttackDataStore.techniques b
  /\ AttackDataStore.techniquesByStixId a = AttackDataStore.techniquesByStixId b
  /\ AttackDataStore.tactics a = AttackDataStore.tactics b
  /\ AttackDataStore.tacticsByShortName a = AttackDataStore.tacticsByShortName b
  /\ AttackDataStore.groups a = AttackDataStore.groups b
  /\ AttackDataStore.groupsByStixId a = AttackDataStore.groupsByStixId b
  /\ AttackDataStore.groupsByName a = AttackDataStore.groupsByName b
  /\ AttackDataStore.software a = AttackDataStore.software b
  /\ AttackDataStore.softwareByStixId a = AttackDataStore.softwareByStixId b
  /\ AttackDataStore.softwareByName a = AttackDataStore.softwareByName b
  /\ AttackDataStore.mitigations a = AttackDataStore.mitigations b
  /\ AttackDataStore.mitigationsByStixId a
     = AttackDataStore.mitigationsByStixId b
  /\ AttackDataStore.dataSources a = AttackDataStore.dataSources b
  /\ AttackDataStore.dataSourcesByStixId a
     = AttackDataStore.dataSourcesByStixId b
  /\ AttackDataStore.dataSourcesByName a = AttackDataStore.dataSourcesByName b.

(** Two result lists hold the same entries, whatever their multiplicity. *)
Definition same_set (A : Type) (l1 l2 : list A) : Prop :=
  forall x, In x l1 <-> In x l2.

(** Two stores answer alike: every point lookup (by public ID, by
    internal ID, by name or alias) returns the same entity, and every
    composite query returns the same set of entries. *)
Record SameAnswers (a b : AttackDataStore.t) : Prop := {
  same_getTechnique :
    forall id, AttackDataStore.getTechnique a id
               = AttackDataStore.getTechnique b id;
  same_getTechniqueByStixId :
    forall id, AttackDataStore.getTechniqueByStixId a id
               = AttackDataStore.getTechniqueByStixId b id;
  same_getTactic :
    forall id, AttackDataStore.getTactic a id = AttackDataStore.getTactic b id;
  same_getGroup :
    forall id, AttackDataStore.getGroup a id = AttackDataStore.getGroup b id;
  same_getSoftware :
    forall id, AttackDataStore.getSoftware a id
               = AttackDataStore.getSoftware b id;
  same_getMitigation :
    forall id, AttackDataStore.getMitigation a id
               = AttackDataStore.getMitigation b id;
  same_getDataSource :
    forall id, AttackDataStore.getDataSource a id
               = AttackDataStore.getDataSource b id;
  same_getGroupTechniques :
    forall id, same_set (AttackDataStore.getGroupTechniques a id)
                        (AttackDataStore.getGroupTechniques b id);
  same_getGroupSoftware :
    forall id, same_set (AttackDataStore.getGroupSoftware a id)
                        (AttackDataStore.getGroupSoftware b id);
  same_getSoftwareTechniques :
    forall id, same_set (AttackDataStore.getSoftwareTechniques a id)
                        (AttackDataStore.getSoftwareTechniques b id);
  same_getSoftwareGroups :
    forall id, same_set (AttackDataStore.getSoftwareGroups a id)
                        (AttackDataStore.getSoftwareGroups b id);
  same_getMitigationsForTechnique :
    forall id, same_set (AttackDataStore.getMitigationsForTechnique a id)
                        (AttackDataStore.getMitigationsForTechnique b id);
  same_getTechniquesForMitigation :
    forall id, same_set (AttackDataStore.getTechniquesForMitigation a id)
                        (AttackDataStore.getTechniquesForMitigation b id);
  same_getTechniquesDetectedByComponent :
    forall id,
      same_set (AttackDataStore.getTechniquesDetectedByComponent a id)
               (AttackDataStore.getTechniquesDetectedByComponent b id);
  same_getComponentsForDataSource :
    forall id, same_set (AttackDataStore.getComponentsForDataSource a id)
                        (AttackDataStore.getComponentsForDataSource b id)
}.

(* ================================================================= *)
(** ** The properties in the words of the specification *)

(** [sub] occurs in [s]: some text before it and some text after it. *)
Definition occurs_in (sub s : string) : Prop :=
  exists before after, s = (before ++ sub ++ after)%string.

(** The public ID cut before its first separator (all of it when it has
    no separator). *)
Fixpoint truncate_before (sep : ascii) (s : string) : string :=
  match s with
  | EmptyString => EmptyString
  | String a s' =>
      if Ascii.eqb a sep then EmptyString
      else String a (truncate_before sep s')
  end.

(** Keyword matching: substring, case-insensitive. *)
Definition keyword_matches (keyword field : string) : Prop :=
  occurs_in (Js.toLowerCase keyword) (Js.toLowerCase field).

(** Two strings equal up to letter case. *)
Definition same_ignoring_case (a b : string) : Prop :=
  Js.toLowerCase a = Js.toLowerCase b.

(** Two spellings that upper-casing makes equal: each is a letter-casing
    variant of the other. *)
Definition same_upper_case (a b : string) : Prop :=
  Js.toUpperCase a = Js.toUpperCase b.

(** A string filter is present when it is supplied and not empty. *)
Definition present (field : option string) (v : string) : Prop :=
  field = Some v /\ v <> "".

(** The entity with internal ID [stixId] has a "uses" edge to the
    technique that the public ID [technique] names. *)
Definition uses_technique (s : AttackDataStore.t) (stixId technique : string)
  : Prop :=
  exists tech r,
    AttackDataStore.getTechnique s technique = Some tech
    /\ Technique.stixId tech <> ""
    /\ In r (AttackDataStore.relationships s)
    /\ Relationship.sourceRef r = stixId
    /\ Relationship.targetRef r = Technique.stixId tech
    /\ Relationship.relationshipType r = "uses".

(** A technique satisfies every filter that is present. *)
Definition technique_satisfies (opts : TechniqueSearch) (x : Technique.t)
  : Prop :=
  (forall q, present (ts_query opts) q ->
     keyword_matches q (Technique.name x)
     \/ keyword_matches q (Technique.description x)
     \/ keyword_matches q (Technique.id x))
  /\ (forall tac, present (ts_tactic opts) tac ->
        exists ta, In ta (Technique.tactics x) /\ same_ignoring_case ta tac)
  /\ (forall p, present (ts_platform opts) p ->
        exists p', In p' (Technique.platforms x) /\ same_ignoring_case p' p)
  /\ (forall d, present (ts_dataSource opts) d ->
        exists d', In d' (Technique.dataSources x) /\ keyword_matches d d')
  /\ (forall b, ts_isSubtechnique opts = Some b ->
        Technique.isSubtechnique x = b).

Definition group_satisfies (s : AttackDataStore.t) (opts : GroupSearch)
  (g : Group.t) : Prop :=
  (forall q, present (gs_query opts) q ->
     keyword_matches q (Group.name g)
     \/ keyword_matches q (Group.description g)
     \/ exists a, In a (Group.aliases g) /\ keyword_matches q a)
  /\ (forall technique, present (gs_technique opts) technique ->
        uses_technique s (Group.stixId g) technique).

Definition software_satisfies (s : AttackDataStore.t) (opts : SoftwareSearch)
  (x : Software.t) : Prop :=
  (forall ty, ss_type opts = Some ty -> Software.type x = ty)
  /\ (forall q, present (ss_query opts) q ->
        keyword_matches q (Software.name x)
        \/ keyword_matches q (Software.description x)
        \/ exists a, In a (Software.aliases x) /\ keyword_matches q a)
  /\ (forall technique, present (ss_technique opts) technique ->
        uses_technique s (Software.stixId x) technique).

(** The cache is not older than the configured interval (in seconds):
    the metadata file gives the time of the last update, at most the
    interval ago. *)
Definition not_older_than (w : Loader.World) (updateInterval : Z) : Prop :=
  exists lastUpdated,
    Loader.metadata w = Some (Loader.Parses (Loader.At lastUpdated))
    /\ (Loader.now w - lastUpdated <= updateInterval * 1000)%Z.

(** The metadata file is there and parses, and its [lastUpdated] is no
    date: the age of the cache cannot be told. *)
Definition undated (w : Loader.World) : Prop :=
  Loader.metadata w = Some (Loader.Parses Loader.InvalidDate).

(** A filter set with its empty-string fields left out. *)
Definition omit_empty (field : option string) : option string :=
  match field with
  | Some EmptyString => None
  | _ => field
  end.

(** The order the kill-chain table gives a short name: the value of the
    table's entry for that name, and none for a name the table has no
    entry for. (The lookup of the code, [order_in], goes on to what the
    table object inherits.) *)
Definition canonical_order (shortName : string) : option Z :=
  JsMap.get shortName ENTERPRISE_TACTIC_ORDER.

(** One order is a number not above the other, a number too. *)
Definition order_le (a b : Tactic.Order) : Prop :=
  match a, b with
  | Tactic.Number x, Tactic.Number y => (x <= y)%Z
  | _, _ => False
  end.

(** The tactic has the number [n] as its order. *)
Definition has_order (n : Z) (x : Tactic.t) : bool :=
  match Tactic.order x with
  | Tactic.Number m => (m =? n)%Z
  | Tactic.NotANumber _ => false
  end.

(** The number of a numeric order. *)
Definition rank (x : Tactic.t) : Z :=
  match Tactic.order x with
  | Tactic.Number n => n
  | Tactic.NotANumber _ => 0%Z
  end.

(** The short name of the tactic is no property name that the order
    table inherits. *)
Definition plainly_named (x : Tactic.t) : Prop :=
  JsObject.inherits (Tactic.shortName x) = false.

(** [a] stands strictly before [b] in [l]. *)
Definition strictly_before (A : Type) (l : list A) (a b : A) : Prop :=
  forall i j, nth_error l i = Some a -> nth_error l j = Some b -> (i < j)%nat.

(* ================================================================= *)
(** ** Sample data *)

Module Sample.

Definition mitre_ref (external_id : string) : list StixExternalReference :=
  [ {| source_name := "mitre-attack";
       external_id := Some external_id;
       url := None |} ].

(** A named object of [type] with an ATT&CK ID and an optional
    [x_mitre_deprecated]. *)
Definition entity (type id name external_id : string)
  (deprecated : option bool) : Stix.Object :=
  {| Stix.id := id;
     Stix.type := type;
     Stix.name := Some name;
     Stix.description := Some (name ++ ".")%string;
     Stix.external_references := Some (mitre_ref external_id);
     Stix.x_mitre_deprecated := deprecated;
     Stix.revoked := None;
     Stix.kill_chain_phases := None;
     Stix.x_mitre_platforms := None;
     Stix.x_mitre_data_sources := None;
     Stix.x_mitre_detection := None;
     Stix.x_mitre_is_subtechnique := None;
     Stix.x_mitre_shortname := None;
     Stix.aliases := None;
     Stix.x_mitre_data_source_ref := None;
     Stix.relationship_type := "";
     Stix.source_ref := "";
     Stix.target_ref := "" |}.

Definition attack_pattern (id name : string)
  (refs : option (list StixExternalReference)) (phase : string)
  (platforms : list string) (is_subtechnique : option bool) : Stix.Object :=
  {| Stix.id := id;
     Stix.type := "attack-pattern";
     Stix.name := Some name;
     Stix.description := Some (name ++ ".")%string;
     Stix.external_references := refs;
     Stix.x_mitre_deprecated := None;
     Stix.revoked := None;
     Stix.kill_chain_phases :=
       Some [ {| kill_chain_name := "mitre-attack"; phase_name := phase |} ];
     Stix.x_mitre_platforms := Some platforms;
     Stix.x_mitre_data_sources := None;
     Stix.x_mitre_detection := None;
     Stix.x_mitre_is_subtechnique := is_subtechnique;
     Stix.x_mitre_shortname := None;
     Stix.aliases := None;
     Stix.x_mitre_data_source_ref := None;
     Stix.relationship_type := "";
     Stix.source_ref := "";
     Stix.target_ref := "" |}.

Definition tactic (id name shortname external_id : string) : Stix.Object :=
  {| Stix.id := id;
     Stix.type := "x-mitre-tactic";
     Stix.name := Some name;
     Stix.description := None;
     Stix.external_references := Some (mitre_ref external_id);
     Stix.x_mitre_deprecated := None;
     Stix.revoked := None;
     Stix.kill_chain_phases := None;
     Stix.x_mitre_platforms := None;
     Stix.x_mitre_data_sources := None;
     Stix.x_mitre_detection := None;
     Stix.x_mitre_is_subtechnique := None;
     Stix.x_mitre_shortname := Some shortname;
     Stix.aliases := None;
     Stix.x_mitre_data_source_ref := None;
     Stix.relationship_type := "";
     Stix.source_ref := "";
     Stix.target_ref := "" |}.

Definition relationship (id relationship_type source_ref target_ref : string)
  : Stix.Object :=
  {| Stix.id := id;
     Stix.type := "relationship";
     Stix.name := None;
     Stix.description := None;
     Stix.external_references := None;
     Stix.x_mitre_deprecated := None;
     Stix.revoked := None;
     Stix.kill_chain_phases := None;
     Stix.x_mitre_platforms := None;
     Stix.x_mitre_data_sources := None;
     Stix.x_mitre_detection := None;
     Stix.x_mitre_is_subtechnique := None;
     Stix.x_mitre_shortname := None;
     Stix.aliases := None;
     Stix.x_mitre_data_source_ref := None;
     Stix.relationship_type := relationship_type;
     Stix.source_ref := source_ref;
     Stix.target_ref := target_ref |}.

Definition t1059 : Stix.Object :=
  attack_pattern "attack-pattern--t1059" "Command and Scripting Interpreter"
                 (Some (mitre_ref "T1059")) "execution"
                 ["Windows"; "Linux"] (Some false).

Definition t1059_001 : Stix.Object :=
  attack_pattern "attack-pattern--t1059001" "PowerShell"
                 (Some (mitre_ref "T1059.001")) "execution"
                 ["Windows"] (Some true).

Definition t1566 : Stix.Object :=
  attack_pattern "attack-pattern--t1566" "Phishing"
                 (Some (mitre_ref "T1566")) "initial-access"
                 ["Windows"; "Cloud"] None.

Definition apt28 : Stix.Object :=
  entity "intrusion-set" "intrusion-set--apt28" "APT28" "G0007" None.

Definition mimikatz : Stix.Object :=
  entity "malware" "malware--mimikatz" "Mimikatz" "S0002" None.

(** A software entry that ATT&CK has deprecated. *)
Definition oldrat : Stix.Object :=
  entity "malware" "malware--oldrat" "OldRat" "S9999" (Some true).

Definition m1038 : Stix.Object :=
  entity "course-of-action" "course-of-action--m1038" "Execution Prevention"
         "M1038" None.

(** The tactics stand in the bundle against the kill-chain order. *)
Definition bundle : StixBundle :=
  {| objects :=
       [ t1059; t1059_001; t1566;
         tactic "x-mitre-tactic--exec" "Execution" "execution" "TA0002";
         tactic "x-mitre-tactic--ia" "Initial Access" "initial-access"
                "TA0001";
         apt28; mimikatz; oldrat; m1038;
         relationship "rel--1" "uses" "intrusion-set--apt28"
                      "attack-pattern--t1059";
         relationship "rel--2" "uses" "intrusion-set--apt28"
                      "malware--mimikatz";
         relationship "rel--3" "uses" "intrusion-set--apt28"
                      "malware--oldrat";
         relationship "rel--4" "uses" "malware--mimikatz"
                      "attack-pattern--t1566";
         relationship "rel--5" "mitigates" "course-of-action--m1038"
                      "attack-pattern--t1059" ] |}.

Definition cfg : MitreConfig :=
  {| dataDir := "/tmp/mitre"; matrices := [enterprise];
     updateInterval := 86400 |}.

(** The store after [loadFromBundles] of one map with [b] in it. *)
Definition store_of (b : StixBundle) : AttackDataStore.t :=
  AttackDataStore.loadFromBundles [("enterprise", b)]
                                  (AttackDataStore.create cfg).

Definition store : AttackDataStore.t := store_of bundle.

(** Three tactics, the second with the short name "constructor". *)
Definition inherited_bundle : StixBundle :=
  {| objects :=
       [ tactic "x-mitre-tactic--exec" "Execution" "execution" "TA0002";
         tactic "x-mitre-tactic--build" "Build" "constructor" "TA9001";
         tactic "x-mitre-tactic--ia" "Initial Access" "initial-access"
                "TA0001" ] |}.

(** A technique whose ATT&CK ID is written in lower case. *)
Definition lowercase_bundle : StixBundle :=
  {| objects :=
       [ attack_pattern "attack-pattern--t1059"
                        "Command and Scripting Interpreter"
                        (Some (mitre_ref "t1059")) "execution" ["Windows"]
                        None ] |}.

(** A technique flagged as a sub-technique that carries no ATT&CK ID. *)
Definition flagged_bundle : StixBundle :=
  {| objects :=
       [ attack_pattern "attack-pattern--x" "Unnumbered" None "execution"
                        ["Windows"] (Some true) ] |}.

(** A machine without network whose cache of the enterprise matrix was
    written long ago (times in milliseconds). *)
Definition offline_world : Loader.World :=
  {| Loader.cache := fun m => match m with
                              | enterprise => Some (Loader.Parses bundle)
                              | _ => None
                              end;
     Loader.metadata := Some (Loader.Parses (Loader.At 0%Z));
     Loader.now := 1000000000000%Z;
     Loader.remote := fun _ => inr "fetch failed" |}.

(** The same machine with an empty cache directory. *)
Definition bare_world : Loader.World :=
  {| Loader.cache := fun _ => None;
     Loader.metadata := None;
     Loader.now := 1000000000000%Z;
     Loader.remote := fun _ => inr "fetch failed" |}.

End Sample.

(* ================================================================= *)
(** ** More of [AttackDataStore]: relationship helpers and statistics *)

Module Direction.
Inductive t : Type := source | target | both.
End Direction.

(** [getRelationshipsForObject(stixId, direction = "both")]. *)
Definition getRelationshipsForObject (s : AttackDataStore.t) (stixId : string)
  (direction : Direction.t) : list Relationship.t :=
  filter (fun r =>
            match direction with
            | Direction.source => Relationship.sourceRef r =? stixId
            | Direction.target => Relationship.targetRef r =? stixId
            | Direction.both =>
                (Relationship.sourceRef r =? stixId)
                || (Relationship.targetRef r =? stixId)
            end)
         (AttackDataStore.relationships s).

Module Stats.
Record t : Type := {
  techniques : nat;
  tactics : nat;
  groups : nat;
  software : nat;
  mitigations : nat;
  dataSources : nat;
  relationships : nat
}.
End Stats.

Definition getStats (s : AttackDataStore.t) : Stats.t :=
  {| Stats.techniques := List.length (AttackDataStore.getAllTechniques s false);
     Stats.tactics := List.length (AttackDataStore.getAllTactics s);
     Stats.groups := List.length (AttackDataStore.getAllGroups s false);
     Stats.software := List.length (AttackDataStore.getAllSoftware s false);
     Stats.mitigations :=
       List.length (AttackDataStore.getAllMitigations s false);
     Stats.dataSources := List.length (AttackDataStore.getAllDataSources s);
     Stats.relationships := List.length (AttackDataStore.relationships s) |}.

(** ** What the indices of a reachable store also satisfy *)

(** The keys the name index may hold an entity under. *)
Definition name_keys (V : Type) (name : V -> string)
  (aliases : V -> list string) (x : V) : list string :=
  map fst (name_ops name aliases x).

(** [parentId] as [parseTechniques] derives it. *)
Definition parent_derived (x : Technique.t) : Prop :=
  Technique.parentId x
  = if Technique.isSubtechnique x
    then Some (truncate_before "." (Technique.id x))
    else None.

Record Consistent (s : AttackDataStore.t) : Prop := {
  key_tactics : keyed_by Tactic.id (AttackDataStore.tactics s);
  key_tacticsByShortName :
    keyed_by Tactic.shortName (AttackDataStore.tacticsByShortName s);
  key_groups : keyed_by Group.id (AttackDataStore.groups s);
  key_software : keyed_by Software.id (AttackDataStore.software s);
  key_mitigations : keyed_by Mitigation.id (AttackDataStore.mitigations s);
  key_dataSources : keyed_by DataSource.id (AttackDataStore.dataSources s);
  key_groupsByName :
    Forall (fun kv => In (fst kv)
                         (name_keys Group.name Group.aliases (snd kv)))
           (AttackDataStore.groupsByName s);
  key_softwareByName :
    Forall (fun kv => In (fst kv)
                         (name_keys Software.name Software.aliases (snd kv)))
           (AttackDataStore.softwareByName s);
  key_dataSourcesByName :
    keyed_by (fun ds => Js.toLowerCase (DataSource.name ds))
             (AttackDataStore.dataSourcesByName s);
  parents_derived :
    Forall (fun kv => parent_derived (snd kv)) (AttackDataStore.techniques s);
  stix_resolvable :
    Forall (fun kv =>
              In (Technique.stixId (snd kv))
                 (JsMap.keys (AttackDataStore.techniquesByStixId s)))
           (AttackDataStore.techniques s)
}.

(** ** The writes of a load

    What indexing does to the store, as data: the [set] calls on each
    index, in order, and the entries pushed on the two lists. *)

Record Ops : Type := {
  o_techniques : list (string * Technique.t);
  o_techniquesByStixId : list (string * Technique.t);
  o_tactics : list (string * Tactic.t);
  o_tacticsByShortName : list (string * Tactic.t);
  o_groups : list (string * Group.t);
  o_groupsByStixId : list (string * Group.t);
  o_groupsByName : list (string * Group.t);
  o_software : list (string * Software.t);
  o_softwareByStixId : list (string * Software.t);
  o_softwareByName : list (string * Software.t);
  o_mitigations : list (string * Mitigation.t);
  o_mitigationsByStixId : list (string * Mitigation.t);
  o_dataSources : list (string * DataSource.t);
  o_dataSourcesByStixId : list (string * DataSource.t);
  o_dataSourcesByName : list (string * DataSource.t);
  o_dataComponents : list DataComponent.t;
  o_relationships : list Relationship.t
}.

Definition by_key (V : Type) (key : V -> string) (xs : list V)
  : list (string * V) :=
  map (fun x => (key x, x)) xs.

(** The writes of [indexBundle]. *)
Definition ops_of (bundle : StixBundle) : Ops :=
  let techs := parseTechniques bundle in
  let tacs := parseTactics bundle ENTERPRISE_TACTIC_ORDER in
  let grps := parseGroups bundle in
  let sw := parseSoftware bundle in
  let mits := parseMitigations bundle in
  let dss := parseDataSources bundle in
  {| o_techniques := by_key Technique.id techs;
     o_techniquesByStixId := by_key Technique.stixId techs;
     o_tactics := by_key Tactic.id tacs;
     o_tacticsByShortName := by_key Tactic.shortName tacs;
     o_groups := by_key Group.id grps;
     o_groupsByStixId := by_key Group.stixId grps;
     o_groupsByName := flat_map (name_ops Group.name Group.aliases) grps;
     o_software := by_key Software.id sw;
     o_softwareByStixId := by_key Software.stixId sw;
     o_softwareByName := flat_map (name_ops Software.name Software.aliases) sw;
     o_mitigations := by_key Mitigation.id mits;
     o_mitigationsByStixId := by_key Mitigation.stixId mits;
     o_dataSources := by_key DataSource.id dss;
     o_dataSourcesByStixId := by_key DataSource.stixId dss;
     o_dataSourcesByName :=
       by_key (fun ds => Js.toLowerCase (DataSource.name ds)) dss;
     o_dataComponents := parseDataComponents bundle;
     o_relationships := parseRelationships bundle |}.

Definition ops_nil : Ops :=
  {| o_techniques := []; o_techniquesByStixId := []; o_tactics := [];
     o_tacticsByShortName := []; o_groups := []; o_groupsByStixId := [];
     o_groupsByName := []; o_software := []; o_softwareByStixId := [];
     o_softwareByName := []; o_mitigations := [];
     o_mitigationsByStixId := []; o_dataSources := [];
     o_dataSourcesByStixId := []; o_dataSourcesByName := [];
     o_dataComponents := []; o_relationships := [] |}.

(** First the writes of [a], then those of [b]. *)
Definition ops_app (a b : Ops) : Ops :=
  {| o_techniques := o_techniques a ++ o_techniques b;
     o_techniquesByStixId := o_techniquesByStixId a ++ o_techniquesByStixId b;
     o_tactics := o_tactics a ++ o_tactics b;
     o_tacticsByShortName := o_tacticsByShortName a ++ o_tacticsByShortName b;
     o_groups := o_groups a ++ o_groups b;
     o_groupsByStixId := o_groupsByStixId a ++ o_groupsByStixId b;
     o_groupsByName := o_groupsByName a ++ o_groupsByName b;
     o_software := o_software a ++ o_software b;
     o_softwareByStixId := o_softwareByStixId a ++ o_softwareByStixId b;
     o_softwareByName := o_softwareByName a ++ o_softwareByName b;
     o_mitigations := o_mitigations a ++ o_mitigations b;
     o_mitigationsByStixId :=
       o_mitigationsByStixId a ++ o_mitigationsByStixId b;
     o_dataSources := o_dataSources a ++ o_dataSources b;
     o_dataSourcesByStixId :=
       o_dataSourcesByStixId a ++ o_dataSourcesByStixId b;
     o_dataSourcesByName := o_dataSourcesByName a ++ o_dataSourcesByName b;
     o_dataComponents := o_dataComponents a ++ o_dataComponents b;
     o_relationships := o_relationships a ++ o_relationships b |}.

(** The writes of a run of bundles, first to last. *)
Fixpoint ops_all (bundles : list StixBundle) : Ops :=
  match bundles with
  | [] => ops_nil
  | b :: bs => ops_app (ops_of b) (ops_all bs)
  end.

(** The store after the writes [o]. *)
Definition replay (o : Ops) (s : AttackDataStore.t) : AttackDataStore.t :=
  {| AttackDataStore.techniques :=
       JsMap.set_all (o_techniques o) (AttackDataStore.techniques s);
     AttackDataStore.techniquesByStixId :=
       JsMap.set_all (o_techniquesByStixId o)
                     (AttackDataStore.techniquesByStixId s);
     AttackDataStore.tactics :=
       JsMap.set_all (o_tactics o) (AttackDataStore.tactics s);
     AttackDataStore.tacticsByShortName :=
       JsMap.set_all (o_tacticsByShortName o)
                     (AttackDataStore.tacticsByShortName s);
     AttackDataStore.groups :=
       JsMap.set_all (o_groups o) (AttackDataStore.groups s);
     AttackDataStore.groupsByStixId :=
       JsMap.set_all (o_groupsByStixId o) (AttackDataStore.groupsByStixId s);
     AttackDataStore.groupsByName :=
       JsMap.set_all (o_groupsByName o) (AttackDataStore.groupsByName s);
     AttackDataStore.software :=
       JsMap.set_all (o_software o) (AttackDataStore.software s);
     AttackDataStore.softwareByStixId :=
       JsMap.set_all (o_softwareByStixId o)
                     (AttackDataStore.softwareByStixId s);
     AttackDataStore.softwareByName :=
       JsMap.set_all (o_softwareByName o) (AttackDataStore.softwareByName s);
     AttackDataStore.mitigations :=
       JsMap.set_all (o_mitigations o) (AttackDataStore.mitigations s);
     AttackDataStore.mitigationsByStixId :=
       JsMap.set_all (o_mitigationsByStixId o)
                     (AttackDataStore.mitigationsByStixId s);
     AttackDataStore.dataSources :=
       JsMap.set_all (o_dataSources o) (AttackDataStore.dataSources s);
     AttackDataStore.dataSourcesByStixId :=
       JsMap.set_all (o_dataSourcesByStixId o)
                     (AttackDataStore.dataSourcesByStixId s);
     AttackDataStore.dataSourcesByName :=
       JsMap.set_all (o_dataSourcesByName o)
                     (AttackDataStore.dataSourcesByName s);
     AttackDataStore.dataComponents :=
       AttackDataStore.dataComponents s ++ o_dataComponents o;
     AttackDataStore.relationships :=
       AttackDataStore.relationships s ++ o_relationships o;
     AttackDataStore.config := AttackDataStore.config s;
     AttackDataStore.loaded := AttackDataStore.loaded s |}.

(** A lookup that finds something. *)
Definition found (A : Type) (o : option A) : Prop := o <> None.

(** ** The world at a later time

    The files of [w] as they are, read at clock [t] with the network
    answering as [net] does. *)
Definition later (w : Loader.World) (t : Z)
  (net : MatrixType -> StixBundle + string) : Loader.World :=
  {| Loader.cache := Loader.cache w;
     Loader.metadata := Loader.metadata w;
     Loader.now := t;
     Loader.remote := net |}.

(** The files of [w] with the metadata file replaced. *)
Definition with_metadata (w : Loader.World)
  (meta : option (Loader.File Loader.Timestamp)) : Loader.World :=
  {| Loader.cache := Loader.cache w;
     Loader.metadata := meta;
     Loader.now := Loader.now w;
     Loader.remote := Loader.remote w |}.

(** A machine whose cache holds the sample bundle and whose metadata
    file parses but gives a [lastUpdated] that is no date, as
    [{"lastUpdated": "yesterday", "matrices": ["enterprise"]}] does; the
    network serves another bundle. *)
Definition undated_world : Loader.World :=
  {| Loader.cache := fun m => match m with
                              | enterprise => Some (Loader.Parses Sample.bundle)
                              | _ => None
                              end;
     Loader.metadata := Some (Loader.Parses Loader.InvalidDate);
     Loader.now := 1000000000000%Z;
     Loader.remote := fun _ => inl Sample.lowercase_bundle |}.

(** A machine with an empty cache directory and a network that serves
    the sample bundle for every matrix. *)
Definition online_world : Loader.World :=
  {| Loader.cache := fun _ => None;
     Loader.metadata := None;
     Loader.now := 1000000000000%Z;
     Loader.remote := fun _ => inl Sample.bundle |}.

(* ================================================================= *)
(** ** The configuration: the [matrices] of [loadConfig] *)

Module Config.

(** White space as [trim] and [\s] see it, among the ASCII characters;
    the white space JavaScript knows outside ASCII is not covered, so
    [trim] and the separator class below are the code's on ASCII
    strings. *)
Definition is_whitespace (c : ascii) : bool :=
  let n := N_of_ascii c in
  ((9 <=? n) && (n <=? 13) || (n =? 32))%N.

Fixpoint trimStart (s : string) : string :=
  match s with
  | EmptyString => EmptyString
  | String c s' => if is_whitespace c then trimStart s' else s
  end.

Fixpoint trimEnd (s : string) : string :=
  match s with
  | EmptyString => EmptyString
  | String c s' =>
      match trimEnd s' with
      | EmptyString => if is_whitespace c then EmptyString
                       else String c EmptyString
      | rest => String c rest
      end
  end.

(** [s.trim()]. *)
Definition trim (s : string) : string := trimEnd (trimStart s).

Definition VALID_MATRICES : list string := ["enterprise"; "mobile"; "ics"].

(** The cast [as MatrixType[]] on a name that passed [VALID_MATRICES]. *)
Definition matrix_of_name (name : string) : option MatrixType :=
  if name =? "enterprise" then Some enterprise
  else if name =? "mobile" then Some mobile
  else if name =? "ics" then Some ics
  else None.

(** The [matrices] field of the result of [loadConfig], from the value
    of the environment variable MITRE_MATRICES. *)
Definition loadConfig_matrices (MITRE_MATRICES : option string)
  : list MatrixType :=
  let matricesRaw := Js.or_default MITRE_MATRICES "enterprise" in
  let names :=
    filter (set_has VALID_MATRICES)
           (map (fun m => Js.toLowerCase (trim m)) (Js.split "," matricesRaw)) in
  let matrices := filter_null (map matrix_of_name names) in
  match matrices with
  | [] => [enterprise]
  | _ => matrices
  end.

(** An item of MITRE_MATRICES names the matrix [m]: trimmed and
    lower-cased it is the name of [m]. *)
Definition names_matrix (item : string) (m : MatrixType) : Prop :=
  Js.toLowerCase (trim item) = Loader.matrix_name m.

(** [ms] are the matrices that [items] name, item by item: in the order
    of the items, one for each item that names a matrix and none for an
    item that names none. *)
Inductive named_in_order : list string -> list MatrixType -> Prop :=
| named_nil : named_in_order [] []
| named_item (item : string) (items : list string) (m : MatrixType)
    (ms : list MatrixType) :
    names_matrix item m -> named_in_order items ms ->
    named_in_order (item :: items) (m :: ms)
| named_skip (item : string) (items : list string) (ms : list MatrixType) :
    (forall m, ~ names_matrix item m) -> named_in_order items ms ->
    named_in_order (item :: items) ms.

End Config.

(* ================================================================= *)
(** ** The alert mapping tool: [extractKeywords] and the scored list *)

Module Mapping.

(** The punctuation of the separator class of [extractKeywords]; the
    double quote, which the class holds too, is given by its code. *)
Definition punctuation : list ascii :=
  list_ascii_of_string ",;:!?()[]{}'/\|@#$%^&*+=<>~`"
  ++ [ascii_of_nat 34].

Definition is_separator (c : ascii) : bool :=
  Config.is_whitespace c || existsb (Ascii.eqb c) punctuation.

(** [text.split(/[...]+/)]: the pieces between runs of separators;
    [in_run] says that the character before was a separator. A text that
    starts or ends with a separator has an empty first or last piece. *)
Fixpoint split_runs (in_run : bool) (text : string) : list string :=
  match text with
  | EmptyString => [EmptyString]
  | String c text' =>
      if is_separator c then
        if in_run then split_runs true text'
        else EmptyString :: split_runs true text'
      else
        match split_runs false text' with
        | [] => [String c EmptyString]
        | piece :: pieces => String c piece :: pieces
        end
  end.

Definition stop_words : list string :=
  ["the"; "and"; "for"; "was"; "with"; "from"; "that"; "this"; "are"; "has";
   "have"; "not"; "but"; "can"].

(** [[...new Set(words)]]: the first occurrence of each word, in order. *)
Fixpoint unique (seen words : list string) : list string :=
  match words with
  | [] => []
  | w :: words' =>
      if set_has seen w then unique seen words'
      else w :: unique (w :: seen) words'
  end.

(** [extractKeywords] for an ASCII alert type and ASCII indicators: on
    these the length of a word is its number of characters and the
    separator class is the one of the regular expression. *)
Definition extractKeywords (alertType : string) (indicators : list string)
  : list string :=
  let text := Js.toLowerCase (String.concat " " (alertType :: indicators)) in
  let words :=
    filter (fun w => negb (set_has stop_words w))
           (filter (fun w => (2 <? String.length w)%nat)
                   (split_runs false text)) in
  unique [] words.

Definition quote : string := String (ascii_of_nat 34) EmptyString.

(** One of the three keyword loops: every keyword the field contains
    adds [weight] to the score and a reason to the list. The reason is
    [label] followed by the quoted keyword. *)
Definition tally (weight : Z) (label field : string) (keywords : list string)
  (acc : Z * list string) : Z * list string :=
  fold_left
    (fun (a : Z * list string) kw =>
       if Js.includes (Js.toLowerCase field) kw
       then ((fst a + weight)%Z,
             snd a ++ [(label ++ quote ++ kw ++ quote)%string])
       else a)
    keywords acc.

Record Scored : Type := {
  technique : Technique.t;
  score : Z;
  reasons : list string
}.

(** The body of the [map] over all techniques. *)
Definition score_technique (keywords : list string) (platform : option string)
  (t : Technique.t) : Scored :=
  let a := (0%Z, @nil string) in
  let a := tally 3 "Name matches " (Technique.name t) keywords a in
  let a := tally 1 "Description mentions " (Technique.description t)
                 keywords a in
  let a := tally 2 "Detection guidance mentions " (Technique.detection t)
                 keywords a in
  let a :=
    match platform with
    | Some p =>
        if Js.truthy p
           && existsb (fun p' => Js.toLowerCase p' =? Js.toLowerCase p)
                      (Technique.platforms t)
        then ((fst a + 1)%Z, snd a ++ [("Platform match: " ++ p)%string])
        else a
    | None => a
    end in
  {| technique := t; score := fst a; reasons := snd a |}.

(** The list [scored] of the handler of "mitre_map_alert_to_technique":
    the techniques of the default listing with a positive score, by
    descending score, at most fifteen. *)
Definition scored (s : AttackDataStore.t) (alertType : string)
  (indicators : option (list string)) (platform : option string)
  : list Scored :=
  let keywords := extractKeywords alertType (Js.or_nil indicators) in
  let allTechniques := AttackDataStore.getAllTechniques s false in
  firstn 15
    (Js.sort (fun a b => (score b - score a)%Z)
       (filter (fun r => (0 <? score r)%Z)
               (map (score_technique keywords platform) allTechniques))).

(** The number of keywords a field contains, letter case ignored. *)
Definition hits (keywords : list string) (field : string) : Z :=
  Z.of_nat
    (List.length
       (filter (fun kw => Js.includes (Js.toLowerCase field) kw) keywords)).

(** One for a technique that lists the requested platform. *)
Definition platform_bonus (platform : option string) (t : Technique.t) : Z :=
  match platform with
  | Some p =>
      if Js.truthy p
         && existsb (fun p' => Js.toLowerCase p' =? Js.toLowerCase p)
                    (Technique.platforms t)
      then 1%Z else 0%Z
  | None => 0%Z
  end.

(** No character of [s] is a separator. *)
Definition separator_free (s : string) : Prop :=
  Forall (fun c => is_separator c = false) (list_ascii_of_string s).

End Mapping.

(* ================================================================= *)
(** ** The detection coverage tool *)

Module Coverage.

(** The list [detectableTechniques] of the handler of
    "mitre_detection_coverage"; a [Set] is the list of what was added. *)
Definition detectableTechniques (s : AttackDataStore.t)
  (availableDataSources : list string) : list Technique.t :=
  let allTechniques := AttackDataStore.getAllTechniques s false in
  let allDataSources := AttackDataStore.getAllDataSources s in
  let allComponents := AttackDataStore.getDataComponents s in
  let availableNames := map Js.toLowerCase availableDataSources in
  let availableDsStixIds :=
    map DataSource.stixId
        (filter (fun ds =>
                   set_has availableNames (Js.toLowerCase (DataSource.name ds)))
                allDataSources) in
  let availableComponentIds :=
    map DataComponent.stixId
        (filter (fun dc =>
                   set_has availableDsStixIds (DataComponent.dataSourceId dc))
                allComponents) in
  let detectableTechStixIds :=
    map Relationship.targetRef
        (filter (fun rel =>
                   (Relationship.relationshipType rel =? "detects")
                   && set_has availableComponentIds
                              (Relationship.sourceRef rel))
                (AttackDataStore.getRelationships s)) in
  filter (fun t => set_has detectableTechStixIds (Technique.stixId t))
         allTechniques.

Record TacticGap : Type := {
  tactic : string;
  coveredCount : nat;
  totalCount : nat;
  gaps : list string
}.

(** The list [gapsByTactic] of the same handler. *)
Definition gapsByTactic (s : AttackDataStore.t)
  (availableDataSources : list string) : list TacticGap :=
  let detectableIds :=
    map Technique.id (detectableTechniques s availableDataSources) in
  map (fun tac =>
         let tacticTechs :=
           AttackDataStore.getTechniquesForTactic s (Tactic.shortName tac) in
         let covered :=
           filter (fun t => set_has detectableIds (Technique.id t))
                  tacticTechs in
         let gaps :=
           map (fun t => (Technique.id t ++ " - " ++ Technique.name t)%string)
               (filter (fun t => negb (set_has detectableIds (Technique.id t)))
                       tacticTechs) in
         {| tactic := Tactic.name tac;
            coveredCount := List.length covered;
            totalCount := List.length tacticTechs;
            gaps := firstn 10 gaps |})
      (AttackDataStore.getAllTactics s).

End Coverage.

(** A bundle with a data source, one of its components and a "detects"
    edge from the component to a technique. *)
Definition detection_bundle : StixBundle :=
  {| objects :=
       [ Sample.t1059;
         Sample.tactic "x-mitre-tactic--exec" "Execution" "execution" "TA0002";
         Sample.entity "x-mitre-data-source" "x-mitre-data-source--process"
                       "Process" "DS0009" None;
         {| Stix.id := "x-mitre-data-component--proc-creation";
            Stix.type := "x-mitre-data-component";
            Stix.name := Some "Process Creation";
            Stix.description := None;
            Stix.external_references := None;
            Stix.x_mitre_deprecated := None;
            Stix.revoked := None;
            Stix.kill_chain_phases := None;
            Stix.x_mitre_platforms := None;
            Stix.x_mitre_data_sources := None;
            Stix.x_mitre_detection := None;
            Stix.x_mitre_is_subtechnique := None;
            Stix.x_mitre_shortname := None;
            Stix.aliases := None;
            Stix.x_mitre_data_source_ref :=
              Some "x-mitre-data-source--process";
            Stix.relationship_type := "";
            Stix.source_ref := "";
            Stix.target_ref := "" |};
         Sample.relationship "rel--8" "detects"
                             "x-mitre-data-component--proc-creation"
                             "attack-pattern--t1059" ] |}.

(* ================================================================= *)
(** * Properties *)

Example sample_techniques :
  map Technique.id (AttackDataStore.getAllTechniques Sample.store false)
  = ["T1059"; "T1059.001"; "T1566"].
Proof. reflexivity. Qed.

Example sample_tactics :
  map Tactic.shortName (AttackDataStore.getAllTactics Sample.store)
  = ["initial-access"; "execution"].
Proof. reflexivity. Qed.

Example sample_group_software :
  map Software.name
      (AttackDataStore.getGroupSoftware Sample.store "intrusion-set--apt28")
  = ["Mimikatz"; "OldRat"].
Proof. reflexivity. Qed.

(* ================================================================= *)
(** ** Strings *)

Section StringFacts.

Lemma prefix_app (a s : string) :
  String.prefix a s = true <-> exists rest, s = (a ++ rest)%string.
Proof.
  revert s; induction a as [|c a IH]; intros s.
  - destruct s; simpl; split; eauto.
  - destruct s as [|d s]; simpl.
    + split; [discriminate | intros [rest H]; discriminate].
    + destruct (ascii_dec c d) as [->|Hcd].
      * rewrite IH. split; intros [rest H]; exists rest; congruence.
      * split; [discriminate | intros [rest H]; congruence].
Qed.

Lemma includes_occurs (s sub : string) :
  Js.includes s sub = true <-> occurs_in sub s.
Proof.
  unfold occurs_in. induction s as [|c s IH].
  - cbn [Js.includes]. rewrite orb_false_r, prefix_app. split.
    + intros [rest H]. exists ""%string, rest. exact H.
    + intros [before [after H]]. destruct before; [eauto | discriminate].
  - cbn [Js.includes]. rewrite orb_true_iff, prefix_app, IH. split.
    + intros [[rest H] | [before [after H]]].
      * exists ""%string, rest. exact H.
      * exists (String c before), after. simpl. now rewrite H.
    + intros [before [after H]]. destruct before as [|d before].
      * left. eauto.
      * right. simpl in H. injection H as _ H. eauto.
Qed.

Lemma split_not_nil (c : ascii) (s : string) : Js.split c s <> [].
Proof.
  destruct s as [|a s]; simpl; [discriminate|].
  destruct (Ascii.eqb a c); [discriminate|].
  destruct (Js.split c s); discriminate.
Qed.

Lemma split_head (c : ascii) (s : string) :
  hd ""%string (Js.split c s) = truncate_before c s.
Proof.
  induction s as [|a s IH]; simpl; [reflexivity|].
  destruct (Ascii.eqb a c); [reflexivity|].
  destruct (Js.split c s) as [|p ps] eqn:E.
  - now apply split_not_nil in E.
  - simpl in *. now rewrite IH.
Qed.

(** The cut is empty exactly for the empty ID and for an ID that starts
    with the separator. *)
Lemma truncate_before_empty (c : ascii) (s : string) :
  truncate_before c s = ""%string <->
  s = ""%string \/ exists rest, s = String c rest.
Proof.
  destruct s as [|a s]; simpl.
  - split; auto.
  - destruct (Ascii.eqb_spec a c) as [->|Hac].
    + split; eauto.
    + split; [discriminate|].
      intros [H | [rest H]]; [discriminate | congruence].
Qed.

Lemma upper_lower_ascii (c : ascii) :
  Js.upper_ascii (Js.lower_ascii c) = Js.upper_ascii c.
Proof.
  destruct c as [[] [] [] [] [] [] [] []]; reflexivity.
Qed.

Lemma lower_upper_ascii (c : ascii) :
  Js.lower_ascii (Js.upper_ascii c) = Js.lower_ascii c.
Proof.
  destruct c as [[] [] [] [] [] [] [] []]; reflexivity.
Qed.

(** On ASCII strings, equal after lower-casing and equal after
    upper-casing are one relation. *)
Lemma same_case_ascii (a b : string) :
  Js.ascii_only a -> Js.ascii_only b ->
  (same_ignoring_case a b <-> same_upper_case a b).
Proof.
  intros _ _. unfold same_ignoring_case, same_upper_case.
  assert (Hup : forall s, Js.toUpperCase (Js.toLowerCase s) = Js.toUpperCase s).
  { induction s as [|c s IH]; [reflexivity|].
    unfold Js.toUpperCase, Js.toLowerCase in *. simpl.
    now rewrite upper_lower_ascii, IH. }
  assert (Hlow : forall s, Js.toLowerCase (Js.toUpperCase s) = Js.toLowerCase s).
  { induction s as [|c s IH]; [reflexivity|].
    unfold Js.toUpperCase, Js.toLowerCase in *. simpl.
    now rewrite lower_upper_ascii, IH. }
  split; intros H.
  - rewrite <- (Hup a), <- (Hup b). now rewrite H.
  - rewrite <- (Hlow a), <- (Hlow b). now rewrite H.
Qed.

Lemma truthy_true (s : string) : Js.truthy s = true <-> s <> ""%string.
Proof.
  unfold Js.truthy. rewrite negb_true_iff. apply String.eqb_neq.
Qed.

Lemma truthy_false (s : string) : Js.truthy s = false <-> s = ""%string.
Proof.
  unfold Js.truthy. rewrite negb_false_iff. apply String.eqb_eq.
Qed.

End StringFacts.

(* ================================================================= *)
(** ** Lists *)

Section ListFacts.

Variables A B : Type.

Lemma in_filter_null (l : list (option A)) (x : A) :
  In x (filter_null l) <-> In (Some x) l.
Proof.
  induction l as [|[y|] l IH]; simpl.
  - tauto.
  - rewrite IH. split; intros [H|H]; auto; left; congruence.
  - rewrite IH. split; [auto | intros [H|H]; [discriminate | auto]].
Qed.

(** The shape every join of the store has: keep the edges [p] selects,
    resolve each with [f], drop the ones that do not resolve. *)
Lemma in_join (p : B -> bool) (f : B -> option A) (l : list B) (x : A) :
  In x (filter_null (map f (filter p l))) <->
  exists r, In r l /\ p r = true /\ f r = Some x.
Proof.
  rewrite in_filter_null, in_map_iff. split.
  - intros [r [Hf Hin]]. apply filter_In in Hin. exists r. tauto.
  - intros [r [Hin [Hp Hf]]]. exists r. split; [exact Hf|].
    apply filter_In. tauto.
Qed.


(** Two joins over lists with the same edges have the same entries. *)
Lemma same_set_join (p : B -> bool) (f : B -> option A) (l1 l2 : list B) :
  (forall r, In r l1 <-> In r l2) ->
  same_set (filter_null (map f (filter p l1)))
           (filter_null (map f (filter p l2))).
Proof.
  intros H x. rewrite !in_join.
  split; intros [r [Hin Hr]]; exists r; (split; [now apply H | exact Hr]).
Qed.

End ListFacts.

(* ================================================================= *)
(** ** Maps in insertion order *)

Section MapFacts.

Variable V : Type.
Implicit Types (m : JsMap.t V) (k : string) (v : V).

Lemma get_set_same m k v : JsMap.get k (JsMap.set k v m) = Some v.
Proof.
  induction m as [|[k' v'] m IH]; simpl.
  - now rewrite String.eqb_refl.
  - destruct (k' =? k)%string eqn:E; simpl; rewrite E; auto.
Qed.

Lemma get_set_other m k k' v :
  k <> k' -> JsMap.get k' (JsMap.set k v m) = JsMap.get k' m.
Proof.
  intros Hne. induction m as [|[k0 v0] m IH]; simpl.
  - apply String.eqb_neq in Hne. now rewrite Hne.
  - destruct (String.eqb_spec k0 k) as [->|Hk]; simpl.
    + apply String.eqb_neq in Hne. now rewrite Hne.
    + now rewrite IH.
Qed.

Lemma get_none_iff m k : JsMap.get k m = None <-> ~ In k (JsMap.keys m).
Proof.
  induction m as [|[k' v'] m IH]; simpl.
  - tauto.
  - destruct (String.eqb_spec k' k) as [->|Hne].
    + split; [discriminate | intros H; exfalso; auto].
    + rewrite IH. split; [intros H [H'|H']; auto | auto].
Qed.

Lemma get_in m k v : JsMap.get k m = Some v -> In (k, v) m.
Proof.
  induction m as [|[k' v'] m IH]; simpl; [discriminate|].
  destruct (String.eqb_spec k' k) as [->|Hne].
  - intros [= ->]. now left.
  - auto.
Qed.

Lemma in_get m k v :
  distinct_keys m -> In (k, v) m -> JsMap.get k m = Some v.
Proof.
  unfold distinct_keys. induction m as [|[k' v'] m IH]; simpl; [tauto|].
  intros Hnd [H|H].
  - injection H as -> ->. now rewrite String.eqb_refl.
  - inversion Hnd as [|? ? Hnotin Hnd']; subst.
    destruct (String.eqb_spec k' k) as [->|Hne].
    + exfalso. apply Hnotin. unfold JsMap.keys.
      apply in_map_iff. now exists (k, v).
    + auto.
Qed.

Lemma keys_set_present m k v :
  In k (JsMap.keys m) -> JsMap.keys (JsMap.set k v m) = JsMap.keys m.
Proof.
  induction m as [|[k' v'] m IH]; simpl; [tauto|].
  destruct (String.eqb_spec k' k) as [->|Hne]; simpl.
  - reflexivity.
  - intros [H|H]; [congruence | now rewrite IH].
Qed.

Lemma keys_set_absent m k v :
  ~ In k (JsMap.keys m) -> JsMap.keys (JsMap.set k v m) = JsMap.keys m ++ [k].
Proof.
  induction m as [|[k' v'] m IH]; simpl; [reflexivity|].
  destruct (String.eqb_spec k' k) as [->|Hne]; simpl.
  - intros H. exfalso. auto.
  - intros H. rewrite IH; auto.
Qed.

Lemma keys_set_in m k v : In k (JsMap.keys (JsMap.set k v m)).
Proof.
  destruct (in_dec string_dec k (JsMap.keys (JsMap.set k v m))) as [H|H].
  - exact H.
  - apply get_none_iff in H. rewrite get_set_same in H. discriminate.
Qed.

Lemma keys_set_mono m k k' v :
  In k' (JsMap.keys m) -> In k' (JsMap.keys (JsMap.set k v m)).
Proof.
  intros H. destruct (in_dec string_dec k (JsMap.keys m)) as [Hin|Hout].
  - now rewrite keys_set_present.
  - rewrite keys_set_absent by assumption. apply in_app_iff. now left.
Qed.

Lemma distinct_keys_set m k v :
  distinct_keys m -> distinct_keys (JsMap.set k v m).
Proof.
  unfold distinct_keys. intros Hnd.
  destruct (in_dec string_dec k (JsMap.keys m)) as [Hin|Hout].
  - now rewrite keys_set_present.
  - rewrite keys_set_absent by assumption.
    apply NoDup_app; [assumption | repeat constructor; simpl; tauto |].
    intros x Hx [<-|[]]. contradiction.
Qed.

Lemma distinct_keys_set_all (ops : list (string * V)) m :
  distinct_keys m -> distinct_keys (JsMap.set_all ops m).
Proof.
  revert m. induction ops as [|[k v] ops IH]; intros m H; simpl; [exact H|].
  apply IH. now apply distinct_keys_set.
Qed.

(** An entry of [set k v m] is the new one or an entry of [m]. *)
Lemma in_set m k v (e : string * V) :
  In e (JsMap.set k v m) -> e = (k, v) \/ In e m.
Proof.
  induction m as [|[k' v'] m IH]; simpl.
  - intros [H|[]]; auto.
  - destruct (String.eqb_spec k' k) as [->|Hne]; simpl.
    + intros [H|H]; auto.
    + intros [H|H]; auto. apply IH in H. tauto.
Qed.

Lemma Forall_set (P : string * V -> Prop) m k v :
  Forall P m -> P (k, v) -> Forall P (JsMap.set k v m).
Proof.
  rewrite !Forall_forall. intros Hm Hkv e He.
  apply in_set in He. destruct He as [->|He]; auto.
Qed.

Lemma Forall_set_all (P : string * V -> Prop) (ops : list (string * V)) m :
  Forall P m -> Forall P ops -> Forall P (JsMap.set_all ops m).
Proof.
  revert m. induction ops as [|[k v] ops IH]; intros m Hm Hops; simpl.
  - exact Hm.
  - inversion Hops; subst. apply IH; [apply Forall_set|]; assumption.
Qed.

Lemma get_set_all (ops : list (string * V)) m k :
  JsMap.get k (JsMap.set_all ops m) =
  match last_set ops k with
  | Some v => Some v
  | None => JsMap.get k m
  end.
Proof.
  revert m. induction ops as [|[k' v] ops IH]; intros m; simpl.
  - reflexivity.
  - unfold JsMap.set_all in *. simpl. rewrite IH.
    destruct (last_set ops k); [reflexivity|].
    destruct (String.eqb_spec k' k) as [->|Hne].
    + apply get_set_same.
    + now apply get_set_other.
Qed.

Lemma keys_set_all_mono (ops : list (string * V)) m k :
  In k (JsMap.keys m) -> In k (JsMap.keys (JsMap.set_all ops m)).
Proof.
  revert m. induction ops as [|[k' v] ops IH]; intros m H; simpl.
  - exact H.
  - apply IH. now apply keys_set_mono.
Qed.

Lemma keys_of_ops (ops : list (string * V)) m k :
  In k (map fst ops) -> In k (JsMap.keys (JsMap.set_all ops m)).
Proof.
  revert m. induction ops as [|[k' v] ops IH]; intros m; simpl; [tauto|].
  intros [->|H].
  - apply keys_set_all_mono, keys_set_in.
  - now apply IH.
Qed.

Lemma keys_set_all_present (ops : list (string * V)) m :
  (forall k, In k (map fst ops) -> In k (JsMap.keys m)) ->
  JsMap.keys (JsMap.set_all ops m) = JsMap.keys m.
Proof.
  revert m. induction ops as [|[k v] ops IH]; intros m H; simpl.
  - reflexivity.
  - unfold JsMap.set_all in *. simpl. rewrite IH.
    + apply keys_set_present. apply H. now left.
    + intros k' Hk'. apply keys_set_mono. apply H. now right.
Qed.

(** Two maps with the same keys in the same order and the same value
    under every key are the same map. *)
Lemma map_ext m1 m2 :
  distinct_keys m1 ->
  JsMap.keys m1 = JsMap.keys m2 ->
  (forall k, JsMap.get k m1 = JsMap.get k m2) ->
  m1 = m2.
Proof.
  unfold distinct_keys. revert m2.
  induction m1 as [|[k1 v1] m1 IH]; intros [|[k2 v2] m2]; simpl;
    try discriminate; [reflexivity|].
  intros Hnd [= <- Hkeys] Hget.
  inversion Hnd as [|? ? Hnotin Hnd']; subst.
  pose proof (Hget k1) as H1. rewrite String.eqb_refl in H1.
  injection H1 as <-. f_equal. apply IH; auto.
  intros k. specialize (Hget k).
  destruct (String.eqb_spec k1 k) as [->|Hne]; [|exact Hget].
  assert (JsMap.get k m1 = None) as -> by now apply get_none_iff.
  symmetry. apply get_none_iff. now rewrite <- Hkeys.
Qed.

(** Replaying a run of [set] calls changes nothing. *)
Lemma set_all_twice (ops : list (string * V)) m :
  distinct_keys m ->
  JsMap.set_all ops (JsMap.set_all ops m) = JsMap.set_all ops m.
Proof.
  intros Hnd. apply map_ext.
  - now apply distinct_keys_set_all, distinct_keys_set_all.
  - apply keys_set_all_present. intros k. apply keys_of_ops.
  - intros k. rewrite !get_set_all. now destruct (last_set ops k).
Qed.

Lemma set_each_as_set_all (key : V -> string) (xs : list V) m :
  JsMap.set_each key xs m = JsMap.set_all (map (fun x => (key x, x)) xs) m.
Proof.
  revert m. induction xs as [|x xs IH]; intros m; [reflexivity|].
  unfold JsMap.set_each, JsMap.set_all in *. simpl. apply IH.
Qed.

Lemma set_all_app (ops1 ops2 : list (string * V)) m :
  JsMap.set_all (ops1 ++ ops2) m = JsMap.set_all ops2 (JsMap.set_all ops1 m).
Proof. unfold JsMap.set_all. apply fold_left_app. Qed.

Lemma set_names_as_set_all (name : V -> string) (aliases : V -> list string)
  (xs : list V) m :
  AttackDataStore.set_names name aliases xs m =
  JsMap.set_all (flat_map (name_ops name aliases) xs) m.
Proof.
  revert m. induction xs as [|x xs IH]; intros m; [reflexivity|].
  change (flat_map (name_ops name aliases) (x :: xs))
    with (name_ops name aliases x ++ flat_map (name_ops name aliases) xs).
  rewrite set_all_app. unfold AttackDataStore.set_names in *.
  cbn [fold_left]. rewrite IH. f_equal.
  unfold name_ops, JsMap.set_all. cbn [fold_left fst snd].
  generalize (JsMap.set (Js.toLowerCase (name x)) x m) as m0.
  induction (aliases x) as [|a al IHa]; intros m0; [reflexivity|].
  cbn [map fold_left fst snd]. apply IHa.
Qed.

End MapFacts.

(* ================================================================= *)
(** ** Sorting *)

Section SortAny.

Variable A : Type.
Variable cmp : A -> A -> Z.

Lemma in_insert_any (x y : A) (l : list A) :
  In y (Js.insert_sorted cmp x l) <-> y = x \/ In y l.
Proof.
  induction l as [|z l IH]; simpl.
  - intuition.
  - destruct (cmp x z <=? 0)%Z; simpl; [intuition|].
    rewrite IH. intuition.
Qed.

(** Whatever the comparator, the sort keeps the elements. *)
Lemma in_sort_any (y : A) (l : list A) : In y (Js.sort cmp l) <-> In y l.
Proof.
  induction l as [|x l IH]; simpl; [tauto|].
  rewrite in_insert_any, IH. intuition.
Qed.

Lemma insert_any_perm (x : A) (l : list A) :
  Permutation (Js.insert_sorted cmp x l) (x :: l).
Proof.
  induction l as [|y l IH]; simpl; [reflexivity|].
  destruct (cmp x y <=? 0)%Z; [reflexivity|].
  rewrite IH. apply perm_swap.
Qed.

Lemma sort_any_perm (l : list A) : Permutation (Js.sort cmp l) l.
Proof.
  induction l as [|x l IH]; simpl; [reflexivity|].
  rewrite insert_any_perm. now constructor.
Qed.

End SortAny.

(** The sort looks at the comparator on the elements of the list only. *)
Lemma sort_ext_in (A : Type) (cmp1 cmp2 : A -> A -> Z) (l : list A) :
  (forall a b, In a l -> In b l -> cmp1 a b = cmp2 a b) ->
  Js.sort cmp1 l = Js.sort cmp2 l.
Proof.
  induction l as [|x l IH]; intros H; simpl; [reflexivity|].
  rewrite IH by (intros a b Ha Hb; apply H; now right).
  assert (Hx : forall b, In b (Js.sort cmp2 l) -> cmp1 x b = cmp2 x b).
  { intros b Hb. apply in_sort_any in Hb. apply H; [now left | now right]. }
  revert Hx. generalize (Js.sort cmp2 l) as l'.
  induction l' as [|y l' IH']; intros Hx; simpl; [reflexivity|].
  rewrite (Hx y) by now left.
  destruct (cmp2 x y <=? 0)%Z; [reflexivity|].
  f_equal. apply IH'. intros b Hb. apply Hx. now right.
Qed.

Section SortFacts.

Variable A : Type.
Variable key : A -> Z.

Let cmp (a b : A) : Z := (key a - key b)%Z.
Let le (a b : A) : Prop := (key a <= key b)%Z.

Lemma in_insert_sorted (x y : A) (l : list A) :
  In y (Js.insert_sorted cmp x l) <-> y = x \/ In y l.
Proof.
  induction l as [|z l IH]; simpl.
  - intuition.
  - destruct (cmp x z <=? 0)%Z; simpl; [intuition|].
    rewrite IH. intuition.
Qed.

Lemma in_sort (y : A) (l : list A) : In y (Js.sort cmp l) <-> In y l.
Proof.
  induction l as [|x l IH]; simpl; [tauto|].
  rewrite in_insert_sorted, IH. intuition.
Qed.

Lemma insert_sorted_sorted (x : A) (l : list A) :
  StronglySorted le l -> StronglySorted le (Js.insert_sorted cmp x l).
Proof.
  induction 1 as [|z l Hl IH Hz]; simpl.
  - repeat constructor.
  - destruct (cmp x z <=? 0)%Z eqn:E.
    + apply Z.leb_le in E. unfold cmp in E.
      constructor; [now constructor|].
      constructor; [unfold le; lia|].
      rewrite Forall_forall in *. intros y Hy. specialize (Hz y Hy).
      unfold le in *. lia.
    + apply Z.leb_gt in E. unfold cmp in E.
      constructor; [exact IH|].
      rewrite Forall_forall in *. intros y Hy.
      apply in_insert_sorted in Hy. destruct Hy as [->|Hy].
      * unfold le. lia.
      * now apply Hz.
Qed.

Lemma sort_sorted (l : list A) : StronglySorted le (Js.sort cmp l).
Proof.
  induction l as [|x l IH]; simpl; [constructor|].
  now apply insert_sorted_sorted.
Qed.

(** In a sorted list an earlier element is not greater than a later one. *)
Lemma sorted_nth (l : list A) (i j : nat) (a b : A) :
  StronglySorted le l -> (i < j)%nat ->
  nth_error l i = Some a -> nth_error l j = Some b -> le a b.
Proof.
  intros Hs. revert i j. induction Hs as [|z l Hl IH Hz]; intros i j Hij Ha Hb.
  - destruct i; discriminate.
  - destruct j as [|j]; [lia|]. simpl in Hb. destruct i as [|i]; simpl in Ha.
    + injection Ha as ->. rewrite Forall_forall in Hz. apply Hz.
      eapply nth_error_In; eassumption.
    + apply (IH i j); [lia | assumption | assumption].
Qed.

End SortFacts.

(* ================================================================= *)
(** ** The invariant of the indices *)

Section Invariant.

Lemma keyed_set_each (V : Type) (key : V -> string) (xs : list V)
  (m : JsMap.t V) :
  keyed_by key m -> keyed_by key (JsMap.set_each key xs m).
Proof.
  unfold keyed_by. intros H. rewrite set_each_as_set_all.
  apply Forall_set_all; [exact H|].
  apply Forall_forall. intros kv Hkv. apply in_map_iff in Hkv.
  destruct Hkv as [x [<- _]]. reflexivity.
Qed.

Lemma distinct_set_each (V : Type) (key : V -> string) (xs : list V)
  (m : JsMap.t V) :
  distinct_keys m -> distinct_keys (JsMap.set_each key xs m).
Proof.
  intros H. rewrite set_each_as_set_all. now apply distinct_keys_set_all.
Qed.

Lemma distinct_set_names (V : Type) (name : V -> string)
  (aliases : V -> list string) (xs : list V) (m : JsMap.t V) :
  distinct_keys m ->
  distinct_keys (AttackDataStore.set_names name aliases xs m).
Proof.
  intros H. rewrite set_names_as_set_all. now apply distinct_keys_set_all.
Qed.

(** The order [parseTactics] assigns under the enterprise table. *)
Lemma parseTactics_order (bundle : StixBundle) (x : Tactic.t) :
  In x (parseTactics bundle ENTERPRISE_TACTIC_ORDER) ->
  Tactic.order x = order_of (Tactic.shortName x).
Proof.
  unfold parseTactics. rewrite in_sort_any.
  rewrite in_map_iff. intros [o [<- _]]. reflexivity.
Qed.

Lemma Indexed_create (cfg : MitreConfig) :
  Indexed (AttackDataStore.create cfg).
Proof. constructor; simpl; constructor. Qed.

Lemma Indexed_indexBundle (bundle : StixBundle) (s : AttackDataStore.t) :
  Indexed s -> Indexed (AttackDataStore.indexBundle bundle s).
Proof.
  intros H. constructor; simpl;
    try (apply distinct_set_each; apply H);
    try (apply distinct_set_names; apply H);
    try (apply keyed_set_each; apply H).
  rewrite set_each_as_set_all. apply Forall_set_all; [apply H|].
  apply Forall_forall. intros kv Hkv. apply in_map_iff in Hkv.
  destruct Hkv as [x [<- Hx]]. simpl. now apply parseTactics_order in Hx.
Qed.

Lemma Indexed_indexBundles (bundles : list StixBundle) (s : AttackDataStore.t) :
  Indexed s -> Indexed (AttackDataStore.indexBundles bundles s).
Proof.
  revert s. induction bundles as [|b bs IH]; intros s H; simpl; [exact H|].
  apply IH. now apply Indexed_indexBundle.
Qed.

Lemma Indexed_set_loaded (s : AttackDataStore.t) :
  Indexed s -> Indexed (AttackDataStore.set_loaded s).
Proof. intros H. constructor; simpl; apply H. Qed.

Lemma Reachable_Indexed (s : AttackDataStore.t) : Reachable s -> Indexed s.
Proof.
  induction 1 as [cfg | bundles s _ IH].
  - apply Indexed_create.
  - apply Indexed_set_loaded, Indexed_indexBundles, IH.
Qed.

End Invariant.

(* ================================================================= *)
(** ** Joins over the relationship list *)

Section Joins.

Variable s : AttackDataStore.t.

(** The technique joins return no deprecated and no revoked technique. *)
Lemma technique_entry_live (r : Relationship.t) (x : Technique.t)
  (usage : string) :
  AttackDataStore.technique_entry s r = Some (x, usage) ->
  Technique.deprecated x = false /\ Technique.revoked x = false.
Proof.
  unfold AttackDataStore.technique_entry.
  destruct (JsMap.get _ _) as [y|]; [|discriminate].
  destruct (Technique.deprecated y) eqn:D, (Technique.revoked y) eqn:R;
    simpl; try discriminate.
  intros [= <- _]. auto.
Qed.

Lemma getGroupTechniques_live (gid : string) (x : Technique.t)
  (usage : string) :
  In (x, usage) (AttackDataStore.getGroupTechniques s gid) ->
  Technique.deprecated x = false /\ Technique.revoked x = false.
Proof.
  unfold AttackDataStore.getGroupTechniques. rewrite in_join.
  intros [r [_ [_ H]]]. eapply technique_entry_live, H.
Qed.

Lemma getMitigationsForTechnique_live (id : string) (x : Mitigation.t)
  (d : string) :
  In (x, d) (AttackDataStore.getMitigationsForTechnique s id) ->
  Mitigation.deprecated x = false /\ Mitigation.revoked x = false.
Proof.
  unfold AttackDataStore.getMitigationsForTechnique.
  destruct (JsMap.get _ _) as [tech|]; [|intros []].
  rewrite in_join. intros [r [_ [_ H]]].
  unfold AttackDataStore.mitigation_entry in H.
  destruct (JsMap.get _ _) as [y|]; [|discriminate].
  destruct (Mitigation.deprecated y) eqn:D, (Mitigation.revoked y) eqn:R;
    simpl in H; try discriminate.
  injection H as <- _. auto.
Qed.

End Joins.

(* ================================================================= *)
(** ** C1: deprecated software in a group's software *)

(** C1. Every composite query is to drop a resolved entity that is
    deprecated or revoked; the technique and mitigation joins do
    ([getGroupTechniques_live], [getMitigationsForTechnique_live]) and
    [getGroupSoftware] does not. In the sample store APT28 has a "uses"
    edge to the deprecated OldRat (S9999): [getGroupSoftware] returns
    OldRat with Mimikatz, while the default software listing holds
    Mimikatz alone. *)
Theorem C1_getGroupSoftware_returns_deprecated :
  map (fun x => (Software.id x, Software.deprecated x))
      (AttackDataStore.getGroupSoftware Sample.store "intrusion-set--apt28")
  = [("S0002", false); ("S9999", true)]
  /\ map Software.id (AttackDataStore.getAllSoftware Sample.store false)
     = ["S0002"].
Proof. split; reflexivity. Qed.

(* ================================================================= *)
(** ** C2: lookup of a technique by its public ID *)

Lemma technique_under_id (s : AttackDataStore.t) (x : Technique.t) :
  Reachable s ->
  In x (JsMap.values (AttackDataStore.techniques s)) ->
  JsMap.get (Technique.id x) (AttackDataStore.techniques s) = Some x.
Proof.
  intros Hs Hin. apply Reachable_Indexed in Hs.
  unfold JsMap.values in Hin. apply in_map_iff in Hin.
  destruct Hin as [[k v] [<- Hin]]. simpl.
  pose proof (key_techniques Hs) as Hkey. unfold keyed_by in Hkey.
  rewrite Forall_forall in Hkey. specialize (Hkey _ Hin). simpl in Hkey.
  subst k. apply in_get; [apply Hs | exact Hin].
Qed.

(** C2, as stated, fails: [indexBundle] files a technique under its ID
    as it stands and [getTechnique] looks under the upper-cased
    argument, so the technique parsed from an object with the ID "t1059"
    is in the store and is not found under its own ID. *)
Lemma C2_counterexample :
  ~ (forall x,
       In x (JsMap.values
               (AttackDataStore.techniques
                  (Sample.store_of Sample.lowercase_bundle))) ->
       AttackDataStore.getTechnique (Sample.store_of Sample.lowercase_bundle)
                                    (Technique.id x) = Some x).
Proof.
  intros H.
  assert (Hfound : In (technique_of
                         (Sample.attack_pattern
                            "attack-pattern--t1059"
                            "Command and Scripting Interpreter"
                            (Some (Sample.mitre_ref "t1059")) "execution"
                            ["Windows"] None))
                      (JsMap.values
                         (AttackDataStore.techniques
                            (Sample.store_of Sample.lowercase_bundle))))
    by (left; reflexivity).
  specialize (H _ Hfound). vm_compute in H. discriminate H.
Qed.

(** C2, amended. In a store reached by any sequence of loads, a
    technique of the technique index whose public ID is its own
    upper-case form is returned by [getTechnique] for every spelling
    that upper-cases to the same string as its ID, the ID itself
    included. *)
Theorem C2_getTechnique_by_id (s : AttackDataStore.t) (x : Technique.t)
  (spelling : string) :
  Reachable s ->
  In x (JsMap.values (AttackDataStore.techniques s)) ->
  Js.toUpperCase (Technique.id x) = Technique.id x ->
  same_upper_case spelling (Technique.id x) ->
  AttackDataStore.getTechnique s spelling = Some x.
Proof.
  intros Hs Hin Hup Hcase. unfold AttackDataStore.getTechnique.
  unfold same_upper_case in Hcase. rewrite Hcase, Hup.
  now apply technique_under_id.
Qed.

Lemma C2_getTechnique_by_id_witness :
  AttackDataStore.getTechnique Sample.store "t1059"
  = Some (technique_of Sample.t1059).
Proof.
  apply C2_getTechnique_by_id.
  - apply reach_load, reach_create.
  - vm_compute. left. reflexivity.
  - reflexivity.
  - reflexivity.
Defined.

(* ================================================================= *)
(** ** C3: sub-techniques and their parent *)

(** C3, as stated, fails: a technique that is flagged as a sub-technique
    and has no ATT&CK ID is a sub-technique whose [parentId] is the empty
    string. *)
Lemma C3_counterexample :
  ~ (forall x, In x (parseTechniques Sample.flagged_bundle) ->
       Technique.isSubtechnique x = true ->
       exists p, Technique.parentId x = Some p
                 /\ p <> ""
                 /\ p = truncate_before "." (Technique.id x)).
Proof.
  intros H.
  destruct (H (technique_of
                 (Sample.attack_pattern "attack-pattern--x" "Unnumbered" None
                                        "execution" ["Windows"] (Some true))))
    as [p [Hp [Hne _]]].
  - left. reflexivity.
  - reflexivity.
  - vm_compute in Hp. injection Hp as <-. now apply Hne.
Qed.

(** C3, amended. For every technique the parser produces: if it is a
    sub-technique, its [parentId] is present and is its public ID cut
    before the first '.' (the whole ID when it has none), which is
    non-empty whenever the ID is non-empty and does not start with '.';
    and if its public ID contains '.', it is a sub-technique. *)
Theorem C3_subtechnique_parent (bundle : StixBundle) (x : Technique.t) :
  In x (parseTechniques bundle) ->
  (Technique.isSubtechnique x = true ->
     Technique.parentId x = Some (truncate_before "." (Technique.id x))
     /\ (Technique.id x <> "" ->
         (forall rest, Technique.id x <> String "." rest) ->
         truncate_before "." (Technique.id x) <> ""))
  /\ (occurs_in "." (Technique.id x) -> Technique.isSubtechnique x = true).
Proof.
  unfold parseTechniques. rewrite in_map_iff. intros [ap [<- _]].
  unfold technique_of. cbn [Technique.isSubtechnique Technique.parentId
                            Technique.id].
  set (id := getExternalId (Stix.external_references ap)).
  split.
  - intros ->. split.
    + now rewrite split_head.
    + intros Hne Hdot Hcut. apply truncate_before_empty in Hcut.
      destruct Hcut as [H | [rest H]]; [auto | exact (Hdot rest H)].
  - intros Hocc. apply includes_occurs in Hocc. rewrite Hocc.
    apply orb_true_r.
Qed.

Lemma C3_subtechnique_parent_witness :
  In (technique_of Sample.t1059_001) (parseTechniques Sample.bundle)
  /\ Technique.parentId (technique_of Sample.t1059_001) = Some "T1059".
Proof.
  assert (Hin : In (technique_of Sample.t1059_001)
                   (parseTechniques Sample.bundle)).
  { right. left. reflexivity. }
  split; [exact Hin|].
  destruct (C3_subtechnique_parent Sample.bundle _ Hin) as [Hsub _].
  destruct (Hsub eq_refl) as [Hparent _]. exact Hparent.
Defined.

(* ================================================================= *)
(** ** C4: default listings *)

Section Listings.

Variables (V : Type) (deprecated revoked : V -> bool).

Lemma listing_live (all : list V) (e : V) :
  In e all -> deprecated e = false -> revoked e = false ->
  In e (filter (fun x => negb (deprecated x) && negb (revoked x)) all).
Proof.
  intros Hin Hd Hr. apply filter_In. split; [exact Hin|].
  now rewrite Hd, Hr.
Qed.

Lemma listing_dead (all : list V) (e : V) :
  deprecated e = true \/ revoked e = true ->
  ~ In e (filter (fun x => negb (deprecated x) && negb (revoked x)) all).
Proof.
  intros Hflag Hin. apply filter_In in Hin. destruct Hin as [_ H].
  apply andb_true_iff in H. rewrite !negb_true_iff in H.
  destruct Hflag; destruct H; congruence.
Qed.

End Listings.

(** C4. Techniques, groups, software and mitigations: an entity of the
    store with both flags false is in the default listing; one with
    [deprecated] or [revoked] set is not in the default listing and is in
    the listing with [includeDeprecated]. *)
Theorem C4_default_listings (s : AttackDataStore.t) :
  (forall e, In e (JsMap.values (AttackDataStore.techniques s)) ->
     (Technique.deprecated e = false -> Technique.revoked e = false ->
      In e (AttackDataStore.getAllTechniques s false))
     /\ (Technique.deprecated e = true \/ Technique.revoked e = true ->
         ~ In e (AttackDataStore.getAllTechniques s false)
         /\ In e (AttackDataStore.getAllTechniques s true)))
  /\ (forall e, In e (JsMap.values (AttackDataStore.groups s)) ->
        (Group.deprecated e = false -> Group.revoked e = false ->
         In e (AttackDataStore.getAllGroups s false))
        /\ (Group.deprecated e = true \/ Group.revoked e = true ->
            ~ In e (AttackDataStore.getAllGroups s false)
            /\ In e (AttackDataStore.getAllGroups s true)))
  /\ (forall e, In e (JsMap.values (AttackDataStore.software s)) ->
        (Software.deprecated e = false -> Software.revoked e = false ->
         In e (AttackDataStore.getAllSoftware s false))
        /\ (Software.deprecated e = true \/ Software.revoked e = true ->
            ~ In e (AttackDataStore.getAllSoftware s false)
            /\ In e (AttackDataStore.getAllSoftware s true)))
  /\ (forall e, In e (JsMap.values (AttackDataStore.mitigations s)) ->
        (Mitigation.deprecated e = false -> Mitigation.revoked e = false ->
         In e (AttackDataStore.getAllMitigations s false))
        /\ (Mitigation.deprecated e = true \/ Mitigation.revoked e = true ->
            ~ In e (AttackDataStore.getAllMitigations s false)
            /\ In e (AttackDataStore.getAllMitigations s true))).
Proof.
  unfold AttackDataStore.getAllTechniques, AttackDataStore.getAllGroups,
    AttackDataStore.getAllSoftware, AttackDataStore.getAllMitigations.
  repeat split; intros;
    solve [ now apply listing_live | now apply listing_dead | assumption ].
Qed.

Lemma C4_default_listings_witness :
  In (software_of malware Sample.mimikatz)
     (AttackDataStore.getAllSoftware Sample.store false)
  /\ ~ In (software_of malware Sample.oldrat)
          (AttackDataStore.getAllSoftware Sample.store false)
  /\ In (software_of malware Sample.oldrat)
        (AttackDataStore.getAllSoftware Sample.store true).
Proof.
  destruct (C4_default_listings Sample.store) as (_ & _ & Hsw & _).
  assert (Hin1 : In (software_of malware Sample.mimikatz)
                    (JsMap.values (AttackDataStore.software Sample.store)))
    by (vm_compute; left; reflexivity).
  assert (Hin2 : In (software_of malware Sample.oldrat)
                    (JsMap.values (AttackDataStore.software Sample.store)))
    by (vm_compute; right; left; reflexivity).
  destruct (Hsw _ Hin1) as [Hlive _].
  destruct (Hsw _ Hin2) as [_ Hdead].
  split.
  - exact (Hlive eq_refl eq_refl).
  - exact (Hdead (or_introl eq_refl)).
Defined.

(* ================================================================= *)
(** ** C5: search is the conjunction of the filters that are present *)

Section SearchSteps.

Variable V : Type.

(** One step of a search: [if (opts.field) results = results.filter(..)]. *)
Lemma string_step (o : option string) (f : string -> V -> bool)
  (results : list V) (x : V) :
  In x (match o with
        | Some q => if Js.truthy q then filter (f q) results else results
        | None => results
        end)
  <-> In x results /\ (forall q, present o q -> f q x = true).
Proof.
  unfold present. destruct o as [q|].
  - destruct (Js.truthy q) eqn:E.
    + rewrite filter_In. apply truthy_true in E. split.
      * intros [Hin Hf]. split; [exact Hin|]. now intros q' [[= <-] _].
      * intros [Hin Hf]. split; [exact Hin|]. now apply Hf.
    + apply truthy_false in E. split.
      * intros Hin. split; [exact Hin|]. intros q' [[= <-] Hne]. contradiction.
      * tauto.
  - split; [|tauto]. intros Hin. split; [exact Hin|]. intros q [H _].
    discriminate.
Qed.

(** The same step on a field that is not a string: [undefined] or a
    value. *)
Lemma value_step (B : Type) (o : option B) (f : B -> V -> bool)
  (results : list V) (x : V) :
  In x (match o with
        | Some b => filter (f b) results
        | None => results
        end)
  <-> In x results /\ (forall b, o = Some b -> f b x = true).
Proof.
  destruct o as [b|].
  - rewrite filter_In. split.
    + intros [Hin Hf]. split; [exact Hin|]. now intros b' [= <-].
    + intros [Hin Hf]. auto.
  - split; [|tauto]. intros Hin. split; [exact Hin|]. discriminate.
Qed.

Variable s : AttackDataStore.t.
Variable stixId : V -> string.

(** The step of the [technique] filter of [searchGroups] and
    [searchSoftware]. *)
Lemma technique_step (o : option string) (results : list V) (x : V) :
  In x (match o with
        | Some technique =>
            if Js.truthy technique then
              if Js.truthy_opt (AttackDataStore.techStixId_of s technique) then
                filter (fun y =>
                          set_has
                            (AttackDataStore.users_of s
                               (Js.or_default
                                  (AttackDataStore.techStixId_of s technique)
                                  ""))
                            (stixId y))
                       results
              else []
            else results
        | None => results
        end)
  <-> In x results
      /\ (forall technique, present o technique ->
            uses_technique s (stixId x) technique).
Proof.
  unfold present. destruct o as [technique|];
    [|split; [intros H; split; [exact H | intros ? [? _]; discriminate]
             | tauto]].
  destruct (Js.truthy technique) eqn:E.
  2:{ apply truthy_false in E. split; [|tauto].
      intros H. split; [exact H|]. intros t' [[= <-] Hne]. contradiction. }
  apply truthy_true in E.
  unfold uses_technique, AttackDataStore.techStixId_of,
    AttackDataStore.getTechnique.
  destruct (JsMap.get (Js.toUpperCase technique) (AttackDataStore.techniques s))
    as [tech|] eqn:G; simpl.
  2:{ split; [intros [] | intros [_ H]].
      destruct (H technique (conj eq_refl E)) as [? [? [Hget _]]].
      rewrite G in Hget. discriminate Hget. }
  destruct (Js.truthy (Technique.stixId tech)) eqn:Et.
  2:{ apply truthy_false in Et. split; [intros [] | intros [_ H]].
      destruct (H technique (conj eq_refl E)) as [t' [r [Hget [Hne _]]]].
      rewrite G in Hget. injection Hget as <-. contradiction. }
  apply truthy_true in Et. rewrite filter_In.
  unfold set_has, AttackDataStore.users_of. rewrite existsb_exists.
  split.
  - intros [Hin [src [Hsrc Heq]]]. split; [exact Hin|].
    intros t' [[= <-] _]. apply String.eqb_eq in Heq.
    apply in_map_iff in Hsrc. destruct Hsrc as [r [Hr Hrin]].
    apply filter_In in Hrin. destruct Hrin as [Hrin Hp].
    apply andb_true_iff in Hp. destruct Hp as [Ht Hu].
    apply String.eqb_eq in Ht, Hu.
    exists tech, r. repeat split; congruence.
  - intros [Hin H]. split; [exact Hin|].
    destruct (H technique (conj eq_refl E))
      as [t' [r [Hget [_ [Hrin [Hsrc [Htgt Huses]]]]]]].
    rewrite G in Hget. injection Hget as <-.
    exists (Relationship.sourceRef r). split.
    + apply in_map_iff. exists r. split; [reflexivity|].
      apply filter_In. split; [exact Hrin|].
      apply andb_true_iff. split; now apply String.eqb_eq.
    + now apply String.eqb_eq.
Qed.

End SearchSteps.

Section Matching.

Lemma includes_lower_matches (field q : string) :
  Js.includes (Js.toLowerCase field) (Js.toLowerCase q) = true
  <-> keyword_matches q field.
Proof. apply includes_occurs. Qed.

Lemma some_eq_lower_iff (xs : list string) (q : string) :
  AttackDataStore.some_eq_lower xs (Js.toLowerCase q) = true
  <-> exists x, In x xs /\ same_ignoring_case x q.
Proof.
  unfold AttackDataStore.some_eq_lower, same_ignoring_case.
  rewrite existsb_exists. split; intros [x [Hin H]]; exists x;
    (split; [exact Hin|]); now apply String.eqb_eq.
Qed.

Lemma some_includes_lower_iff (xs : list string) (q : string) :
  AttackDataStore.some_includes_lower xs (Js.toLowerCase q) = true
  <-> exists x, In x xs /\ keyword_matches q x.
Proof.
  unfold AttackDataStore.some_includes_lower. rewrite existsb_exists.
  split; intros [x [Hin H]]; exists x; (split; [exact Hin|]);
    now apply includes_lower_matches.
Qed.

Lemma keyword_three (q a b c : string) :
  Js.includes (Js.toLowerCase a) (Js.toLowerCase q)
  || Js.includes (Js.toLowerCase b) (Js.toLowerCase q)
  || Js.includes (Js.toLowerCase c) (Js.toLowerCase q) = true
  <-> keyword_matches q a \/ keyword_matches q b \/ keyword_matches q c.
Proof. rewrite !orb_true_iff, !includes_lower_matches. tauto. Qed.

Lemma keyword_aliases (q a b : string) (aliases : list string) :
  Js.includes (Js.toLowerCase a) (Js.toLowerCase q)
  || Js.includes (Js.toLowerCase b) (Js.toLowerCase q)
  || AttackDataStore.some_includes_lower aliases (Js.toLowerCase q) = true
  <-> keyword_matches q a \/ keyword_matches q b
      \/ exists al, In al aliases /\ keyword_matches q al.
Proof.
  rewrite !orb_true_iff, !includes_lower_matches, some_includes_lower_iff.
  tauto.
Qed.

Lemma SoftwareType_eqb_eq (a b : SoftwareType) :
  SoftwareType_eqb a b = true <-> a = b.
Proof. destruct a, b; simpl; split; congruence. Qed.

End Matching.

Lemma searchTechniques_spec (s : AttackDataStore.t) (opts : TechniqueSearch)
  (x : Technique.t) :
  In x (AttackDataStore.searchTechniques s opts)
  <-> In x (AttackDataStore.getAllTechniques s false)
      /\ technique_satisfies opts x.
Proof.
  unfold AttackDataStore.searchTechniques, technique_satisfies. cbv zeta.
  refine (iff_trans (value_step _ _ _ _) _).
  refine (iff_trans (and_iff_compat_r _ (string_step _ _ _ _)) _).
  refine (iff_trans
            (and_iff_compat_r _ (and_iff_compat_r _ (string_step _ _ _ _))) _).
  refine (iff_trans
            (and_iff_compat_r _
               (and_iff_compat_r _
                  (and_iff_compat_r _ (string_step _ _ _ _)))) _).
  refine (iff_trans
            (and_iff_compat_r _
               (and_iff_compat_r _
                  (and_iff_compat_r _
                     (and_iff_compat_r _ (string_step _ _ _ _))))) _).
  cbv beta.
  split.
  - intros [[[[[Hin Hq] Ht] Hp] Hd] Hs]. split; [exact Hin|].
    repeat split.
    + intros q Hq'. now apply keyword_three, Hq.
    + intros q Hq'. now apply some_eq_lower_iff, Ht.
    + intros q Hq'. now apply some_eq_lower_iff, Hp.
    + intros q Hq'. now apply some_includes_lower_iff, Hd.
    + intros b Hb. now apply Bool.eqb_prop, Hs.
  - intros [Hin [Hq [Ht [Hp [Hd Hs]]]]]. repeat split.
    + exact Hin.
    + intros q Hq'. now apply keyword_three, Hq.
    + intros q Hq'. now apply some_eq_lower_iff, Ht.
    + intros q Hq'. now apply some_eq_lower_iff, Hp.
    + intros q Hq'. now apply some_includes_lower_iff, Hd.
    + intros b Hb. rewrite (Hs b Hb). apply Bool.eqb_reflx.
Qed.

Lemma searchGroups_spec (s : AttackDataStore.t) (opts : GroupSearch)
  (g : Group.t) :
  In g (AttackDataStore.searchGroups s opts)
  <-> In g (AttackDataStore.getAllGroups s false) /\ group_satisfies s opts g.
Proof.
  unfold AttackDataStore.searchGroups, group_satisfies. cbv zeta.
  refine (iff_trans (technique_step s Group.stixId _ _ _) _).
  refine (iff_trans (and_iff_compat_r _ (string_step _ _ _ _)) _).
  cbv beta. split.
  - intros [[Hin Hq] Ht]. split; [exact Hin|]. split; [|exact Ht].
    intros q Hq'. now apply keyword_aliases, Hq.
  - intros [Hin [Hq Ht]]. split; [|exact Ht]. split; [exact Hin|].
    intros q Hq'. now apply keyword_aliases, Hq.
Qed.

Lemma searchSoftware_spec (s : AttackDataStore.t) (opts : SoftwareSearch)
  (x : Software.t) :
  In x (AttackDataStore.searchSoftware s opts)
  <-> In x (AttackDataStore.getAllSoftware s false)
      /\ software_satisfies s opts x.
Proof.
  unfold AttackDataStore.searchSoftware, software_satisfies. cbv zeta.
  refine (iff_trans (technique_step s Software.stixId _ _ _) _).
  refine (iff_trans (and_iff_compat_r _ (string_step _ _ _ _)) _).
  refine (iff_trans
            (and_iff_compat_r _ (and_iff_compat_r _ (value_step _ _ _ _))) _).
  cbv beta. split.
  - intros [[[Hin Hty] Hq] Ht]. split; [exact Hin|]. repeat split.
    + intros ty Hty'. now apply SoftwareType_eqb_eq, Hty.
    + intros q Hq'. now apply keyword_aliases, Hq.
    + exact Ht.
  - intros [Hin [Hty [Hq Ht]]]. repeat split.
    + exact Hin.
    + intros ty Hty'. now apply SoftwareType_eqb_eq, Hty.
    + intros q Hq'. now apply keyword_aliases, Hq.
    + exact Ht.
Qed.

(** C5. For each search of the store and every filter set: an entity is
    in the result exactly when it is in the default listing (it is in the
    store, not deprecated and not revoked) and satisfies every filter
    that is present. The keyword is matched as a substring, letter case
    ignored, over name, description and public ID of a technique and over
    name, description and aliases of a group or software; a filter that
    is not supplied, or is the empty string, constrains nothing. *)
Theorem C5_search_is_conjunction (s : AttackDataStore.t) :
  (forall opts x,
     In x (AttackDataStore.searchTechniques s opts)
     <-> (In x (JsMap.values (AttackDataStore.techniques s))
          /\ Technique.deprecated x = false /\ Technique.revoked x = false)
         /\ technique_satisfies opts x)
  /\ (forall opts g,
        In g (AttackDataStore.searchGroups s opts)
        <-> (In g (JsMap.values (AttackDataStore.groups s))
             /\ Group.deprecated g = false /\ Group.revoked g = false)
            /\ group_satisfies s opts g)
  /\ (forall opts x,
        In x (AttackDataStore.searchSoftware s opts)
        <-> (In x (JsMap.values (AttackDataStore.software s))
             /\ Software.deprecated x = false /\ Software.revoked x = false)
            /\ software_satisfies s opts x).
Proof.
  split; [|split]; intros opts x.
  - rewrite searchTechniques_spec. unfold AttackDataStore.getAllTechniques.
    rewrite filter_In, andb_true_iff, !negb_true_iff. tauto.
  - rewrite searchGroups_spec. unfold AttackDataStore.getAllGroups.
    rewrite filter_In, andb_true_iff, !negb_true_iff. tauto.
  - rewrite searchSoftware_spec. unfold AttackDataStore.getAllSoftware.
    rewrite filter_In, andb_true_iff, !negb_true_iff. tauto.
Qed.

Example search_cloud :
  map Technique.id
      (AttackDataStore.searchTechniques Sample.store
         {| ts_query := None; ts_tactic := Some "Initial-Access";
            ts_platform := Some "cloud"; ts_dataSource := None;
            ts_isSubtechnique := Some false |})
  = ["T1566"].
Proof. reflexivity. Qed.

Example search_groups_by_technique :
  map Group.name
      (AttackDataStore.searchGroups Sample.store
         {| gs_query := Some "apt"; gs_technique := Some "t1059" |})
  = ["APT28"].
Proof. reflexivity. Qed.

(* ================================================================= *)
(** ** C10: the empty string as a filter *)

(** C10. In every search an optional string filter that is the empty
    string acts as the filter left out: the search returns the same list
    as the search on the filter set with its empty-string fields
    omitted, whatever the other fields are. In particular
    [searchTechniques] with the query "" and nothing else returns the
    default listing of techniques. *)
Theorem C10_empty_string_is_no_filter (s : AttackDataStore.t) :
  (forall opts,
     AttackDataStore.searchTechniques s opts
     = AttackDataStore.searchTechniques s
         {| ts_query := omit_empty (ts_query opts);
            ts_tactic := omit_empty (ts_tactic opts);
            ts_platform := omit_empty (ts_platform opts);
            ts_dataSource := omit_empty (ts_dataSource opts);
            ts_isSubtechnique := ts_isSubtechnique opts |})
  /\ (forall opts,
        AttackDataStore.searchGroups s opts
        = AttackDataStore.searchGroups s
            {| gs_query := omit_empty (gs_query opts);
               gs_technique := omit_empty (gs_technique opts) |})
  /\ (forall opts,
        AttackDataStore.searchSoftware s opts
        = AttackDataStore.searchSoftware s
            {| ss_query := omit_empty (ss_query opts);
               ss_technique := omit_empty (ss_technique opts);
               ss_type := ss_type opts |})
  /\ AttackDataStore.searchTechniques s
       {| ts_query := Some ""; ts_tactic := None; ts_platform := None;
          ts_dataSource := None; ts_isSubtechnique := None |}
     = AttackDataStore.getAllTechniques s false.
Proof.
  split; [|split; [|split]].
  - intros [q tac p d sub]. unfold AttackDataStore.searchTechniques.
    cbn [ts_query ts_tactic ts_platform ts_dataSource ts_isSubtechnique].
    destruct q as [[|c q]|], tac as [[|c' tac]|], p as [[|c'' p]|],
      d as [[|c''' d]|]; reflexivity.
  - intros [q technique]. unfold AttackDataStore.searchGroups.
    cbn [gs_query gs_technique].
    destruct q as [[|c q]|], technique as [[|c' technique]|]; reflexivity.
  - intros [q technique ty]. unfold AttackDataStore.searchSoftware.
    cbn [ss_query ss_technique ss_type].
    destruct q as [[|c q]|], technique as [[|c' technique]|]; reflexivity.
  - reflexivity.
Qed.

Example empty_query_lists_all :
  map Technique.id
      (AttackDataStore.searchTechniques Sample.store
         {| ts_query := Some ""; ts_tactic := Some ""; ts_platform := Some "";
            ts_dataSource := Some ""; ts_isSubtechnique := None |})
  = ["T1059"; "T1059.001"; "T1566"].
Proof. reflexivity. Qed.

(* ================================================================= *)
(** ** C6: the two directions of a "uses" edge *)

Section UsesEdges.

Variable s : AttackDataStore.t.
Hypothesis Hs : Reachable s.






End UsesEdges.



(* ================================================================= *)
(** ** C9: the order of tactics *)

Lemma canonical_order_below_99 (name : string) (n : Z) :
  canonical_order name = Some n -> (0 <= n <= 13)%Z.
Proof.
  unfold canonical_order. intros H. apply get_in in H.
  assert (Hall : Forall (fun kv : string * Z => (0 <= snd kv <= 13)%Z)
                        ENTERPRISE_TACTIC_ORDER)
    by (repeat constructor; simpl; lia).
  rewrite Forall_forall in Hall. exact (Hall _ H).
Qed.

Lemma getAllTactics_order (s : AttackDataStore.t) (x : Tactic.t) :
  Reachable s -> In x (AttackDataStore.getAllTactics s) ->
  Tactic.order x = order_of (Tactic.shortName x).
Proof.
  intros Hs Hin. apply Reachable_Indexed in Hs.
  unfold AttackDataStore.getAllTactics in Hin.
  apply in_sort_any in Hin.
  unfold JsMap.values in Hin. apply in_map_iff in Hin.
  destruct Hin as [kv [<- Hin]].
  pose proof (ord_tactics Hs) as Hord. rewrite Forall_forall in Hord.
  exact (Hord _ Hin).
Qed.

(** C9. A tactic whose short name the table lacks is to get an order
    above every value of the table, and the listing is to be ascending.
    [parseTactics] reads the table with [tacticOrder[shortName] ?? 99],
    and under the short name "constructor", which the table lacks, a
    plain object answers with the function it inherits: the default is
    not taken and the tactic gets no number, where another unknown name
    gets 99. Its difference with any order is NaN, so the comparator
    ties it with "execution" and with "initial-access" while it still
    ranks "execution" above "initial-access": it orders nothing, and
    the language then leaves the outcome of the sort to the
    implementation. From the bundle that holds the three tactics in the
    order execution, constructor, initial-access, the sort finds every
    neighbour tied: the insertion sort of this file, like the sort of
    Node, changes nothing, and [parseTactics] and the listing of the
    loaded store both have "execution" before "initial-access". *)
Theorem C9_inherited_name_gets_no_number :
  let parsed := parseTactics Sample.inherited_bundle ENTERPRISE_TACTIC_ORDER in
  let listing :=
    AttackDataStore.getAllTactics (Sample.store_of Sample.inherited_bundle) in
  canonical_order "constructor" = None
  /\ map (fun x => (Tactic.shortName x, Tactic.order x)) parsed
     = [ ("execution", Tactic.Number 3);
         ("constructor", Tactic.NotANumber "constructor");
         ("initial-access", Tactic.Number 2) ]
  /\ order_in ENTERPRISE_TACTIC_ORDER "stealth" = Tactic.Number 99
  /\ map (fun x => map (by_order x) parsed) parsed
     = [ [0; 0; 1]; [0; 0; 0]; [-1; 0; 0] ]%Z
  /\ map Tactic.shortName listing
     = ["execution"; "constructor"; "initial-access"]
  /\ ~ strictly_before listing
         (tactic_of ENTERPRISE_TACTIC_ORDER
            (Sample.tactic "x-mitre-tactic--ia" "Initial Access"
                           "initial-access" "TA0001"))
         (tactic_of ENTERPRISE_TACTIC_ORDER
            (Sample.tactic "x-mitre-tactic--exec" "Execution" "execution"
                           "TA0002")).
Proof.
  cbv zeta. repeat apply conj; try reflexivity.
  intros H. specialize (H 2%nat 0%nat eq_refl eq_refl). lia.
Qed.

(* ================================================================= *)
(** ** C8: loading a bundle a second time *)

Section Reload.

Lemma indexBundle_twice (bundle : StixBundle) (s : AttackDataStore.t) :
  Indexed s ->
  same_indices
    (AttackDataStore.indexBundle bundle (AttackDataStore.indexBundle bundle s))
    (AttackDataStore.indexBundle bundle s).
Proof.
  intros H. unfold same_indices. simpl.
  rewrite ?set_each_as_set_all, ?set_names_as_set_all.
  repeat apply conj; apply set_all_twice; apply H.
Qed.

(** Stores with the same indices, the same edges and the same data
    components answer alike. *)
Lemma same_indices_answers (a b : AttackDataStore.t) :
  same_indices a b ->
  (forall r, In r (AttackDataStore.relationships a)
             <-> In r (AttackDataStore.relationships b)) ->
  (forall d, In d (AttackDataStore.dataComponents a)
             <-> In d (AttackDataStore.dataComponents b)) ->
  SameAnswers a b.
Proof.
  destruct a, b. unfold same_indices. simpl.
  intros (-> & -> & -> & -> & -> & -> & -> & -> & -> & -> & -> & -> & -> & ->
          & ->) Hrel Hdc.
  constructor; intros id;
    try reflexivity;
    unfold AttackDataStore.getGroupTechniques,
      AttackDataStore.getGroupSoftware, AttackDataStore.getSoftwareTechniques,
      AttackDataStore.getSoftwareGroups,
      AttackDataStore.getMitigationsForTechnique,
      AttackDataStore.getTechniquesForMitigation,
      AttackDataStore.getTechniquesDetectedByComponent,
      AttackDataStore.getComponentsForDataSource,
      AttackDataStore.technique_entry, AttackDataStore.mitigation_entry;
    simpl.
  - now apply same_set_join.
  - now apply same_set_join.
  - now apply same_set_join.
  - now apply same_set_join.
  - destruct (JsMap.get _ _); [now apply same_set_join | intros x; tauto].
  - destruct (JsMap.get _ _); [now apply same_set_join | intros x; tauto].
  - rewrite !map_map. now apply same_set_join.
  - intros x. rewrite !filter_In, Hdc. tauto.
Qed.

End Reload.

(** C8. Load a bundle into a store reached by loads, then load the same
    bundle again. Every index is the same map after the second load as
    after the first, so every point lookup returns the same entity; the
    relationship list has the parsed edges of the bundle appended once
    more; and every composite query returns the same set of entries. *)
Theorem C8_reload_idempotent (s : AttackDataStore.t) (matrix : string)
  (bundle : StixBundle) :
  Reachable s ->
  let once := AttackDataStore.loadFromBundles [(matrix, bundle)] s in
  let twice := AttackDataStore.loadFromBundles [(matrix, bundle)] once in
  same_indices twice once
  /\ SameAnswers twice once
  /\ AttackDataStore.isLoaded twice = AttackDataStore.isLoaded once
  /\ AttackDataStore.relationships once
     = AttackDataStore.relationships s ++ parseRelationships bundle
  /\ AttackDataStore.relationships twice
     = AttackDataStore.relationships once ++ parseRelationships bundle
  /\ List.length (AttackDataStore.relationships twice)
     = (List.length (AttackDataStore.relationships s)
        + 2 * List.length (parseRelationships bundle))%nat.
Proof.
  intros Hs once twice. apply Reachable_Indexed in Hs.
  assert (Hidx : same_indices twice once)
    by exact (indexBundle_twice bundle Hs).
  split; [exact Hidx|]. split; [|repeat split].
  - apply same_indices_answers; [exact Hidx | |].
    + intros r. subst once twice. simpl. rewrite !in_app_iff. tauto.
    + intros d. subst once twice. simpl. rewrite !in_app_iff. tauto.
  - subst once twice. simpl. rewrite !length_app. lia.
Qed.

Lemma C8_reload_idempotent_witness :
  let once := Sample.store in
  let twice := AttackDataStore.loadFromBundles [("enterprise", Sample.bundle)]
                                               once in
  same_indices twice once
  /\ List.length (AttackDataStore.relationships once) = 5%nat
  /\ List.length (AttackDataStore.relationships twice) = 10%nat
  /\ same_set (AttackDataStore.getGroupSoftware twice "intrusion-set--apt28")
              (AttackDataStore.getGroupSoftware once "intrusion-set--apt28").
Proof.
  intros once twice.
  destruct (@C8_reload_idempotent (AttackDataStore.create Sample.cfg)
              "enterprise" Sample.bundle (reach_create Sample.cfg))
    as (Hidx & Hans & _ & _ & _ & _).
  split; [exact Hidx|]. split; [reflexivity|]. split; [reflexivity|].
  apply (same_getGroupSoftware Hans).
Defined.

(* ================================================================= *)
(** ** C7: where [initialize] takes its data from *)

Section CachePolicy.

Import Loader.

Lemma isCacheStale_false (w : World) (interval : Z) :
  isCacheStale w interval = false <-> not_older_than w interval \/ undated w.
Proof.
  unfold isCacheStale, not_older_than, undated.
  destruct (metadata w) as [[[t|]|]|].
  - rewrite Z.gtb_ltb, Z.ltb_ge. split.
    + intros H. left. exists t. auto.
    + intros [[t' [[= <-] H]] | [=]]. exact H.
  - split; [auto | reflexivity].
  - split; [discriminate | intros [[t [H _]] | H]; discriminate].
  - split; [discriminate | intros [[t [H _]] | H]; discriminate].
Qed.

(** [load_each] fails exactly when some matrix has no readable file. *)
Lemma load_each_none (w : World) (ms : list MatrixType)
  (acc : JsMap.t StixBundle) :
  load_each w ms acc = None <->
  exists m, In m ms /\ loadCachedBundle w m = None.
Proof.
  revert acc. induction ms as [|m ms IH]; intros acc; simpl.
  - split; [discriminate | intros [m [[] _]]].
  - destruct (loadCachedBundle w m) as [b|] eqn:E.
    + rewrite IH. split; intros [m' [Hin Hm']].
      * exists m'. auto.
      * destruct Hin as [<-|Hin]; [congruence | eauto].
    + split; [|reflexivity]. intros _. exists m. auto.
Qed.

Lemma loadCachedBundles_hasCachedData (w : World) (ms : list MatrixType)
  (bs : JsMap.t StixBundle) :
  loadCachedBundles w ms = Some bs -> hasCachedData w ms = true.
Proof.
  intros H. unfold hasCachedData. apply forallb_forall. intros m Hin.
  destruct (cache w m) as [f|] eqn:E; [reflexivity|].
  assert (Hnone : loadCachedBundles w ms = None).
  { apply load_each_none. exists m. split; [exact Hin|].
    unfold loadCachedBundle. now rewrite E. }
  congruence.
Qed.

(** A download never takes a readable cache file away. *)
Lemma downloadMatrix_keeps (w w' : World) (m : MatrixType)
  (r : Result StixBundle) (m0 : MatrixType) :
  downloadMatrix w m = (w', r) ->
  loadCachedBundle w' m0 = None -> loadCachedBundle w m0 = None.
Proof.
  unfold downloadMatrix. destruct (remote w m) as [data|message].
  - intros [= <- _]. unfold loadCachedBundle, write_cache. simpl.
    destruct (MatrixType_eqb m0 m); [discriminate | auto].
  - intros [= <- _]. auto.
Qed.

Lemma download_each_keeps (w w' : World) (ms : list MatrixType)
  (acc : JsMap.t StixBundle) (r : Result (JsMap.t StixBundle))
  (m0 : MatrixType) :
  download_each w ms acc = (w', r) ->
  loadCachedBundle w' m0 = None -> loadCachedBundle w m0 = None.
Proof.
  revert w acc. induction ms as [|m ms IH]; intros w acc; simpl.
  - intros [= <- _]. auto.
  - destruct (downloadMatrix w m) as [w1 [bundle|message]] eqn:E.
    + intros H Hnone. eapply downloadMatrix_keeps; [exact E|].
      eapply IH; eassumption.
    + intros [= <- _] Hnone. eapply downloadMatrix_keeps; eassumption.
Qed.

Lemma failed_download_keeps (w w' : World) (ms : list MatrixType)
  (message : string) :
  downloadAllMatrices w ms = (w', Throw message) ->
  loadCachedBundles w' ms = None -> loadCachedBundles w ms = None.
Proof.
  unfold downloadAllMatrices, loadCachedBundles.
  destruct (download_each w ms (JsMap.empty StixBundle)) as [w1 [bs|msg]] eqn:E;
    [discriminate|].
  intros [= <- _]. rewrite !load_each_none. intros [m [Hin Hnone]].
  exists m. split; [exact Hin|]. eapply download_each_keeps; eassumption.
Qed.

(** The first statement of [initialize] finds nothing when the cache is
    incomplete or too old. *)
Lemma no_fresh_cache (w : World) (ms : list MatrixType) (interval : Z) :
  loadCachedBundles w ms = None
  \/ (~ not_older_than w interval /\ ~ undated w) ->
  (if hasCachedData w ms && negb (isCacheStale w interval)
   then loadCachedBundles w ms else None) = None.
Proof.
  intros [H | [H1 H2]].
  - now destruct (hasCachedData w ms && negb (isCacheStale w interval)).
  - destruct (isCacheStale w interval) eqn:E.
    + now rewrite andb_false_r.
    + apply isCacheStale_false in E. tauto.
Qed.

End CachePolicy.

(** C7. The cache is to be used when it is not older than the interval,
    and a fetch attempted otherwise. [isCacheStale] answers "stale" when
    the metadata file is missing and when it does not parse, and so a
    fetch follows; but when the file parses and its [lastUpdated] is no
    date, the age is NaN, [NaN > x] is false and the answer is "not
    stale". On the machine [undated_world] the cache is then loaded at
    every later time, whatever the network would serve, and nothing is
    fetched or written; with the metadata file missing, unreadable or
    old, the same machine fetches, writes the cache and the metadata
    file and loads what it fetched. *)
Theorem C7_undated_cache_is_never_refreshed :
  let s := AttackDataStore.create Sample.cfg in
  let refreshed w :=
    (Loader.write_metadata
       (Loader.write_cache w enterprise Sample.lowercase_bundle),
     Sample.store_of Sample.lowercase_bundle, Loader.Ok tt) in
  (forall t net,
     Loader.isCacheStale (later undated_world t net) (updateInterval Sample.cfg)
     = false
     /\ Loader.initialize (later undated_world t net) s
        = (later undated_world t net, Sample.store, Loader.Ok tt))
  /\ Loader.initialize (with_metadata undated_world None) s
     = refreshed (with_metadata undated_world None)
  /\ Loader.initialize (with_metadata undated_world (Some Loader.Corrupt)) s
     = refreshed (with_metadata undated_world (Some Loader.Corrupt))
  /\ Loader.initialize
       (with_metadata undated_world (Some (Loader.Parses (Loader.At 0)))) s
     = refreshed
         (with_metadata undated_world (Some (Loader.Parses (Loader.At 0)))).
Proof.
  cbv zeta. repeat apply conj; try reflexivity.
  intros t net. split; reflexivity.
Qed.

Example bare_world_throws :
  snd (Loader.initialize Sample.bare_world (AttackDataStore.create Sample.cfg))
  = Loader.Throw "Failed to load ATT&CK data: fetch failed".
Proof. reflexivity. Qed.

(* ================================================================= *)
(** * Further properties of the store *)

Section ConsistentIndices.

Lemma in_set_all (V : Type) (ops : list (string * V)) (m : JsMap.t V)
  (e : string * V) :
  In e (JsMap.set_all ops m) -> In e ops \/ In e m.
Proof.
  revert m. induction ops as [|[k v] ops IH]; intros m; simpl; [auto|].
  intros H. apply IH in H. destruct H as [H|H]; [auto|].
  apply in_set in H. destruct H as [->|H]; auto.
Qed.

Lemma name_ops_keys (V : Type) (name : V -> string)
  (aliases : V -> list string) (xs : list V) :
  Forall (fun kv => In (fst kv) (name_keys name aliases (snd kv)))
         (flat_map (name_ops name aliases) xs).
Proof.
  apply Forall_forall. intros [k v] Hin. apply in_flat_map in Hin.
  destruct Hin as [x [_ Hin]]. unfold name_keys.
  assert (v = x) as ->.
  { unfold name_ops in Hin. destruct Hin as [[= _ <-]|Hin]; [reflexivity|].
    apply in_map_iff in Hin. destruct Hin as [a [[= _ <-] _]]. reflexivity. }
  apply in_map_iff. exists (k, x). auto.
Qed.

Lemma technique_of_parent (ap : Stix.Object) :
  parent_derived (technique_of ap).
Proof.
  unfold parent_derived, technique_of. simpl.
  destruct (_ || _); [now rewrite split_head | reflexivity].
Qed.

Lemma Consistent_create (cfg : MitreConfig) :
  Consistent (AttackDataStore.create cfg).
Proof. constructor; simpl; constructor. Qed.

Lemma Consistent_indexBundle (bundle : StixBundle) (s : AttackDataStore.t) :
  Consistent s -> Consistent (AttackDataStore.indexBundle bundle s).
Proof.
  intros H. constructor; simpl;
    try (apply keyed_set_each; apply H).
  - rewrite set_names_as_set_all.
    apply Forall_set_all; [apply H | apply name_ops_keys].
  - rewrite set_names_as_set_all.
    apply Forall_set_all; [apply H | apply name_ops_keys].
  - rewrite set_each_as_set_all. apply Forall_set_all; [apply H|].
    apply Forall_forall. intros kv Hkv. apply in_map_iff in Hkv.
    destruct Hkv as [x [<- Hx]]. simpl.
    unfold parseTechniques in Hx. apply in_map_iff in Hx.
    destruct Hx as [ap [<- _]]. apply technique_of_parent.
  - rewrite !set_each_as_set_all. apply Forall_forall. intros kv Hkv.
    apply in_set_all in Hkv. destruct Hkv as [Hkv|Hkv].
    + apply in_map_iff in Hkv. destruct Hkv as [x [<- Hx]]. simpl.
      apply keys_of_ops. rewrite map_map. simpl.
      apply in_map_iff. exists x. auto.
    + apply keys_set_all_mono.
      pose proof (stix_resolvable H) as Hres.
      rewrite Forall_forall in Hres. now apply Hres.
Qed.

Lemma Reachable_Consistent (s : AttackDataStore.t) :
  Reachable s -> Consistent s.
Proof.
  induction 1 as [cfg | bundles s _ IH].
  - apply Consistent_create.
  - unfold AttackDataStore.loadFromBundles.
    assert (Hall : Consistent
                     (AttackDataStore.indexBundles (JsMap.values bundles) s)).
    { generalize (JsMap.values bundles) as bl. intros bl. revert s IH.
      induction bl as [|b bl IHbl]; intros s IH; simpl; [exact IH|].
      apply IHbl. now apply Consistent_indexBundle. }
    constructor; simpl; apply Hall.
Qed.

(** An entry found under a key of a keyed index has that key. *)
Lemma keyed_get (V : Type) (key : V -> string) (m : JsMap.t V) (k : string)
  (v : V) :
  keyed_by key m -> JsMap.get k m = Some v -> key v = k.
Proof.
  unfold keyed_by. intros Hk Hget. apply get_in in Hget.
  rewrite Forall_forall in Hk. symmetry. exact (Hk _ Hget).
Qed.

End ConsistentIndices.

(** X1. In a store reached by loads a lookup by ID returns only the
    entity asked for: the technique or mitigation that [getTechnique] or
    [getMitigation] returns has the upper-cased argument as its public
    ID, and the technique that [getTechniqueByStixId] returns has the
    argument as its internal ID. *)
Theorem lookup_by_id_returns_that_id (s : AttackDataStore.t) :
  Reachable s ->
  (forall q x, AttackDataStore.getTechnique s q = Some x ->
               Technique.id x = Js.toUpperCase q)
  /\ (forall k x, AttackDataStore.getTechniqueByStixId s k = Some x ->
                  Technique.stixId x = k)
  /\ (forall q x, AttackDataStore.getMitigation s q = Some x ->
                  Mitigation.id x = Js.toUpperCase q).
Proof.
  intros Hs. pose proof (Reachable_Indexed Hs) as Hi.
  pose proof (Reachable_Consistent Hs) as Hc.
  repeat apply conj; intros q x H.
  - exact (@keyed_get _ _ _ _ _ (key_techniques Hi) H).
  - exact (@keyed_get _ _ _ _ _ (key_techniquesByStixId Hi) H).
  - exact (@keyed_get _ _ _ _ _ (key_mitigations Hc) H).
Qed.

Lemma lookup_by_id_returns_that_id_witness :
  Technique.id (technique_of Sample.t1059_001) = Js.toUpperCase "t1059.001".
Proof.
  destruct (@lookup_by_id_returns_that_id Sample.store) as [Ht _].
  - apply reach_load, reach_create.
  - apply Ht. vm_compute. reflexivity.
Defined.

(** X2. In a store reached by loads a lookup by ID or name returns only
    an entity that answers to the argument: [getGroup] and [getSoftware]
    return an entity whose public ID is the upper-cased argument or
    whose name or one of whose aliases equals the argument up to letter
    case; [getDataSource] one whose ID or name does; [getTactic] one
    whose ID is the upper-cased or whose short name is the lower-cased
    argument. *)
Theorem lookup_by_name_answers_to_argument (s : AttackDataStore.t) :
  Reachable s ->
  (forall q g, AttackDataStore.getGroup s q = Some g ->
     Group.id g = Js.toUpperCase q
     \/ same_ignoring_case q (Group.name g)
     \/ exists a, In a (Group.aliases g) /\ same_ignoring_case q a)
  /\ (forall q x, AttackDataStore.getSoftware s q = Some x ->
        Software.id x = Js.toUpperCase q
        \/ same_ignoring_case q (Software.name x)
        \/ exists a, In a (Software.aliases x) /\ same_ignoring_case q a)
  /\ (forall q d, AttackDataStore.getDataSource s q = Some d ->
        DataSource.id d = Js.toUpperCase q
        \/ same_ignoring_case q (DataSource.name d))
  /\ (forall q x, AttackDataStore.getTactic s q = Some x ->
        Tactic.id x = Js.toUpperCase q
        \/ Tactic.shortName x = Js.toLowerCase q).
Proof.
  intros Hs. pose proof (Reachable_Consistent Hs) as Hc.
  assert (Hnames : forall (V : Type) (name : V -> string)
                     (aliases : V -> list string) (m : JsMap.t V) q v,
             Forall (fun kv => In (fst kv) (name_keys name aliases (snd kv))) m ->
             JsMap.get (Js.toLowerCase q) m = Some v ->
             same_ignoring_case q (name v)
             \/ exists a, In a (aliases v) /\ same_ignoring_case q a).
  { intros V name aliases m q v Hall Hget. apply get_in in Hget.
    rewrite Forall_forall in Hall. specialize (Hall _ Hget). simpl in Hall.
    unfold name_keys, name_ops in Hall. simpl in Hall.
    destruct Hall as [H|H]; [left; now symmetry|].
    rewrite map_map in H. simpl in H. apply in_map_iff in H.
    destruct H as [a [Ha Hin]]. right. exists a. split; [exact Hin|].
    now symmetry. }
  repeat apply conj; intros q x H.
  - unfold AttackDataStore.getGroup, Js.or_else in H.
    destruct (JsMap.get (Js.toUpperCase q) _) as [g|] eqn:E.
    + injection H as <-. left. exact (@keyed_get _ _ _ _ _ (key_groups Hc) E).
    + right. exact (Hnames _ _ _ _ _ _ (key_groupsByName Hc) H).
  - unfold AttackDataStore.getSoftware, Js.or_else in H.
    destruct (JsMap.get (Js.toUpperCase q) _) as [g|] eqn:E.
    + injection H as <-. left. exact (@keyed_get _ _ _ _ _ (key_software Hc) E).
    + right. exact (Hnames _ _ _ _ _ _ (key_softwareByName Hc) H).
  - unfold AttackDataStore.getDataSource, Js.or_else in H.
    destruct (JsMap.get (Js.toUpperCase q) _) as [g|] eqn:E.
    + injection H as <-. left. exact (@keyed_get _ _ _ _ _ (key_dataSources Hc) E).
    + right. pose proof (@keyed_get _ _ _ _ _ (key_dataSourcesByName Hc) H) as Hk.
      unfold same_ignoring_case. now symmetry.
  - unfold AttackDataStore.getTactic, Js.or_else in H.
    destruct (JsMap.get (Js.toUpperCase q) _) as [g|] eqn:E.
    + injection H as <-. left. exact (@keyed_get _ _ _ _ _ (key_tactics Hc) E).
    + right. exact (@keyed_get _ _ _ _ _ (key_tacticsByShortName Hc) H).
Qed.

Lemma lookup_by_name_answers_to_argument_witness :
  Group.id (group_of Sample.apt28) = Js.toUpperCase "apt28"
  \/ same_ignoring_case "apt28" (Group.name (group_of Sample.apt28))
  \/ exists a, In a (Group.aliases (group_of Sample.apt28))
               /\ same_ignoring_case "apt28" a.
Proof.
  destruct (@lookup_by_name_answers_to_argument Sample.store) as [Hg _].
  - apply reach_load, reach_create.
  - apply Hg. vm_compute. reflexivity.
Defined.

(** X3. A store reached by loads that is not marked loaded is the empty
    store it was created as: no load has happened, every index and list
    is empty. *)
Theorem unloaded_store_is_empty (s : AttackDataStore.t) :
  Reachable s ->
  AttackDataStore.isLoaded s = false ->
  s = AttackDataStore.create (AttackDataStore.config s).
Proof.
  intros Hs. destruct Hs as [cfg | bundles s Hs]; simpl.
  - reflexivity.
  - discriminate.
Qed.

Lemma unloaded_store_is_empty_witness :
  AttackDataStore.create Sample.cfg
  = AttackDataStore.create
      (AttackDataStore.config (AttackDataStore.create Sample.cfg)).
Proof.
  apply unloaded_store_is_empty; [apply reach_create | reflexivity].
Defined.

(** X4. The joins that return techniques or mitigations return none that
    is deprecated or revoked: the used techniques of a group or of a
    software, the techniques of a mitigation, the techniques a data
    component detects, and the mitigations of a technique. *)
Theorem technique_and_mitigation_joins_return_live (s : AttackDataStore.t) :
  (forall id x usage,
     In (x, usage) (AttackDataStore.getGroupTechniques s id) ->
     Technique.deprecated x = false /\ Technique.revoked x = false)
  /\ (forall id x usage,
        In (x, usage) (AttackDataStore.getSoftwareTechniques s id) ->
        Technique.deprecated x = false /\ Technique.revoked x = false)
  /\ (forall id x d,
        In (x, d) (AttackDataStore.getTechniquesForMitigation s id) ->
        Technique.deprecated x = false /\ Technique.revoked x = false)
  /\ (forall id x,
        In x (AttackDataStore.getTechniquesDetectedByComponent s id) ->
        Technique.deprecated x = false /\ Technique.revoked x = false)
  /\ (forall id x d,
        In (x, d) (AttackDataStore.getMitigationsForTechnique s id) ->
        Mitigation.deprecated x = false /\ Mitigation.revoked x = false).
Proof.
  repeat apply conj.
  - intros id x usage. apply getGroupTechniques_live.
  - intros id x usage. apply getGroupTechniques_live.
  - intros id x d. unfold AttackDataStore.getTechniquesForMitigation.
    destruct (JsMap.get _ _) as [mit|]; [|intros []].
    rewrite in_join. intros [r [_ [_ H]]]. eapply technique_entry_live, H.
  - intros id x. unfold AttackDataStore.getTechniquesDetectedByComponent.
    rewrite in_filter_null, in_map_iff. intros [k [H _]].
    destruct (JsMap.get k _) as [y|]; [|discriminate].
    destruct (Technique.deprecated y) eqn:D, (Technique.revoked y) eqn:R;
      simpl in H; try discriminate.
    injection H as <-. auto.
  - intros id x d. apply getMitigationsForTechnique_live.
Qed.

Lemma technique_and_mitigation_joins_return_live_witness :
  Technique.deprecated (technique_of Sample.t1059) = false
  /\ Technique.revoked (technique_of Sample.t1059) = false.
Proof.
  destruct (technique_and_mitigation_joins_return_live Sample.store)
    as [Hg _].
  apply (Hg "intrusion-set--apt28"%string (technique_of Sample.t1059)
            ""%string).
  vm_compute. left. reflexivity.
Defined.

(* ================================================================= *)
(** ** Sub-techniques and tactics *)

Lemma listed_technique_parent (s : AttackDataStore.t) (x : Technique.t) :
  Reachable s ->
  In x (AttackDataStore.getAllTechniques s false) -> parent_derived x.
Proof.
  intros Hs Hin. apply Reachable_Consistent in Hs.
  unfold AttackDataStore.getAllTechniques in Hin.
  apply filter_In in Hin. destruct Hin as [Hin _].
  unfold JsMap.values in Hin. apply in_map_iff in Hin.
  destruct Hin as [kv [<- Hin]].
  pose proof (parents_derived Hs) as Hp. rewrite Forall_forall in Hp.
  exact (Hp _ Hin).
Qed.

(** X5. In a store reached by loads [getSubtechniques] returns exactly
    the listed (not deprecated, not revoked) sub-techniques whose public
    ID, cut before its first '.', is the upper-cased argument; so the
    argument may be given in any letter case. *)
Theorem getSubtechniques_are_the_children (s : AttackDataStore.t)
  (parentId : string) (x : Technique.t) :
  Reachable s ->
  (In x (AttackDataStore.getSubtechniques s parentId)
   <-> In x (AttackDataStore.getAllTechniques s false)
       /\ Technique.isSubtechnique x = true
       /\ truncate_before "." (Technique.id x) = Js.toUpperCase parentId).
Proof.
  intros Hs. unfold AttackDataStore.getSubtechniques. rewrite filter_In.
  split.
  - intros [Hin Hp]. pose proof (@listed_technique_parent s x Hs Hin) as Hd.
    unfold parent_derived in Hd. rewrite Hd in Hp.
    destruct (Technique.isSubtechnique x); [|discriminate].
    apply String.eqb_eq in Hp. auto.
  - intros [Hin [Hsub Hcut]]. split; [exact Hin|].
    pose proof (@listed_technique_parent s x Hs Hin) as Hd.
    unfold parent_derived in Hd. rewrite Hd, Hsub. now apply String.eqb_eq.
Qed.

Lemma getSubtechniques_are_the_children_witness :
  In (technique_of Sample.t1059_001)
     (AttackDataStore.getSubtechniques Sample.store "t1059").
Proof.
  apply getSubtechniques_are_the_children.
  - apply reach_load, reach_create.
  - split; [|split]; [|reflexivity|reflexivity].
    vm_compute. right. left. reflexivity.
Defined.

(** X6. For a tactic name that is not empty [getTechniquesForTactic]
    returns the list [searchTechniques] returns for that name as its
    only filter. For the empty name the two differ: the search applies
    no filter, [getTechniquesForTactic] keeps only the techniques that
    carry an empty tactic name. *)
Theorem getTechniquesForTactic_is_the_tactic_search (s : AttackDataStore.t) :
  (forall name, name <> "" ->
     AttackDataStore.getTechniquesForTactic s name
     = AttackDataStore.searchTechniques s
         {| ts_query := None; ts_tactic := Some name; ts_platform := None;
            ts_dataSource := None; ts_isSubtechnique := None |})
  /\ (forall x, In x (AttackDataStore.getTechniquesForTactic s "")
                <-> In x (AttackDataStore.getAllTechniques s false)
                    /\ In ""%string (Technique.tactics x)).
Proof.
  split.
  - intros name Hne. unfold AttackDataStore.searchTechniques.
    cbn [ts_query ts_tactic ts_platform ts_dataSource ts_isSubtechnique].
    apply truthy_true in Hne. now rewrite Hne.
  - intros x. unfold AttackDataStore.getTechniquesForTactic.
    rewrite filter_In. unfold AttackDataStore.some_eq_lower.
    rewrite existsb_exists. simpl. split.
    + intros [Hin [ta [Hta Heq]]]. split; [exact Hin|].
      apply String.eqb_eq in Heq. destruct ta; [exact Hta | discriminate].
    + intros [Hin Hta]. split; [exact Hin|]. exists ""%string. auto.
Qed.

Lemma getTechniquesForTactic_is_the_tactic_search_witness :
  AttackDataStore.getTechniquesForTactic Sample.store "Execution"
  = AttackDataStore.searchTechniques Sample.store
      {| ts_query := None; ts_tactic := Some "Execution"; ts_platform := None;
         ts_dataSource := None; ts_isSubtechnique := None |}.
Proof.
  destruct (getTechniquesForTactic_is_the_tactic_search Sample.store)
    as [H _].
  apply H. discriminate.
Defined.

(* ================================================================= *)
(** ** Mitigations *)

Lemma filter_all (A : Type) (f : A -> bool) (l : list A) :
  (forall x, f x = true) -> filter f l = l.
Proof.
  intros H. induction l as [|x l IH]; simpl; [reflexivity|].
  now rewrite H, IH.
Qed.

Lemma includes_nothing (s : string) : Js.includes s "" = true.
Proof. destruct s; reflexivity. Qed.

(** X7. [searchMitigations] returns exactly the listed mitigations whose
    name or description contains the query, letter case ignored; the
    empty query returns the whole default listing. *)
Theorem searchMitigations_matches_name_or_description
  (s : AttackDataStore.t) :
  (forall query m,
     In m (AttackDataStore.searchMitigations s query)
     <-> In m (AttackDataStore.getAllMitigations s false)
         /\ (keyword_matches query (Mitigation.name m)
             \/ keyword_matches query (Mitigation.description m)))
  /\ AttackDataStore.searchMitigations s ""
     = AttackDataStore.getAllMitigations s false.
Proof.
  split.
  - intros query m. unfold AttackDataStore.searchMitigations.
    rewrite filter_In, orb_true_iff, !includes_lower_matches. tauto.
  - unfold AttackDataStore.searchMitigations. apply filter_all.
    intros m. simpl. now rewrite includes_nothing.
Qed.

Example search_mitigations_sample :
  map Mitigation.id (AttackDataStore.searchMitigations Sample.store "PREVENT")
  = ["M1038"].
Proof. reflexivity. Qed.

(** X8. A "mitigates" edge shows in both mitigation queries. If the
    mitigation and the technique at its two ends are found under their
    public IDs and under their internal IDs and neither is deprecated or
    revoked, the mitigation with the edge's description is among the
    mitigations of the technique, and the technique with that
    description among the techniques of the mitigation. *)
Theorem mitigates_edge_in_both_results (s : AttackDataStore.t)
  (r : Relationship.t) (M : Mitigation.t) (T : Technique.t)
  (mitigationId techniqueId : string) :
  In r (AttackDataStore.relationships s) ->
  Relationship.relationshipType r = "mitigates" ->
  AttackDataStore.getMitigation s mitigationId = Some M ->
  AttackDataStore.getTechnique s techniqueId = Some T ->
  Mitigation.stixId M = Relationship.sourceRef r ->
  Technique.stixId T = Relationship.targetRef r ->
  JsMap.get (Relationship.sourceRef r) (AttackDataStore.mitigationsByStixId s)
  = Some M ->
  AttackDataStore.getTechniqueByStixId s (Relationship.targetRef r) = Some T ->
  Mitigation.deprecated M = false -> Mitigation.revoked M = false ->
  Technique.deprecated T = false -> Technique.revoked T = false ->
  In (M, Relationship.description r)
     (AttackDataStore.getMitigationsForTechnique s techniqueId)
  /\ In (T, Relationship.description r)
        (AttackDataStore.getTechniquesForMitigation s mitigationId).
Proof.
  intros Hin Hty HM HT HsM HsT HMs HTs HdM HrM HdT HrT.
  unfold AttackDataStore.getMitigationsForTechnique,
    AttackDataStore.getTechniquesForMitigation.
  unfold AttackDataStore.getMitigation in HM.
  unfold AttackDataStore.getTechnique in HT.
  unfold AttackDataStore.getTechniqueByStixId in HTs.
  rewrite HM, HT. split; apply in_join; exists r; (split; [exact Hin|]).
  - split.
    + now rewrite HsT, Hty, !String.eqb_refl.
    + unfold AttackDataStore.mitigation_entry. now rewrite HMs, HdM, HrM.
  - split.
    + now rewrite HsM, Hty, !String.eqb_refl.
    + unfold AttackDataStore.technique_entry. now rewrite HTs, HdT, HrT.
Qed.

Lemma mitigates_edge_in_both_results_witness :
  In (mitigation_of Sample.m1038, ""%string)
     (AttackDataStore.getMitigationsForTechnique Sample.store "t1059")
  /\ In (technique_of Sample.t1059, ""%string)
        (AttackDataStore.getTechniquesForMitigation Sample.store "m1038").
Proof.
  apply (@mitigates_edge_in_both_results Sample.store
           (relationship_of
              (Sample.relationship "rel--5" "mitigates"
                                   "course-of-action--m1038"
                                   "attack-pattern--t1059"))
           (mitigation_of Sample.m1038) (technique_of Sample.t1059)
           "m1038" "t1059").
  - vm_compute. do 4 right. left. reflexivity.
  - reflexivity.
  - vm_compute. reflexivity.
  - vm_compute. reflexivity.
  - reflexivity.
  - reflexivity.
  - vm_compute. reflexivity.
  - vm_compute. reflexivity.
  - reflexivity.
  - reflexivity.
  - reflexivity.
  - reflexivity.
Defined.

(** X9. A [technique] filter that names no technique of the store empties
    the result of [searchGroups] and of [searchSoftware], whatever the
    other filters are. *)
Theorem search_by_unknown_technique_is_empty (s : AttackDataStore.t)
  (technique : string) :
  technique <> "" ->
  AttackDataStore.getTechnique s technique = None ->
  (forall q, AttackDataStore.searchGroups s
               {| gs_query := q; gs_technique := Some technique |} = [])
  /\ (forall q ty, AttackDataStore.searchSoftware s
                     {| ss_query := q; ss_technique := Some technique;
                        ss_type := ty |} = []).
Proof.
  intros Hne Hnone. apply truthy_true in Hne.
  unfold AttackDataStore.getTechnique in Hnone.
  split; intros;
    unfold AttackDataStore.searchGroups, AttackDataStore.searchSoftware,
      AttackDataStore.techStixId_of;
    cbn [gs_query gs_technique ss_query ss_technique ss_type];
    now rewrite Hne, Hnone.
Qed.

Lemma search_by_unknown_technique_is_empty_witness :
  AttackDataStore.searchGroups Sample.store
    {| gs_query := None; gs_technique := Some "T9999" |} = [].
Proof.
  destruct (@search_by_unknown_technique_is_empty Sample.store "T9999")
    as [H _].
  - discriminate.
  - reflexivity.
  - apply H.
Defined.

(* ================================================================= *)
(** ** Relationship helpers and statistics *)

(** X10. [getRelationshipsForObject] with direction "both" returns the
    edges that start or end at the object, and counts an edge from the
    object to itself once: the "source" and the "target" results
    together are longer by the number of such loops. *)
Theorem getRelationshipsForObject_both (s : AttackDataStore.t)
  (stixId : string) :
  (forall r,
     In r (getRelationshipsForObject s stixId Direction.both)
     <-> In r (getRelationshipsForObject s stixId Direction.source)
         \/ In r (getRelationshipsForObject s stixId Direction.target))
  /\ (List.length (getRelationshipsForObject s stixId Direction.source)
      + List.length (getRelationshipsForObject s stixId Direction.target)
      = List.length (getRelationshipsForObject s stixId Direction.both)
        + List.length
            (filter (fun r => (Relationship.targetRef r =? stixId)%string)
                    (getRelationshipsForObject s stixId Direction.source)))%nat.
Proof.
  unfold getRelationshipsForObject. split.
  - intros r. rewrite !filter_In, orb_true_iff. tauto.
  - induction (AttackDataStore.relationships s) as [|r l IH]; simpl;
      [reflexivity|].
    destruct (Relationship.sourceRef r =? stixId)%string,
      (Relationship.targetRef r =? stixId)%string eqn:E; simpl;
      rewrite ?E; simpl; lia.
Qed.

Example relationships_of_mimikatz :
  List.length (getRelationshipsForObject Sample.store "malware--mimikatz"
                                         Direction.both) = 2%nat.
Proof. reflexivity. Qed.

(* ================================================================= *)
(** ** Loads as runs of writes *)

Section Replay.

Lemma indexBundle_replay (bundle : StixBundle) (s : AttackDataStore.t) :
  AttackDataStore.indexBundle bundle s = replay (ops_of bundle) s.
Proof.
  unfold AttackDataStore.indexBundle, replay, ops_of, by_key. simpl.
  rewrite !set_each_as_set_all, !set_names_as_set_all. reflexivity.
Qed.

Lemma replay_nil (s : AttackDataStore.t) : replay ops_nil s = s.
Proof. destruct s. unfold replay. simpl. now rewrite !app_nil_r. Qed.

Lemma replay_app (a b : Ops) (s : AttackDataStore.t) :
  replay (ops_app a b) s = replay b (replay a s).
Proof.
  unfold replay, ops_app. simpl. rewrite !set_all_app, !app_assoc.
  reflexivity.
Qed.

Lemma indexBundles_replay (bundles : list StixBundle)
  (s : AttackDataStore.t) :
  AttackDataStore.indexBundles bundles s = replay (ops_all bundles) s.
Proof.
  revert s. induction bundles as [|b bs IH]; intros s; simpl.
  - now rewrite replay_nil.
  - rewrite replay_app, <- indexBundle_replay. apply IH.
Qed.

Lemma replay_twice (o : Ops) (s : AttackDataStore.t) :
  Indexed s -> same_indices (replay o (replay o s)) (replay o s).
Proof.
  intros H. unfold same_indices, replay. simpl.
  repeat apply conj; apply set_all_twice; apply H.
Qed.

Lemma Indexed_replay (bundles : list StixBundle) (s : AttackDataStore.t) :
  Indexed s -> Indexed (replay (ops_all bundles) s).
Proof.
  intros H. rewrite <- indexBundles_replay. now apply Indexed_indexBundles.
Qed.

Lemma found_set_all (V : Type) (ops : list (string * V)) (m : JsMap.t V)
  (k : string) :
  found (JsMap.get k m) -> found (JsMap.get k (JsMap.set_all ops m)).
Proof.
  unfold found. rewrite get_set_all.
  now destruct (last_set ops k).
Qed.

Lemma found_or_else (A : Type) (a b a' b' : option A) :
  (found a -> found a') -> (found b -> found b') ->
  found (Js.or_else a b) -> found (Js.or_else a' b').
Proof.
  unfold found. destruct a, a', b, b'; simpl; intros H1 H2 H; try congruence;
    try (exfalso; apply H1; congruence); try (exfalso; apply H2; congruence).
Qed.

Lemma last_set_absent (V : Type) (ops : list (string * V)) (k : string) :
  (forall e, In e ops -> fst e <> k) -> last_set ops k = None.
Proof.
  induction ops as [|[k' v] ops IH]; intros H; simpl; [reflexivity|].
  rewrite IH by (intros e He; apply H; now right).
  destruct (String.eqb_spec k' k) as [->|Hne]; [|reflexivity].
  exfalso. apply (H (k, v)); [now left | reflexivity].
Qed.

Lemma last_set_last (V : Type) (pre post : list (string * V)) (k : string)
  (v : V) :
  (forall e, In e post -> fst e <> k) ->
  last_set (pre ++ (k, v) :: post) k = Some v.
Proof.
  intros H. induction pre as [|[k' v'] pre IH]; simpl.
  - rewrite last_set_absent by exact H. now rewrite String.eqb_refl.
  - now rewrite IH.
Qed.

Lemma config_loadFromBundles (bundles : JsMap.t StixBundle)
  (s : AttackDataStore.t) :
  AttackDataStore.config (AttackDataStore.loadFromBundles bundles s)
  = AttackDataStore.config s.
Proof.
  unfold AttackDataStore.loadFromBundles. now rewrite indexBundles_replay.
Qed.

End Replay.

(** X11. The last load wins. After a bundle is loaded, [getTechnique]
    returns for an ID the last technique of the bundle that carries the
    ID (upper-cased argument), whatever the store held under it; for an
    ID no technique of the bundle carries it returns what it returned
    before the load. *)
Theorem getTechnique_after_load (s : AttackDataStore.t) (matrix : string)
  (bundle : StixBundle) (q : string) :
  let s' := AttackDataStore.loadFromBundles [(matrix, bundle)] s in
  ((forall x, In x (parseTechniques bundle) ->
              Technique.id x <> Js.toUpperCase q) ->
   AttackDataStore.getTechnique s' q = AttackDataStore.getTechnique s q)
  /\ (forall before x after,
        parseTechniques bundle = before ++ x :: after ->
        Technique.id x = Js.toUpperCase q ->
        (forall y, In y after -> Technique.id y <> Js.toUpperCase q) ->
        AttackDataStore.getTechnique s' q = Some x).
Proof.
  intros s'. subst s'. unfold AttackDataStore.getTechnique. simpl.
  rewrite set_each_as_set_all, get_set_all. split.
  - intros H. rewrite last_set_absent; [reflexivity|].
    intros e He. apply in_map_iff in He. destruct He as [x [<- Hx]].
    simpl. now apply H.
  - intros before x after Hparse Hid Hafter.
    rewrite Hparse, map_app. simpl. rewrite Hid.
    rewrite last_set_last; [reflexivity|].
    intros e He. apply in_map_iff in He. destruct He as [y [<- Hy]].
    simpl. now apply Hafter.
Qed.

Lemma getTechnique_after_load_witness :
  AttackDataStore.getTechnique
    (AttackDataStore.loadFromBundles [("enterprise", Sample.bundle)]
                                     Sample.store) "t1566"
  = Some (technique_of Sample.t1566).
Proof.
  destruct (getTechnique_after_load Sample.store "enterprise" Sample.bundle
                                    "t1566") as [_ H].
  apply (H [technique_of Sample.t1059; technique_of Sample.t1059_001]
           (technique_of Sample.t1566) []).
  - reflexivity.
  - reflexivity.
  - intros y [].
Defined.

(** X12. A load never takes an entity away: whatever a point lookup found
    before [loadFromBundles], it finds something after it, for every
    bundle map. *)
Theorem load_keeps_lookups_found (s : AttackDataStore.t)
  (bundles : JsMap.t StixBundle) (q : string) :
  let s' := AttackDataStore.loadFromBundles bundles s in
  (found (AttackDataStore.getTechnique s q) ->
   found (AttackDataStore.getTechnique s' q))
  /\ (found (AttackDataStore.getTechniqueByStixId s q) ->
      found (AttackDataStore.getTechniqueByStixId s' q))
  /\ (found (AttackDataStore.getTactic s q) ->
      found (AttackDataStore.getTactic s' q))
  /\ (found (AttackDataStore.getGroup s q) ->
      found (AttackDataStore.getGroup s' q))
  /\ (found (AttackDataStore.getSoftware s q) ->
      found (AttackDataStore.getSoftware s' q))
  /\ (found (AttackDataStore.getMitigation s q) ->
      found (AttackDataStore.getMitigation s' q))
  /\ (found (AttackDataStore.getDataSource s q) ->
      found (AttackDataStore.getDataSource s' q)).
Proof.
  intros s'. subst s'. unfold AttackDataStore.loadFromBundles.
  rewrite indexBundles_replay.
  unfold AttackDataStore.getTechnique, AttackDataStore.getTechniqueByStixId,
    AttackDataStore.getTactic, AttackDataStore.getGroup,
    AttackDataStore.getSoftware, AttackDataStore.getMitigation,
    AttackDataStore.getDataSource. simpl.
  repeat apply conj;
    first [ apply found_set_all
          | apply found_or_else; apply found_set_all ].
Qed.

Lemma load_keeps_lookups_found_witness :
  found (AttackDataStore.getGroup
           (AttackDataStore.loadFromBundles
              [("mobile", Sample.lowercase_bundle)] Sample.store)
           "apt28").
Proof.
  destruct (load_keeps_lookups_found Sample.store
              [("mobile"%string, Sample.lowercase_bundle)] "apt28")
    as (_ & _ & _ & Hg & _).
  apply Hg. vm_compute. discriminate.
Defined.

(** X13. In a store reached by loads every technique of the technique
    index resolves by its internal ID: [getTechniqueByStixId] returns a
    technique with that internal ID. *)
Theorem listed_technique_resolves_by_stixId (s : AttackDataStore.t)
  (x : Technique.t) :
  Reachable s ->
  In x (AttackDataStore.getAllTechniques s true) ->
  exists y,
    AttackDataStore.getTechniqueByStixId s (Technique.stixId x) = Some y
    /\ Technique.stixId y = Technique.stixId x.
Proof.
  intros Hs Hin. pose proof (Reachable_Consistent Hs) as Hc.
  pose proof (Reachable_Indexed Hs) as Hi.
  unfold AttackDataStore.getAllTechniques, JsMap.values in Hin.
  apply in_map_iff in Hin. destruct Hin as [kv [<- Hin]].
  pose proof (stix_resolvable Hc) as Hres. rewrite Forall_forall in Hres.
  specialize (Hres _ Hin). unfold AttackDataStore.getTechniqueByStixId.
  destruct (JsMap.get (Technique.stixId (snd kv))
                      (AttackDataStore.techniquesByStixId s)) as [y|] eqn:E.
  - exists y. split; [reflexivity|].
    exact (@keyed_get _ _ _ _ _ (key_techniquesByStixId Hi) E).
  - apply get_none_iff in E. contradiction.
Qed.

Lemma listed_technique_resolves_by_stixId_witness :
  exists y,
    AttackDataStore.getTechniqueByStixId
      Sample.store (Technique.stixId (technique_of Sample.t1566)) = Some y
    /\ Technique.stixId y = Technique.stixId (technique_of Sample.t1566).
Proof.
  apply listed_technique_resolves_by_stixId.
  - apply reach_load, reach_create.
  - vm_compute. do 2 right. left. reflexivity.
Defined.

(** X14. Loading the same map of bundles a second time, whatever the
    number of bundles in it, changes no index and no answer: the fifteen
    indices are the same maps, every point lookup returns the same
    entity and every composite query the same set of entries; the
    relationship list grows by the parsed edges of all the bundles. *)
Theorem reload_of_bundle_map_idempotent (s : AttackDataStore.t)
  (bundles : JsMap.t StixBundle) :
  Reachable s ->
  let once := AttackDataStore.loadFromBundles bundles s in
  let twice := AttackDataStore.loadFromBundles bundles once in
  same_indices twice once
  /\ SameAnswers twice once
  /\ AttackDataStore.relationships twice
     = AttackDataStore.relationships once
       ++ flat_map parseRelationships (JsMap.values bundles).
Proof.
  intros Hs once twice. apply Reachable_Indexed in Hs.
  assert (Hrel : forall bl,
             o_relationships (ops_all bl) = flat_map parseRelationships bl).
  { induction bl as [|b bl IH]; simpl; [reflexivity | now rewrite IH]. }
  assert (Hidx : same_indices twice once).
  { subst once twice. unfold AttackDataStore.loadFromBundles.
    rewrite !indexBundles_replay.
    exact (replay_twice (ops_all (JsMap.values bundles)) Hs). }
  split; [exact Hidx|]. split.
  - apply same_indices_answers; [exact Hidx | |].
    + intros r. subst once twice. unfold AttackDataStore.loadFromBundles.
      rewrite !indexBundles_replay. simpl. rewrite !in_app_iff. tauto.
    + intros d. subst once twice. unfold AttackDataStore.loadFromBundles.
      rewrite !indexBundles_replay. simpl. rewrite !in_app_iff. tauto.
  - subst once twice. unfold AttackDataStore.loadFromBundles.
    rewrite !indexBundles_replay. simpl. now rewrite Hrel.
Qed.

Lemma reload_of_bundle_map_idempotent_witness :
  let bundles := [("enterprise"%string, Sample.bundle);
                  ("mobile"%string, Sample.lowercase_bundle)] in
  let once :=
    AttackDataStore.loadFromBundles bundles
                                    (AttackDataStore.create Sample.cfg) in
  same_indices (AttackDataStore.loadFromBundles bundles once) once.
Proof.
  intros bundles once.
  destruct (@reload_of_bundle_map_idempotent
              (AttackDataStore.create Sample.cfg) bundles
              (reach_create Sample.cfg)) as [H _].
  exact H.
Defined.

Section Doubling.

Lemma join_over_app (A B : Type) (p : B -> bool) (f : B -> option A)
  (l1 l2 : list B) :
  filter_null (map f (filter p (l1 ++ l2)))
  = filter_null (map f (filter p l1)) ++ filter_null (map f (filter p l2)).
Proof.
  rewrite filter_app, map_app.
  induction (map f (filter p l1)) as [|[x|] l IH]; simpl;
    [reflexivity | now rewrite IH | exact IH].
Qed.

(** With the same indices and every edge and data component twice, the
    list results are the old results twice. *)
Lemma doubled_lists (a b : AttackDataStore.t) :
  same_indices a b ->
  AttackDataStore.relationships a
  = AttackDataStore.relationships b ++ AttackDataStore.relationships b ->
  AttackDataStore.dataComponents a
  = AttackDataStore.dataComponents b ++ AttackDataStore.dataComponents b ->
  (forall id, AttackDataStore.getGroupTechniques a id
              = AttackDataStore.getGroupTechniques b id
                ++ AttackDataStore.getGroupTechniques b id)
  /\ (forall id, AttackDataStore.getGroupSoftware a id
                 = AttackDataStore.getGroupSoftware b id
                   ++ AttackDataStore.getGroupSoftware b id)
  /\ (forall id, AttackDataStore.getMitigationsForTechnique a id
                 = AttackDataStore.getMitigationsForTechnique b id
                   ++ AttackDataStore.getMitigationsForTechnique b id)
  /\ (forall id, AttackDataStore.getComponentsForDataSource a id
                 = AttackDataStore.getComponentsForDataSource b id
                   ++ AttackDataStore.getComponentsForDataSource b id).
Proof.
  destruct a, b. unfold same_indices. simpl.
  intros (-> & -> & -> & -> & -> & -> & -> & -> & -> & -> & -> & -> & -> & ->
          & ->) -> ->.
  repeat apply conj; intros id;
    unfold AttackDataStore.getGroupTechniques,
      AttackDataStore.getGroupSoftware,
      AttackDataStore.getMitigationsForTechnique,
      AttackDataStore.getComponentsForDataSource,
      AttackDataStore.technique_entry, AttackDataStore.mitigation_entry;
    simpl.
  - apply join_over_app.
  - apply join_over_app.
  - destruct (JsMap.get _ _); [apply join_over_app | reflexivity].
  - apply filter_app.
Qed.

End Doubling.

(** X15. The lists are not de-duplicated. Loading one bundle twice into a
    new store leaves every edge and every data component in the store
    twice, and the list results double with them: the used techniques
    and the used software of a group, the mitigations of a technique
    and the components of a data source are each the result after one
    load, twice over. *)
Theorem second_load_doubles_list_results (cfg : MitreConfig)
  (matrix : string) (bundle : StixBundle) :
  let once :=
    AttackDataStore.loadFromBundles [(matrix, bundle)]
                                    (AttackDataStore.create cfg) in
  let twice := AttackDataStore.loadFromBundles [(matrix, bundle)] once in
  AttackDataStore.getRelationships twice
  = AttackDataStore.getRelationships once
    ++ AttackDataStore.getRelationships once
  /\ AttackDataStore.getDataComponents twice
     = AttackDataStore.getDataComponents once
       ++ AttackDataStore.getDataComponents once
  /\ (forall id, AttackDataStore.getGroupTechniques twice id
                 = AttackDataStore.getGroupTechniques once id
                   ++ AttackDataStore.getGroupTechniques once id)
  /\ (forall id, AttackDataStore.getGroupSoftware twice id
                 = AttackDataStore.getGroupSoftware once id
                   ++ AttackDataStore.getGroupSoftware once id)
  /\ (forall id, AttackDataStore.getMitigationsForTechnique twice id
                 = AttackDataStore.getMitigationsForTechnique once id
                   ++ AttackDataStore.getMitigationsForTechnique once id)
  /\ (forall id, AttackDataStore.getComponentsForDataSource twice id
                 = AttackDataStore.getComponentsForDataSource once id
                   ++ AttackDataStore.getComponentsForDataSource once id).
Proof.
  intros once twice.
  assert (Hidx : same_indices twice once)
    by exact (indexBundle_twice bundle (Indexed_create cfg)).
  split; [reflexivity|]. split; [reflexivity|].
  apply doubled_lists; [exact Hidx | reflexivity | reflexivity].
Qed.

Example doubled_group_techniques :
  map (fun e => Technique.id (fst e))
      (AttackDataStore.getGroupTechniques
         (AttackDataStore.loadFromBundles [("enterprise", Sample.bundle)]
                                          Sample.store)
         "intrusion-set--apt28")
  = ["T1059"; "T1059"].
Proof. reflexivity. Qed.

(** X16. Statistics after a reload. Loading a bundle a second time into a
    store reached by loads leaves every entity count of [getStats] as it
    was and raises the relationship count by the number of edges parsed
    from the bundle. *)
Theorem getStats_after_reload (s : AttackDataStore.t) (matrix : string)
  (bundle : StixBundle) :
  Reachable s ->
  let once := AttackDataStore.loadFromBundles [(matrix, bundle)] s in
  let twice := AttackDataStore.loadFromBundles [(matrix, bundle)] once in
  Stats.techniques (getStats twice) = Stats.techniques (getStats once)
  /\ Stats.tactics (getStats twice) = Stats.tactics (getStats once)
  /\ Stats.groups (getStats twice) = Stats.groups (getStats once)
  /\ Stats.software (getStats twice) = Stats.software (getStats once)
  /\ Stats.mitigations (getStats twice) = Stats.mitigations (getStats once)
  /\ Stats.dataSources (getStats twice) = Stats.dataSources (getStats once)
  /\ Stats.relationships (getStats twice)
     = (Stats.relationships (getStats once)
        + List.length (parseRelationships bundle))%nat.
Proof.
  intros Hs once twice. apply Reachable_Indexed in Hs.
  pose proof (indexBundle_twice bundle Hs) as Hidx.
  change (same_indices twice once) in Hidx.
  assert (Hrel : AttackDataStore.relationships twice
                 = AttackDataStore.relationships once
                   ++ parseRelationships bundle) by reflexivity.
  unfold getStats, AttackDataStore.getAllTechniques,
    AttackDataStore.getAllTactics, AttackDataStore.getAllGroups,
    AttackDataStore.getAllSoftware, AttackDataStore.getAllMitigations,
    AttackDataStore.getAllDataSources.
  cbn [Stats.techniques Stats.tactics Stats.groups Stats.software
       Stats.mitigations Stats.dataSources Stats.relationships].
  rewrite Hrel, length_app.
  destruct Hidx as (-> & _ & -> & _ & -> & _ & _ & -> & _ & _ & -> & _ & ->
                    & _ & _).
  repeat split.
Qed.

Lemma getStats_after_reload_witness :
  Stats.relationships
    (getStats (AttackDataStore.loadFromBundles [("enterprise", Sample.bundle)]
                                               Sample.store))
  = (Stats.relationships (getStats Sample.store)
     + List.length (parseRelationships Sample.bundle))%nat.
Proof.
  destruct (@getStats_after_reload (AttackDataStore.create Sample.cfg)
              "enterprise" Sample.bundle (reach_create Sample.cfg))
    as (_ & _ & _ & _ & _ & _ & H).
  exact H.
Defined.

(* ================================================================= *)
(** * Further properties of the loader *)

Section Downloads.

Import Loader.

(** What a run of downloads leaves in place: the clock, the metadata
    file, what the network returns, and every cache file that already
    holds what the network returns for its matrix. *)
Lemma download_each_frame (w w' : World) (ms : list MatrixType)
  (acc : JsMap.t StixBundle) (r : Result (JsMap.t StixBundle)) :
  download_each w ms acc = (w', r) ->
  remote w' = remote w /\ now w' = now w /\ metadata w' = metadata w
  /\ (forall m b, remote w m = inl b -> cache w m = Some (Parses b) ->
                  cache w' m = Some (Parses b)).
Proof.
  revert w acc. induction ms as [|m ms IH]; intros w acc; simpl.
  - intros [= <- _]. auto.
  - unfold downloadMatrix. destruct (remote w m) as [data|message] eqn:E.
    + intros H. pose proof (IH _ _ H) as H'. simpl in H'.
      destruct H' as (Hr & Hn & Hm & Hc). repeat split; try assumption.
      intros m0 b Hb Hcache. apply Hc.
      * exact Hb.
      * destruct (MatrixType_eqb m0 m) eqn:Em; [|exact Hcache].
        assert (m0 = m) as -> by (destruct m0, m; simpl in Em; congruence).
        congruence.
    + intros [= <- _]. auto.
Qed.

(** What was downloaded is what the cache returns. *)
Lemma download_each_cached (w w' : World) (ms : list MatrixType)
  (acc bs : JsMap.t StixBundle) :
  download_each w ms acc = (w', Ok bs) -> load_each w' ms acc = Some bs.
Proof.
  revert w acc. induction ms as [|m ms IH]; intros w acc; simpl.
  - now intros [= <- <-].
  - unfold downloadMatrix. destruct (remote w m) as [data|message] eqn:E;
      [|discriminate].
    intros H. pose proof (download_each_frame _ _ _ H) as (_ & _ & _ & Hc).
    unfold loadCachedBundle. rewrite (Hc m data).
    + simpl. eapply IH. exact H.
    + exact E.
    + simpl. destruct m; reflexivity.
Qed.

(** Stamping the metadata file changes no cache file. *)
Lemma load_each_stamped (w : World) (ms : list MatrixType)
  (acc : JsMap.t StixBundle) :
  load_each (write_metadata w) ms acc = load_each w ms acc.
Proof.
  revert acc. induction ms as [|m ms IH]; intros acc; simpl; [reflexivity|].
  unfold loadCachedBundle. simpl.
  destruct (cache w m) as [[b|]|]; [apply IH | reflexivity | reflexivity].
Qed.

(** Reading the files later, or with another network, finds the same
    cache files. *)
Lemma load_each_later (w : World) (t : Z)
  (net : MatrixType -> StixBundle + string) (ms : list MatrixType)
  (acc : JsMap.t StixBundle) :
  load_each (later w t net) ms acc = load_each w ms acc.
Proof.
  revert acc. induction ms as [|m ms IH]; intros acc; simpl; [reflexivity|].
  unfold loadCachedBundle. simpl.
  destruct (cache w m) as [[b|]|]; [apply IH | reflexivity | reflexivity].
Qed.

(** A complete cache rules a failure of [initialize] out. *)
Lemma complete_cache_succeeds (w : World) (s : AttackDataStore.t)
  (bs : JsMap.t StixBundle) :
  loadCachedBundles w (matrices (AttackDataStore.config s)) = Some bs ->
  exists w' bs',
    initialize w s = (w', AttackDataStore.loadFromBundles bs' s, Ok tt)
    /\ loadCachedBundles w' (matrices (AttackDataStore.config s)) = Some bs'.
Proof.
  intros Hcache. unfold initialize.
  set (ms := matrices (AttackDataStore.config s)) in *.
  destruct (hasCachedData w ms
            && negb (isCacheStale w
                       (updateInterval (AttackDataStore.config s)))).
  - rewrite Hcache. eauto.
  - destruct (downloadAllMatrices w ms) as [w' [bs'|message]] eqn:E.
    + exists w', bs'. split; [reflexivity|].
      unfold downloadAllMatrices in E.
      destruct (download_each w ms (JsMap.empty StixBundle))
        as [w1 [bs1|msg]] eqn:E1; [|discriminate].
      injection E as <- <-. apply download_each_cached in E1.
      unfold loadCachedBundles. now rewrite load_each_stamped.
    + destruct (loadCachedBundles w' ms) as [bs'|] eqn:E'.
      * eauto.
      * apply (failed_download_keeps _ _ E) in E'. congruence.
Qed.


(** What [downloadAllMatrices] returned is what the cache returns. *)
Lemma downloaded_is_cached (w w' : World) (ms : list MatrixType)
  (bs : JsMap.t StixBundle) :
  downloadAllMatrices w ms = (w', Ok bs) -> loadCachedBundles w' ms = Some bs.
Proof.
  intros H. unfold downloadAllMatrices in H.
  destruct (download_each w ms (JsMap.empty StixBundle))
    as [w1 [bs1|msg]] eqn:E; [|discriminate].
  injection H as <- <-. apply download_each_cached in E.
  unfold loadCachedBundles. now rewrite load_each_stamped.
Qed.

End Downloads.

(** X17. What a successful download leaves behind. After
    [downloadAllMatrices] has returned its bundles the cache returns the
    same bundles, and until the configured interval has passed since the
    download, whatever the network does, [initialize] of a store
    configured with these matrices loads these bundles from the cache
    and leaves files and network untouched. *)
Theorem download_then_cache_round_trip (w w' : Loader.World)
  (ms : list MatrixType) (bs : JsMap.t StixBundle) :
  Loader.downloadAllMatrices w ms = (w', Loader.Ok bs) ->
  Loader.loadCachedBundles w' ms = Some bs
  /\ (forall t net s,
        matrices (AttackDataStore.config s) = ms ->
        (t - Loader.now w
         <= updateInterval (AttackDataStore.config s) * 1000)%Z ->
        Loader.initialize (later w' t net) s
        = (later w' t net, AttackDataStore.loadFromBundles bs s,
           Loader.Ok tt)).
Proof.
  intros H. unfold Loader.downloadAllMatrices in H.
  destruct (Loader.download_each w ms (JsMap.empty StixBundle))
    as [w1 [bs1|msg]] eqn:E; [|discriminate].
  injection H as <- <-.
  pose proof (download_each_frame _ _ _ E) as (_ & Hnow & _ & _).
  apply download_each_cached in E.
  assert (Hcache : Loader.loadCachedBundles (Loader.write_metadata w1) ms
                   = Some bs1)
    by (unfold Loader.loadCachedBundles; now rewrite load_each_stamped).
  split; [exact Hcache|].
  intros t net s Hms Hint.
  assert (Hlater : Loader.loadCachedBundles
                     (later (Loader.write_metadata w1) t net) ms = Some bs1)
    by (unfold Loader.loadCachedBundles; rewrite load_each_later;
        exact Hcache).
  unfold Loader.initialize. rewrite Hms.
  rewrite (loadCachedBundles_hasCachedData _ _ Hlater).
  assert (Hfresh : Loader.isCacheStale
                     (later (Loader.write_metadata w1) t net)
                     (updateInterval (AttackDataStore.config s)) = false).
  { unfold Loader.isCacheStale. simpl. rewrite Hnow, Z.gtb_ltb.
    apply Z.ltb_ge. exact Hint. }
  rewrite Hfresh. simpl. now rewrite Hlater.
Qed.

Lemma download_then_cache_round_trip_witness :
  Loader.loadCachedBundles
    (fst (Loader.downloadAllMatrices online_world [enterprise])) [enterprise]
  = Some [("enterprise"%string, Sample.bundle)].
Proof.
  destruct (@download_then_cache_round_trip
              online_world
              (fst (Loader.downloadAllMatrices online_world [enterprise]))
              [enterprise] [("enterprise"%string, Sample.bundle)] eq_refl)
    as [H _].
  exact H.
Defined.

(** X18. Once [initialize] has succeeded it does not fail again: the
    files it leaves behind hold a readable cache of every configured
    matrix, so a later [initialize] of the resulting store returns
    without failure at any time and with any network. *)
Theorem initialize_succeeds_again (w w' : Loader.World)
  (s s' : AttackDataStore.t) :
  Loader.initialize w s = (w', s', Loader.Ok tt) ->
  forall t net,
    exists w'' s'',
      Loader.initialize (later w' t net) s' = (w'', s'', Loader.Ok tt).
Proof.
  intros H t net.
  assert (Hdone : exists bs,
             Loader.loadCachedBundles
               w' (matrices (AttackDataStore.config s)) = Some bs
             /\ s' = AttackDataStore.loadFromBundles bs s).
  { unfold Loader.initialize in H.
    set (ms := matrices (AttackDataStore.config s)) in *.
    destruct (Loader.hasCachedData w ms
              && negb (Loader.isCacheStale
                         w (updateInterval (AttackDataStore.config s)))).
    - destruct (Loader.loadCachedBundles w ms) as [bs|] eqn:E.
      + injection H as <- <-. eauto.
      + destruct (Loader.downloadAllMatrices w ms) as [w1 [bs|message]] eqn:D.
        * injection H as <- <-. exists bs. split; [|reflexivity].
          exact (downloaded_is_cached _ _ D).
        * destruct (Loader.loadCachedBundles w1 ms) as [bs|] eqn:E';
            [|discriminate].
          injection H as <- <-. eauto.
    - destruct (Loader.downloadAllMatrices w ms) as [w1 [bs|message]] eqn:D.
      + injection H as <- <-. exists bs. split; [|reflexivity].
        exact (downloaded_is_cached _ _ D).
      + destruct (Loader.loadCachedBundles w1 ms) as [bs|] eqn:E';
          [|discriminate].
        injection H as <- <-. eauto. }
  destruct Hdone as [bs [Hcache ->]].
  assert (Hlater : Loader.loadCachedBundles
                     (later w' t net)
                     (matrices
                        (AttackDataStore.config
                           (AttackDataStore.loadFromBundles bs s)))
                   = Some bs)
    by (rewrite config_loadFromBundles; unfold Loader.loadCachedBundles;
        rewrite load_each_later; exact Hcache).
  destruct (complete_cache_succeeds _ _ Hlater) as [w'' [bs' [Hinit _]]].
  eauto.
Qed.

Lemma initialize_succeeds_again_witness :
  exists w'' s'',
    Loader.initialize
      (later Sample.offline_world 2000000000000%Z (fun _ => inr "down"%string))
      Sample.store
    = (w'', s'', Loader.Ok tt).
Proof.
  apply (@initialize_succeeds_again
           Sample.offline_world Sample.offline_world
           (AttackDataStore.create Sample.cfg) Sample.store).
  reflexivity.
Defined.



(** X20. With no matrix configured [initialize] cannot fail: it finds
    nothing to read and nothing to fetch, marks the store loaded and
    leaves every index and list as it was. *)
Theorem initialize_without_matrices (w : Loader.World)
  (s : AttackDataStore.t) :
  matrices (AttackDataStore.config s) = [] ->
  exists w',
    Loader.initialize w s = (w', AttackDataStore.set_loaded s, Loader.Ok tt)
    /\ Loader.cache w' = Loader.cache w.
Proof.
  intros Hms. unfold Loader.initialize. rewrite Hms. simpl.
  destruct (Loader.isCacheStale w _); simpl; eauto.
Qed.

Lemma initialize_without_matrices_witness :
  exists w',
    Loader.initialize
      Sample.bare_world
      (AttackDataStore.create
         {| dataDir := "/tmp/mitre"; matrices := []; updateInterval := 0 |})
    = (w',
       AttackDataStore.set_loaded
         (AttackDataStore.create
            {| dataDir := "/tmp/mitre"; matrices := [];
               updateInterval := 0 |}),
       Loader.Ok tt)
    /\ Loader.cache w' = Loader.cache Sample.bare_world.
Proof.
  apply initialize_without_matrices. reflexivity.
Defined.

(* ================================================================= *)
(** * Further properties of the parser *)

(** X21. The public ID comes from the first reference of the authority
    "mitre-attack" and from no other: references before it are skipped,
    references after it are not read, even when the first one carries no
    ID. Without a reference list, or without such a reference, the ID is
    the empty string. *)
Theorem getExternalId_first_mitre_reference :
  getExternalId None = ""
  /\ (forall refs,
        (forall r, In r refs -> source_name r <> "mitre-attack") ->
        getExternalId (Some refs) = "")
  /\ (forall before r after,
        (forall r', In r' before -> source_name r' <> "mitre-attack") ->
        source_name r = "mitre-attack" ->
        getExternalId (Some (before ++ r :: after))
        = Js.or_default (external_id r) "").
Proof.
  split; [reflexivity|]. split.
  - intros refs H. unfold getExternalId.
    destruct (find _ refs) as [r|] eqn:E; [|reflexivity].
    apply find_some in E. destruct E as [Hin Heq].
    apply String.eqb_eq in Heq. now apply H in Hin.
  - intros before r after Hbefore Hr. unfold getExternalId.
    induction before as [|r' before IH]; simpl.
    + now rewrite Hr.
    + assert (Hne : source_name r' <> "mitre-attack"%string)
        by (apply Hbefore; now left).
      apply String.eqb_neq in Hne. rewrite Hne. apply IH.
      intros r0 H0. apply Hbefore. now right.
Qed.

Example external_id_of_first_reference :
  getExternalId
    (Some [ {| source_name := "capec"; external_id := Some "CAPEC-1";
               url := None |};
            {| source_name := "mitre-attack"; external_id := None;
               url := None |};
            {| source_name := "mitre-attack"; external_id := Some "T1059";
               url := None |} ])
  = "".
Proof. reflexivity. Qed.

Section Names.

Lemma named_has_name (ty : string) (obj : Stix.Object) :
  named_of_type ty obj = true -> Js.or_default (Stix.name obj) "" <> "".
Proof.
  unfold named_of_type. rewrite andb_true_iff. intros [_ H].
  destruct (Stix.name obj) as [n|]; simpl in *; [|discriminate].
  rewrite H. now apply truthy_true.
Qed.

Lemma parsed_named (V : Type) (of_object : Stix.Object -> V)
  (name : V -> string) (ty : string) (l : list Stix.Object) (x : V) :
  (forall obj, name (of_object obj) = Js.or_default (Stix.name obj) "") ->
  In x (map of_object (filter (named_of_type ty) l)) -> name x <> "".
Proof.
  intros Hname Hin. apply in_map_iff in Hin. destruct Hin as [obj [<- Hobj]].
  apply filter_In in Hobj. rewrite Hname.
  eapply named_has_name, Hobj.
Qed.

End Names.

(** X22. The parser returns no entity without a name: every technique,
    tactic, group, software, mitigation, data source and data component
    it produces from any bundle has a name that is not empty. *)
Theorem parsed_entities_are_named (bundle : StixBundle) :
  (forall x, In x (parseTechniques bundle) -> Technique.name x <> "")
  /\ (forall order x, In x (parseTactics bundle order) -> Tactic.name x <> "")
  /\ (forall x, In x (parseGroups bundle) -> Group.name x <> "")
  /\ (forall x, In x (parseSoftware bundle) -> Software.name x <> "")
  /\ (forall x, In x (parseMitigations bundle) -> Mitigation.name x <> "")
  /\ (forall x, In x (parseDataSources bundle) -> DataSource.name x <> "")
  /\ (forall x, In x (parseDataComponents bundle) ->
                DataComponent.name x <> "").
Proof.
  repeat apply conj.
  - intros x. now apply parsed_named.
  - intros order x Hin. unfold parseTactics in Hin.
    apply in_sort_any in Hin.
    revert Hin. now apply parsed_named.
  - intros x. now apply parsed_named.
  - intros x Hin. unfold parseSoftware in Hin. apply in_app_iff in Hin.
    destruct Hin as [Hin|Hin]; revert Hin; now apply parsed_named.
  - intros x. now apply parsed_named.
  - intros x. now apply parsed_named.
  - intros x. now apply parsed_named.
Qed.

Lemma parsed_entities_are_named_witness :
  Group.name (group_of Sample.apt28) <> "".
Proof.
  destruct (parsed_entities_are_named Sample.bundle) as (_ & _ & Hg & _).
  apply Hg. left. reflexivity.
Defined.

Section StableSort.

Variable A : Type.
Variable key : A -> Z.

Let cmp (a b : A) : Z := (key a - key b)%Z.

Lemma insert_sorted_perm (x : A) (l : list A) :
  Permutation (Js.insert_sorted cmp x l) (x :: l).
Proof.
  induction l as [|y l IH]; simpl; [reflexivity|].
  destruct (cmp x y <=? 0)%Z; [reflexivity|].
  rewrite IH. apply perm_swap.
Qed.

Lemma sort_perm (l : list A) : Permutation (Js.sort cmp l) l.
Proof.
  induction l as [|x l IH]; simpl; [reflexivity|].
  rewrite insert_sorted_perm. now constructor.
Qed.

Lemma insert_sorted_class (n : Z) (x : A) (l : list A) :
  filter (fun a => (key a =? n)%Z) (Js.insert_sorted cmp x l)
  = filter (fun a => (key a =? n)%Z) (x :: l).
Proof.
  induction l as [|y l IH]; simpl; [reflexivity|].
  destruct (cmp x y <=? 0)%Z eqn:E; [reflexivity|].
  apply Z.leb_gt in E. unfold cmp in E. simpl. rewrite IH. simpl.
  destruct (key x =? n)%Z eqn:Ex, (key y =? n)%Z eqn:Ey; try reflexivity.
  apply Z.eqb_eq in Ex, Ey. lia.
Qed.

(** The sort is stable: the elements of one key keep their order. *)
Lemma sort_stable (n : Z) (l : list A) :
  filter (fun a => (key a =? n)%Z) (Js.sort cmp l)
  = filter (fun a => (key a =? n)%Z) l.
Proof.
  induction l as [|x l IH]; simpl; [reflexivity|].
  rewrite insert_sorted_class. simpl. now rewrite IH.
Qed.

End StableSort.

Section NumericOrders.

Lemma order_in_numeric (tacticOrder : JsMap.t Z) (name : string) :
  JsObject.inherits name = false ->
  exists n, order_in tacticOrder name = Tactic.Number n.
Proof.
  intros H. unfold order_in, JsObject.get.
  destruct (JsMap.get name tacticOrder) as [n|]; [eauto|].
  rewrite H. eauto.
Qed.

(** On tactics that all have a number, the comparator is the difference
    of the numbers. *)
Lemma sort_by_rank (l : list Tactic.t) :
  Forall (fun x => exists n, Tactic.order x = Tactic.Number n) l ->
  Js.sort by_order l = Js.sort (fun a b => (rank a - rank b)%Z) l.
Proof.
  intros H. apply sort_ext_in. intros a b Ha Hb.
  rewrite Forall_forall in H.
  destruct (H a Ha) as [x Hx]. destruct (H b Hb) as [y Hy].
  unfold by_order, rank. now rewrite Hx, Hy.
Qed.

Lemma numeric_sorted (l : list Tactic.t) :
  Forall (fun x => exists n, Tactic.order x = Tactic.Number n) l ->
  StronglySorted (fun a b => order_le (Tactic.order a) (Tactic.order b))
                 (Js.sort by_order l).
Proof.
  intros H. rewrite (sort_by_rank H).
  assert (Hnum : Forall (fun x => exists n, Tactic.order x = Tactic.Number n)
                        (Js.sort (fun a b => (rank a - rank b)%Z) l)).
  { rewrite Forall_forall in *. intros x Hx. apply H.
    now apply in_sort_any in Hx. }
  pose proof (sort_sorted rank l) as Hs.
  induction Hs as [|z l' Hl IH Hz]; [constructor|].
  inversion Hnum as [|? ? [n Hn] Hrest]; subst.
  constructor; [now apply IH|].
  rewrite Forall_forall in *. intros y Hy.
  destruct (Hrest y Hy) as [m Hm]. specialize (Hz y Hy).
  unfold rank in Hz. rewrite Hn, Hm in Hz. unfold order_le.
  now rewrite Hn, Hm.
Qed.

Lemma numeric_stable (n : Z) (l : list Tactic.t) :
  Forall (fun x => exists n, Tactic.order x = Tactic.Number n) l ->
  filter (has_order n) (Js.sort by_order l) = filter (has_order n) l.
Proof.
  intros H. rewrite (sort_by_rank H).
  assert (Hagree : forall l',
             Forall (fun x => exists n, Tactic.order x = Tactic.Number n) l' ->
             filter (has_order n) l'
             = filter (fun x => (rank x =? n)%Z) l').
  { intros l' H'. apply filter_ext_in. intros x Hx.
    rewrite Forall_forall in H'. destruct (H' x Hx) as [m Hm].
    unfold has_order, rank. now rewrite Hm. }
  rewrite (Hagree l H), <- (sort_stable rank n l).
  apply Hagree. rewrite Forall_forall in *. intros x Hx. apply H.
  now apply in_sort_any in Hx.
Qed.

End NumericOrders.

(** X23. [parseTactics] loses and invents no tactic: its result is a
    permutation of the tactics of the named tactic objects. When no
    short name among them is a property name that the order table
    inherits, every order is a number, the result is ascending by order,
    and ties keep the bundle order: the tactics of any one order stand
    in the result as they stand in the bundle. *)
Theorem parseTactics_is_a_stable_permutation (bundle : StixBundle)
  (tacticOrder : JsMap.t Z) :
  let parsed :=
    map (tactic_of tacticOrder)
        (filter (named_of_type "x-mitre-tactic") (objects bundle)) in
  Permutation (parseTactics bundle tacticOrder) parsed
  /\ (Forall plainly_named parsed ->
      StronglySorted (fun a b => order_le (Tactic.order a) (Tactic.order b))
                     (parseTactics bundle tacticOrder)
      /\ forall n,
           filter (has_order n) (parseTactics bundle tacticOrder)
           = filter (has_order n) parsed).
Proof.
  intros parsed. unfold parseTactics. fold parsed. split.
  - apply sort_any_perm.
  - intros Hplain.
    assert (Hnum : Forall (fun x => exists n, Tactic.order x = Tactic.Number n)
                          parsed).
    { rewrite Forall_forall in *. intros x Hx. specialize (Hplain x Hx).
      unfold parsed in Hx. apply in_map_iff in Hx.
      destruct Hx as [o [<- _]]. now apply order_in_numeric. }
    split.
    + now apply numeric_sorted.
    + intros n. now apply numeric_stable.
Qed.

Lemma parseTactics_is_a_stable_permutation_witness :
  map Tactic.name
      (filter (has_order 99)
         (parseTactics
            {| objects :=
                 [ Sample.tactic "x-mitre-tactic--b" "Beta" "beta" "TA9002";
                   Sample.tactic "x-mitre-tactic--ex" "Execution" "execution"
                                 "TA0002";
                   Sample.tactic "x-mitre-tactic--a" "Alpha" "alpha"
                                 "TA9001" ] |}
            ENTERPRISE_TACTIC_ORDER))
  = ["Beta"; "Alpha"].
Proof.
  destruct (parseTactics_is_a_stable_permutation
              {| objects :=
                   [ Sample.tactic "x-mitre-tactic--b" "Beta" "beta" "TA9002";
                     Sample.tactic "x-mitre-tactic--ex" "Execution"
                                   "execution" "TA0002";
                     Sample.tactic "x-mitre-tactic--a" "Alpha" "alpha"
                                   "TA9001" ] |}
              ENTERPRISE_TACTIC_ORDER) as [_ H].
  destruct H as [_ Hstable].
  - repeat constructor.
  - rewrite Hstable. reflexivity.
Defined.

Example unknown_tactics_keep_bundle_order :
  map Tactic.name
      (parseTactics
         {| objects :=
              [ Sample.tactic "x-mitre-tactic--b" "Beta" "beta" "TA9002";
                Sample.tactic "x-mitre-tactic--ex" "Execution" "execution"
                              "TA0002";
                Sample.tactic "x-mitre-tactic--a" "Alpha" "alpha" "TA9001" ] |}
         ENTERPRISE_TACTIC_ORDER)
  = ["Execution"; "Beta"; "Alpha"].
Proof. reflexivity. Qed.

(* ================================================================= *)
(** * The configuration and the alert mapping tool *)

Section ConfiguredMatrices.

Lemma matrix_of_name_some (name : string) (m : MatrixType) :
  Config.matrix_of_name name = Some m <-> name = Loader.matrix_name m.
Proof.
  unfold Config.matrix_of_name.
  destruct (String.eqb_spec name "enterprise") as [->|H1].
  - destruct m; simpl; split; congruence.
  - destruct (String.eqb_spec name "mobile") as [->|H2].
    + destruct m; simpl; split; congruence.
    + destruct (String.eqb_spec name "ics") as [->|H3].
      * destruct m; simpl; split; congruence.
      * destruct m; simpl; split; congruence.
Qed.

Lemma valid_matrix_name (m : MatrixType) :
  set_has Config.VALID_MATRICES (Loader.matrix_name m) = true.
Proof. destruct m; reflexivity. Qed.

Lemma in_valid_matrices (names : list string) (m : MatrixType) :
  In m (filter_null
          (map Config.matrix_of_name
               (filter (set_has Config.VALID_MATRICES) names)))
  <-> In (Loader.matrix_name m) names.
Proof.
  rewrite in_filter_null, in_map_iff. split.
  - intros [name [Hm Hin]]. apply matrix_of_name_some in Hm. subst name.
    apply filter_In in Hin. tauto.
  - intros Hin. exists (Loader.matrix_name m). split.
    + now apply matrix_of_name_some.
    + apply filter_In. split; [exact Hin | apply valid_matrix_name].
Qed.

Lemma valid_name_is_matrix (name : string) :
  set_has Config.VALID_MATRICES name = true ->
  exists m, Config.matrix_of_name name = Some m.
Proof.
  unfold set_has. intros H. apply existsb_exists in H.
  destruct H as [y [Hin Heq]]. apply String.eqb_eq in Heq. subst y.
  destruct Hin as [<-|[<-|[<-|[]]]]; eexists; reflexivity.
Qed.

(** The filter and the cast of [loadConfig] go through the items one by
    one. *)
Lemma valid_named_in_order (items : list string) :
  Config.named_in_order items
    (filter_null
       (map Config.matrix_of_name
            (filter (set_has Config.VALID_MATRICES)
                    (map (fun m => Js.toLowerCase (Config.trim m)) items)))).
Proof.
  induction items as [|item items IH]; [constructor|].
  cbn [map filter].
  destruct (set_has Config.VALID_MATRICES (Js.toLowerCase (Config.trim item)))
    eqn:E.
  - destruct (valid_name_is_matrix _ E) as [m Hm].
    cbn [map filter_null]. rewrite Hm.
    apply Config.named_item; [|exact IH].
    now apply matrix_of_name_some in Hm.
  - apply Config.named_skip; [|exact IH].
    intros m Hm. unfold Config.names_matrix in Hm.
    rewrite Hm, valid_matrix_name in E. discriminate.
Qed.

(** The items name their matrices in one way only. *)
Lemma named_in_order_unique (items : list string) (ms1 ms2 : list MatrixType) :
  Config.named_in_order items ms1 -> Config.named_in_order items ms2 ->
  ms1 = ms2.
Proof.
  intros H1. revert ms2.
  induction H1 as [|item items m ms Hm _ IH | item items ms Hno _ IH];
    intros ms2 H2.
  - now inversion H2.
  - inversion H2 as [|? ? m' ms' Hm' Hrest | ? ? ? Hno' Hrest]; subst.
    + f_equal; [|now apply IH].
      unfold Config.names_matrix in *. rewrite Hm in Hm'.
      destruct m, m'; simpl in Hm'; congruence.
    + now destruct (Hno' m).
  - inversion H2 as [|? ? m' ms' Hm' Hrest | ? ? ? Hno' Hrest]; subst.
    + now destruct (Hno m').
    + now apply IH.
Qed.

End ConfiguredMatrices.

(** X24. The configured matrices are never empty. For an ASCII value of
    MITRE_MATRICES (default "enterprise"), [loadConfig] returns the
    matrices that the comma-separated items name once trimmed and
    lower-cased: item by item, in the order of the items and once for
    every item that names a matrix; when no item names one it returns
    the enterprise matrix alone. *)
Theorem loadConfig_matrices_never_empty (MITRE_MATRICES : option string) :
  let raw := Js.or_default MITRE_MATRICES "enterprise" in
  let items := Js.split "," raw in
  Js.ascii_only raw ->
  Config.loadConfig_matrices MITRE_MATRICES <> []
  /\ (exists ms, Config.named_in_order items ms)
  /\ (forall ms,
        Config.named_in_order items ms ->
        Config.loadConfig_matrices MITRE_MATRICES
        = match ms with
          | [] => [enterprise]
          | _ => ms
          end)
  /\ (forall item m, In item items -> Config.names_matrix item m ->
        In m (Config.loadConfig_matrices MITRE_MATRICES))
  /\ (forall m, In m (Config.loadConfig_matrices MITRE_MATRICES) ->
        (exists item, In item items /\ Config.names_matrix item m)
        \/ (m = enterprise
            /\ forall item m', In item items ->
                               ~ Config.names_matrix item m')).
Proof.
  intros raw items _. unfold Config.loadConfig_matrices.
  fold raw. fold items.
  pose proof (valid_named_in_order items) as Hord.
  set (names := map (fun m => Js.toLowerCase (Config.trim m)) items) in *.
  assert (Hin : forall m,
             In m (filter_null
                     (map Config.matrix_of_name
                          (filter (set_has Config.VALID_MATRICES) names)))
             <-> exists item, In item items /\ Config.names_matrix item m).
  { intros m. rewrite in_valid_matrices. unfold names.
    rewrite in_map_iff. unfold Config.names_matrix.
    split; intros [item [H1 H2]]; exists item; auto. }
  destruct (filter_null _) as [|m0 ms] eqn:E.
  - split; [discriminate|]. split; [eauto|]. split.
    { intros ms' Hms'. now rewrite (named_in_order_unique Hms' Hord). }
    split.
    + intros item m Hitem Hname.
      assert (H : In m []) by (apply Hin; eauto). destruct H.
    + intros m [<-|[]]. right. split; [reflexivity|].
      intros item m' Hitem Hname.
      assert (H : In m' []) by (apply Hin; eauto). destruct H.
  - split; [discriminate|]. split; [eauto|]. split.
    { intros ms' Hms'. now rewrite (named_in_order_unique Hms' Hord). }
    split.
    + intros item m Hitem Hname. apply Hin. eauto.
    + intros m Hm. left. now apply Hin.
Qed.

Lemma loadConfig_matrices_never_empty_witness :
  In ics (Config.loadConfig_matrices (Some "mobile, ICS ,atlas")).
Proof.
  destruct (loadConfig_matrices_never_empty (Some "mobile, ICS ,atlas"%string))
    as (_ & _ & _ & H & _).
  - repeat (constructor; [reflexivity|]). constructor.
  - apply (H " ICS "%string ics).
    + vm_compute. right. left. reflexivity.
    + reflexivity.
Defined.

Example matrices_in_item_order :
  Config.loadConfig_matrices (Some "mobile, ICS ,atlas,mobile")
  = [mobile; ics; mobile]
  /\ Config.loadConfig_matrices (Some " ,atlas") = [enterprise]
  /\ Config.loadConfig_matrices None = [enterprise].
Proof. repeat split. Qed.

Section Keywords.

Import Mapping.

Lemma in_unique (seen words : list string) (w : string) :
  In w (unique seen words) -> In w words /\ ~ In w seen.
Proof.
  revert seen. induction words as [|x words IH]; intros seen; simpl; [tauto|].
  destruct (set_has seen x) eqn:E.
  - intros H. apply IH in H. tauto.
  - intros [<-|H].
    + split; [now left|]. intros Hin.
      assert (set_has seen x = true); [|congruence].
      unfold set_has. apply existsb_exists. exists x.
      split; [exact Hin | apply String.eqb_refl].
    + apply IH in H. destruct H as [H1 H2]. split; [now right|].
      intros Hin. apply H2. now right.
Qed.

Lemma unique_distinct (seen words : list string) : NoDup (unique seen words).
Proof.
  revert seen. induction words as [|x words IH]; intros seen; simpl.
  - constructor.
  - destruct (set_has seen x); [apply IH|].
    constructor; [|apply IH].
    intros H. apply in_unique in H. destruct H as [_ H]. apply H. now left.
Qed.

(** A piece of the split holds characters of the text only, and no
    separator. *)
Lemma split_runs_pieces (in_run : bool) (text piece : string) (c : ascii) :
  In piece (split_runs in_run text) ->
  In c (list_ascii_of_string piece) ->
  In c (list_ascii_of_string text) /\ is_separator c = false.
Proof.
  revert in_run piece. induction text as [|a text IH]; intros in_run piece;
    simpl.
  - intros [<-|[]] [].
  - destruct (is_separator a) eqn:E.
    + destruct in_run; simpl.
      * intros Hp Hc. destruct (IH _ _ Hp Hc). auto.
      * intros [<-|Hp] Hc; [destruct Hc|].
        destruct (IH _ _ Hp Hc). auto.
    + destruct (split_runs false text) as [|p ps] eqn:S; simpl.
      * intros [<-|[]] [<-|[]]. auto.
      * intros [<-|Hp] Hc.
        -- simpl in Hc. destruct Hc as [<-|Hc]; [auto|].
           assert (Hp : In p (split_runs false text))
             by (rewrite S; now left).
           destruct (IH false p Hp Hc). auto.
        -- assert (Hp' : In piece (split_runs false text))
             by (rewrite S; now right).
           destruct (IH false piece Hp' Hc). auto.
Qed.

Lemma lower_lower_ascii (c : ascii) :
  Js.lower_ascii (Js.lower_ascii c) = Js.lower_ascii c.
Proof. destruct c as [[] [] [] [] [] [] [] []]; reflexivity. Qed.

Lemma in_toLowerCase (s : string) (c : ascii) :
  In c (list_ascii_of_string (Js.toLowerCase s)) -> Js.lower_ascii c = c.
Proof.
  induction s as [|a s IH]; simpl; [tauto|].
  intros [<-|H]; [apply lower_lower_ascii | now apply IH].
Qed.

Lemma lowercase_chars (s : string) :
  (forall c, In c (list_ascii_of_string s) -> Js.lower_ascii c = c) ->
  Js.toLowerCase s = s.
Proof.
  induction s as [|a s IH]; simpl; intros H; [reflexivity|].
  unfold Js.toLowerCase in *. simpl.
  rewrite (H a) by now left. f_equal. apply IH. intros c Hc. apply H.
  now right.
Qed.

Lemma in_append_chars (a b : string) (c : ascii) :
  In c (list_ascii_of_string (a ++ b))
  <-> In c (list_ascii_of_string a) \/ In c (list_ascii_of_string b).
Proof.
  induction a as [|x a IH]; simpl; [tauto|]. rewrite IH. tauto.
Qed.

(** A character of the joined text is the blank or a character of one
    of the joined strings. *)
Lemma in_concat_chars (parts : list string) (c : ascii) :
  In c (list_ascii_of_string (String.concat " " parts)) ->
  c = " "%char \/ exists s, In s parts /\ In c (list_ascii_of_string s).
Proof.
  induction parts as [|p parts IH]; [intros []|].
  destruct parts as [|q parts].
  - simpl. intros H. right. exists p. auto.
  - change (String.concat " " (p :: q :: parts))
      with (p ++ " " ++ String.concat " " (q :: parts))%string.
    rewrite !in_append_chars. intros [H | [H | H]].
    + right. exists p. split; [now left | exact H].
    + left. destruct H as [<-|[]]. reflexivity.
    + destruct (IH H) as [-> | [s0 [Hs Hc]]]; [now left|].
      right. exists s0. split; [now right | exact Hc].
Qed.

Lemma in_map_string (f : ascii -> ascii) (s : string) (c : ascii) :
  In c (list_ascii_of_string (Js.map_string f s)) ->
  exists a, In a (list_ascii_of_string s) /\ c = f a.
Proof.
  induction s as [|x s IH]; simpl; [intros []|].
  intros [<-|H]; [eauto|].
  destruct (IH H) as [a [Ha ->]]. eauto.
Qed.

Lemma lower_ascii_small (a : ascii) :
  (N_of_ascii a < 128)%N -> (N_of_ascii (Js.lower_ascii a) < 128)%N.
Proof.
  destruct a as [[] [] [] [] [] [] [] []]; intros H; try reflexivity;
    exact H.
Qed.

(** The lower-cased text of ASCII strings is ASCII. *)
Lemma ascii_text (parts : list string) :
  Forall Js.ascii_only parts ->
  Js.ascii_only (Js.toLowerCase (String.concat " " parts)).
Proof.
  intros H. unfold Js.ascii_only. apply Forall_forall. intros c Hc.
  apply in_map_string in Hc. destruct Hc as [a [Ha ->]].
  apply lower_ascii_small. apply in_concat_chars in Ha.
  destruct Ha as [-> | [s0 [Hs Ha]]]; [reflexivity|].
  rewrite Forall_forall in H. specialize (H s0 Hs).
  unfold Js.ascii_only in H. rewrite Forall_forall in H. now apply H.
Qed.

End Keywords.

(** X25. The keywords of an alert whose text and indicators are ASCII.
    Every keyword [extractKeywords] returns is longer than two
    characters, is no stop word, holds no separator character, is in
    lower case and is ASCII; and no keyword is returned twice. *)
Theorem extractKeywords_are_clean (alertType : string)
  (indicators : list string) :
  Js.ascii_only alertType ->
  Forall Js.ascii_only indicators ->
  NoDup (Mapping.extractKeywords alertType indicators)
  /\ (forall kw,
        In kw (Mapping.extractKeywords alertType indicators) ->
        (2 < String.length kw)%nat
        /\ ~ In kw Mapping.stop_words
        /\ Mapping.separator_free kw
        /\ Js.toLowerCase kw = kw
        /\ Js.ascii_only kw).
Proof.
  intros Halert Hind.
  assert (Hascii : Js.ascii_only
                     (Js.toLowerCase
                        (String.concat " " (alertType :: indicators))))
    by (apply ascii_text; now constructor).
  unfold Mapping.extractKeywords. split; [apply unique_distinct|].
  intros kw H. apply in_unique in H. destruct H as [H _].
  apply filter_In in H. destruct H as [H Hstop].
  apply filter_In in H. destruct H as [Hpiece Hlen].
  split; [now apply Nat.ltb_lt in Hlen|]. split; [|split; [|split]].
  - intros Hin. apply negb_true_iff in Hstop.
    assert (set_has Mapping.stop_words kw = true); [|congruence].
    unfold set_has. apply existsb_exists. exists kw.
    split; [exact Hin | apply String.eqb_refl].
  - apply Forall_forall. intros c Hc.
    now destruct (split_runs_pieces _ _ _ c Hpiece Hc).
  - apply lowercase_chars. intros c Hc.
    destruct (split_runs_pieces _ _ _ c Hpiece Hc) as [Htext _].
    now apply in_toLowerCase in Htext.
  - unfold Js.ascii_only in *. apply Forall_forall. intros c Hc.
    destruct (split_runs_pieces _ _ _ c Hpiece Hc) as [Htext _].
    rewrite Forall_forall in Hascii. now apply Hascii.
Qed.

Lemma extractKeywords_are_clean_witness :
  (2 < String.length "powershell")%nat /\ ~ In "powershell"%string
                                              Mapping.stop_words.
Proof.
  destruct (@extractKeywords_are_clean
              "PowerShell (encoded) and the PowerShell"%string
              ["10.0.0.1"%string]) as [_ H].
  - repeat (constructor; [reflexivity|]). constructor.
  - constructor; [|constructor].
    repeat (constructor; [reflexivity|]). constructor.
  - destruct (H "powershell"%string) as (H1 & H2 & _).
    + vm_compute. left. reflexivity.
    + split; assumption.
Defined.

Section Scoring.

Import Mapping.

Lemma tally_score (weight : Z) (label field : string)
  (keywords : list string) (acc : Z * list string) :
  fst (tally weight label field keywords acc)
  = (fst acc + weight * hits keywords field)%Z.
Proof.
  unfold tally, hits. revert acc.
  induction keywords as [|kw kws IH]; intros acc; [simpl; lia|].
  cbn [fold_left filter]. rewrite IH.
  destruct (Js.includes (Js.toLowerCase field) kw); cbn [fst List.length].
  - rewrite Nat2Z.inj_succ. lia.
  - reflexivity.
Qed.

Lemma score_technique_value (keywords : list string)
  (platform : option string) (t : Technique.t) :
  score (score_technique keywords platform t)
  = (3 * hits keywords (Technique.name t)
     + hits keywords (Technique.description t)
     + 2 * hits keywords (Technique.detection t)
     + platform_bonus platform t)%Z.
Proof.
  unfold score_technique, platform_bonus. cbv zeta. cbn [score].
  destruct platform as [p|].
  - destruct (Js.truthy p && existsb _ (Technique.platforms t));
      cbn [fst]; rewrite !tally_score; cbn [fst]; lia.
  - rewrite !tally_score. cbn [fst]. lia.
Qed.

Lemma sort_ext (A : Type) (cmp1 cmp2 : A -> A -> Z) (l : list A) :
  (forall a b, cmp1 a b = cmp2 a b) -> Js.sort cmp1 l = Js.sort cmp2 l.
Proof.
  intros H. induction l as [|x l IH]; simpl; [reflexivity|].
  rewrite IH. generalize (Js.sort cmp2 l) as l'.
  induction l' as [|y l' IH']; simpl; [reflexivity|].
  now rewrite H, IH'.
Qed.

Lemma in_firstn (A : Type) (n : nat) (l : list A) (x : A) :
  In x (firstn n l) -> In x l.
Proof.
  revert n. induction l as [|y l IH]; intros n; [now rewrite firstn_nil|].
  destruct n as [|n]; simpl; [tauto|].
  intros [H|H]; [now left | right; eapply IH, H].
Qed.

Lemma firstn_sorted (A : Type) (R : A -> A -> Prop) (n : nat) (l : list A) :
  StronglySorted R l -> StronglySorted R (firstn n l).
Proof.
  intros H. revert n. induction H as [|x l Hl IH Hx]; intros n.
  - rewrite firstn_nil. constructor.
  - destruct n as [|n]; simpl; [constructor|].
    constructor; [apply IH|].
    rewrite Forall_forall in *. intros y Hy. apply Hx.
    eapply in_firstn, Hy.
Qed.

End Scoring.

(** X26. The scored list of the alert mapping tool holds at most fifteen
    entries, by descending score. Every entry is a technique of the
    default listing with a positive score, and its score is three for
    each keyword in the name, one for each in the description, two for
    each in the detection text, and one more when the technique lists
    the requested platform. *)
Theorem scored_alert_matches (s : AttackDataStore.t) (alertType : string)
  (indicators : option (list string)) (platform : option string) :
  let keywords := Mapping.extractKeywords alertType (Js.or_nil indicators) in
  let result := Mapping.scored s alertType indicators platform in
  (List.length result <= 15)%nat
  /\ StronglySorted (fun a b => (Mapping.score b <= Mapping.score a)%Z) result
  /\ (forall e, In e result ->
        In (Mapping.technique e) (AttackDataStore.getAllTechniques s false)
        /\ (0 < Mapping.score e)%Z
        /\ Mapping.score e
           = (3 * Mapping.hits keywords (Technique.name (Mapping.technique e))
              + Mapping.hits keywords
                             (Technique.description (Mapping.technique e))
              + 2 * Mapping.hits keywords
                                 (Technique.detection (Mapping.technique e))
              + Mapping.platform_bonus platform (Mapping.technique e))%Z).
Proof.
  intros keywords result. subst result. unfold Mapping.scored. fold keywords.
  set (candidates :=
         filter (fun r => (0 <? Mapping.score r)%Z)
                (map (Mapping.score_technique keywords platform)
                     (AttackDataStore.getAllTechniques s false))).
  rewrite (sort_ext (fun a b => (Mapping.score b - Mapping.score a)%Z)
                    (fun a b => (- Mapping.score a - - Mapping.score b)%Z))
    by (intros; lia).
  split; [apply firstn_le_length|]. split.
  - apply firstn_sorted.
    pose proof (sort_sorted (fun e => (- Mapping.score e)%Z) candidates) as H.
    simpl in H. eapply StronglySorted_ind with (P := fun l =>
      StronglySorted (fun a b => (Mapping.score b <= Mapping.score a)%Z) l);
      [constructor | | exact H].
    intros a l _ IH Ha. constructor; [exact IH|].
    rewrite Forall_forall in *. intros b Hb. specialize (Ha b Hb). lia.
  - intros e He. apply in_firstn in He.
    apply (proj1 (in_sort (fun e => (- Mapping.score e)%Z) _ _)) in He.
    unfold candidates in He. apply filter_In in He.
    destruct He as [He Hpos]. apply in_map_iff in He.
    destruct He as [t [<- Ht]]. cbn [Mapping.technique Mapping.score_technique].
    split; [exact Ht|]. split; [now apply Z.ltb_lt in Hpos|].
    apply score_technique_value.
Qed.

Lemma scored_alert_matches_witness :
  Forall (fun e => (0 < Mapping.score e)%Z)
         (Mapping.scored Sample.store "PowerShell phishing" None
                         (Some "windows")).
Proof.
  apply Forall_forall. intros e He.
  destruct (scored_alert_matches Sample.store "PowerShell phishing" None
                                 (Some "windows"%string)) as (_ & _ & H).
  destruct (H e He) as (_ & Hpos & _). exact Hpos.
Defined.

(* ================================================================= *)
(** * The detection coverage tool *)

Lemma set_has_in (xs : list string) (x : string) :
  set_has xs x = true <-> In x xs.
Proof.
  unfold set_has. rewrite existsb_exists. split.
  - intros [y [Hin Heq]]. apply String.eqb_eq in Heq. now subst.
  - intros Hin. exists x. split; [exact Hin | apply String.eqb_refl].
Qed.

(** X27. A technique counts as detectable exactly when it is in the
    default listing and a "detects" edge leads to its internal ID from a
    component of a data source whose name is among the available names,
    letter case ignored. *)
Theorem detectable_techniques_characterised (s : AttackDataStore.t)
  (availableDataSources : list string) (t : Technique.t) :
  In t (Coverage.detectableTechniques s availableDataSources)
  <-> In t (AttackDataStore.getAllTechniques s false)
      /\ exists name ds dc rel,
           In name availableDataSources
           /\ In ds (AttackDataStore.getAllDataSources s)
           /\ same_ignoring_case name (DataSource.name ds)
           /\ In dc (AttackDataStore.getComponentsForDataSource
                       s (DataSource.stixId ds))
           /\ In rel (AttackDataStore.getRelationships s)
           /\ Relationship.relationshipType rel = "detects"
           /\ Relationship.sourceRef rel = DataComponent.stixId dc
           /\ Relationship.targetRef rel = Technique.stixId t.
Proof.
  unfold Coverage.detectableTechniques,
    AttackDataStore.getComponentsForDataSource,
    AttackDataStore.getDataComponents. cbv zeta.
  rewrite filter_In, set_has_in, in_map_iff. split.
  - intros [Hin [rel [Htgt Hrel]]]. split; [exact Hin|].
    apply filter_In in Hrel. destruct Hrel as [Hrel Hp].
    apply andb_true_iff in Hp. destruct Hp as [Hty Hsrc].
    apply String.eqb_eq in Hty. apply set_has_in, in_map_iff in Hsrc.
    destruct Hsrc as [dc [Hdc Hdcin]]. apply filter_In in Hdcin.
    destruct Hdcin as [Hdcin Hds]. apply set_has_in, in_map_iff in Hds.
    destruct Hds as [ds [Hds Hdsin]]. apply filter_In in Hdsin.
    destruct Hdsin as [Hdsin Hname]. apply set_has_in, in_map_iff in Hname.
    destruct Hname as [name [Hname Hnamein]].
    exists name, ds, dc, rel. repeat split; auto.
    apply filter_In. split; [exact Hdcin|]. apply String.eqb_eq. congruence.
  - intros [Hin (name & ds & dc & rel & Hname & Hds & Hcase & Hdc & Hrel
                 & Hty & Hsrc & Htgt)].
    split; [exact Hin|]. exists rel. split; [exact Htgt|].
    apply filter_In in Hdc. destruct Hdc as [Hdc Hof].
    apply String.eqb_eq in Hof.
    apply filter_In. split; [exact Hrel|]. apply andb_true_iff.
    split; [now apply String.eqb_eq|].
    apply set_has_in, in_map_iff. exists dc. split; [now symmetry|].
    apply filter_In. split; [exact Hdc|].
    apply set_has_in, in_map_iff. exists ds. split; [now symmetry|].
    apply filter_In. split; [exact Hds|].
    apply set_has_in, in_map_iff. exists name. split; [exact Hcase | exact Hname].
Qed.

Example detectable_by_process :
  map Technique.id
      (Coverage.detectableTechniques
         (Sample.store_of detection_bundle) ["PROCESS"])
  = ["T1059"]
  /\ Coverage.detectableTechniques (Sample.store_of detection_bundle) ["File"]
     = [].
Proof. split; reflexivity. Qed.

Lemma filter_split_length (A : Type) (p : A -> bool) (l : list A) :
  (List.length (filter p l) + List.length (filter (fun x => negb (p x)) l)
   = List.length l)%nat.
Proof.
  induction l as [|x l IH]; simpl; [reflexivity|].
  destruct (p x); simpl; lia.
Qed.

(** X28. The gap report has one entry for each tactic, in the order of
    the tactic listing. In every entry the covered techniques and the
    uncovered ones add up to the techniques of the tactic, and the
    entry names the first ten of the uncovered ones, or all when there
    are fewer. *)
Theorem gaps_by_tactic_account (s : AttackDataStore.t)
  (availableDataSources : list string) :
  map Coverage.tactic (Coverage.gapsByTactic s availableDataSources)
  = map Tactic.name (AttackDataStore.getAllTactics s)
  /\ (forall g,
        In g (Coverage.gapsByTactic s availableDataSources) ->
        (Coverage.coveredCount g <= Coverage.totalCount g)%nat
        /\ List.length (Coverage.gaps g)
           = Nat.min 10 (Coverage.totalCount g - Coverage.coveredCount g)).
Proof.
  unfold Coverage.gapsByTactic. cbv zeta. split.
  - rewrite map_map. reflexivity.
  - intros g Hg. apply in_map_iff in Hg. destruct Hg as [tac [<- _]].
    cbn [Coverage.coveredCount Coverage.totalCount Coverage.gaps].
    rewrite length_firstn, length_map.
    pose proof (filter_split_length
                  (fun t => set_has
                              (map Technique.id
                                   (Coverage.detectableTechniques
                                      s availableDataSources))
                              (Technique.id t))
                  (AttackDataStore.getTechniquesForTactic
                     s (Tactic.shortName tac))) as H.
    simpl in H. lia.
Qed.

Lemma gaps_by_tactic_account_witness :
  Forall (fun g => (Coverage.coveredCount g <= Coverage.totalCount g)%nat)
         (Coverage.gapsByTactic Sample.store ["Process"]).
Proof.
  apply Forall_forall. intros g Hg.
  destruct (gaps_by_tactic_account Sample.store ["Process"%string])
    as [_ H].
  destruct (H g Hg) as [Hle _]. exact Hle.
Defined.
(* ================================================================= *)
(** * The order of the tactics and the source of the data *)

Section TacticOrder.

Lemma order_of_table (name : string) :
  (forall n, canonical_order name = Some n -> order_of name = Tactic.Number n)
  /\ (canonical_order name = None -> JsObject.inherits name = false ->
      order_of name = Tactic.Number 99)
  /\ (canonical_order name = None -> JsObject.inherits name = true ->
      order_of name = Tactic.NotANumber name).
Proof.
  unfold order_of, order_in, JsObject.get, canonical_order.
  destruct (JsMap.get name ENTERPRISE_TACTIC_ORDER) as [k|].
  - repeat split; [intros n [= <-]; reflexivity | discriminate | discriminate].
  - repeat split; [discriminate | |]; intros _ H; now rewrite H.
Qed.

Lemma stored_tactics_numeric (s : AttackDataStore.t) :
  Reachable s ->
  Forall plainly_named (JsMap.values (AttackDataStore.tactics s)) ->
  Forall (fun x => exists n, Tactic.order x = Tactic.Number n)
         (JsMap.values (AttackDataStore.tactics s)).
Proof.
  intros Hs Hplain. apply Reachable_Indexed in Hs.
  pose proof (ord_tactics Hs) as Hord.
  rewrite Forall_forall in *. intros x Hx.
  unfold JsMap.values in Hx. apply in_map_iff in Hx.
  destruct Hx as [kv [<- Hkv]]. rewrite (Hord kv Hkv).
  apply order_in_numeric. apply Hplain. unfold JsMap.values.
  apply in_map_iff. eauto.
Qed.

End TacticOrder.

(** X29. The order of a tactic and the tactic listing. Under the
    enterprise table [parseTactics] gives a tactic the table's number
    for its short name; a short name the table lacks gets 99, which is
    above every number of the table, unless it is a property name the
    table object inherits, and then the tactic gets that property and no
    number. The listing of a store reached by loads holds the tactics of
    the tactic index, each once, every one with the order of its short
    name. When no tactic of the index has an inherited short name, the
    listing is ascending by order, and a tactic with the short name
    "initial-access" stands strictly before one with the short name
    "execution". *)
Theorem tactics_listed_in_table_order :
  (forall name,
     (forall n, canonical_order name = Some n ->
                order_of name = Tactic.Number n /\ (n < 99)%Z)
     /\ (canonical_order name = None -> JsObject.inherits name = false ->
         order_of name = Tactic.Number 99)
     /\ (canonical_order name = None -> JsObject.inherits name = true ->
         order_of name = Tactic.NotANumber name))
  /\ (forall bundle x,
        In x (parseTactics bundle ENTERPRISE_TACTIC_ORDER) ->
        Tactic.order x = order_of (Tactic.shortName x))
  /\ (forall s,
        Reachable s ->
        Permutation (AttackDataStore.getAllTactics s)
                    (JsMap.values (AttackDataStore.tactics s))
        /\ (forall x, In x (AttackDataStore.getAllTactics s) ->
                      Tactic.order x = order_of (Tactic.shortName x))
        /\ (Forall plainly_named (JsMap.values (AttackDataStore.tactics s)) ->
            StronglySorted
              (fun a b => order_le (Tactic.order a) (Tactic.order b))
              (AttackDataStore.getAllTactics s)
            /\ (forall a b,
                  Tactic.shortName a = "initial-access" ->
                  Tactic.shortName b = "execution" ->
                  strictly_before (AttackDataStore.getAllTactics s) a b))).
Proof.
  split; [|split].
  - intros name. destruct (order_of_table name) as (H1 & H2 & H3).
    split; [|split; assumption].
    intros n Hn. split; [now apply H1|].
    apply canonical_order_below_99 in Hn. lia.
  - intros bundle x. apply parseTactics_order.
  - intros s Hs. split; [apply sort_any_perm|].
    split; [intros x; now apply getAllTactics_order|].
    intros Hplain.
    pose proof (numeric_sorted (stored_tactics_numeric Hs Hplain)) as Hsorted.
    fold (AttackDataStore.getAllTactics s) in Hsorted.
    split; [exact Hsorted|].
    intros a b Ha Hb i j Hi Hj.
    pose proof (@getAllTactics_order s a Hs (nth_error_In _ _ Hi)) as Oa.
    pose proof (@getAllTactics_order s b Hs (nth_error_In _ _ Hj)) as Ob.
    rewrite Ha in Oa. rewrite Hb in Ob.
    change (order_of "initial-access") with (Tactic.Number 2) in Oa.
    change (order_of "execution") with (Tactic.Number 3) in Ob.
    destruct (Nat.lt_trichotomy i j) as [Hlt | [Heq | Hgt]]; [exact Hlt | |].
    + subst j. rewrite Hi in Hj. injection Hj as <-. congruence.
    + exfalso.
      assert (Hle : order_le (Tactic.order b) (Tactic.order a)).
      { clear - Hsorted Hgt Hi Hj.
        revert i j Hgt Hi Hj.
        induction Hsorted as [|z l Hl IH Hz]; intros i j Hgt Hi Hj.
        - destruct i; discriminate.
        - destruct i as [|i]; [lia|]. simpl in Hi.
          destruct j as [|j]; simpl in Hj.
          + injection Hj as ->. rewrite Forall_forall in Hz. apply Hz.
            eapply nth_error_In; eassumption.
          + apply (IH i j); [lia | assumption | assumption]. }
      rewrite Oa, Ob in Hle. simpl in Hle. lia.
Qed.

Lemma tactics_listed_in_table_order_witness :
  Permutation (AttackDataStore.getAllTactics Sample.store)
              (JsMap.values (AttackDataStore.tactics Sample.store))
  /\ strictly_before
    (AttackDataStore.getAllTactics Sample.store)
    (tactic_of ENTERPRISE_TACTIC_ORDER
       (Sample.tactic "x-mitre-tactic--ia" "Initial Access" "initial-access"
                      "TA0001"))
    (tactic_of ENTERPRISE_TACTIC_ORDER
       (Sample.tactic "x-mitre-tactic--exec" "Execution" "execution"
                      "TA0002")).
Proof.
  destruct tactics_listed_in_table_order as (_ & _ & Hstore).
  destruct (Hstore Sample.store) as (Hperm & _ & Hsorted).
  - apply reach_load, reach_create.
  - split; [exact Hperm|].
    destruct Hsorted as [_ Hbefore].
    + repeat constructor.
    + apply Hbefore; reflexivity.
Defined.

Example sample_listing :
  map Tactic.shortName (AttackDataStore.getAllTactics Sample.store)
  = ["initial-access"; "execution"].
Proof. reflexivity. Qed.

Section FailedFetch.

Import Loader.

(** A matrix that has no readable cache file and that the network does
    not serve stops the downloads, and is still without a readable file
    afterwards. *)
Lemma download_each_stops (w : World) (ms : list MatrixType)
  (acc : JsMap.t StixBundle) (m : MatrixType) (reason : string) :
  In m ms -> loadCachedBundle w m = None -> remote w m = inr reason ->
  exists w' message,
    download_each w ms acc = (w', Throw message)
    /\ loadCachedBundle w' m = None.
Proof.
  revert w acc. induction ms as [|m0 ms IH]; intros w acc Hin Hnone Hnet;
    [destruct Hin|].
  simpl. unfold downloadMatrix.
  destruct (remote w m0) as [data|msg] eqn:E; [|eauto].
  destruct Hin as [-> | Hin]; [congruence|].
  apply IH; [exact Hin | | exact Hnet].
  unfold loadCachedBundle, write_cache. simpl.
  destruct (MatrixType_eqb m m0) eqn:Em; [|exact Hnone].
  assert (m = m0) as -> by (destruct m, m0; simpl in Em; congruence).
  congruence.
Qed.

End FailedFetch.

(** X30. Where [initialize] takes its data from. It takes the cache,
    and fetches nothing, when every configured matrix has a readable
    cache file and either the metadata file dates the cache within the
    interval or its date cannot be read. Otherwise it fetches: when the
    fetch succeeds it loads what was fetched; when the fetch fails and
    every matrix then has a readable cache file, of whatever age, it
    loads the cache and returns without failure; when the fetch fails
    and some matrix has no readable cache file, it throws, with the
    reason of the fetch in the message, and the store is the store
    before the call. A matrix without a readable cache file that the
    network does not serve is enough for that. A complete cache rules a
    failure out, and the call throws in no other case. *)
Theorem initialize_policy (w : Loader.World) (s : AttackDataStore.t) :
  let cfg := AttackDataStore.config s in
  let ms := matrices cfg in
  let must_fetch :=
    Loader.loadCachedBundles w ms = None
    \/ (~ not_older_than w (updateInterval cfg) /\ ~ undated w) in
  (forall bs,
     Loader.loadCachedBundles w ms = Some bs ->
     not_older_than w (updateInterval cfg) \/ undated w ->
     Loader.initialize w s
     = (w, AttackDataStore.loadFromBundles bs s, Loader.Ok tt))
  /\ (forall w' bs,
        must_fetch ->
        Loader.downloadAllMatrices w ms = (w', Loader.Ok bs) ->
        Loader.initialize w s
        = (w', AttackDataStore.loadFromBundles bs s, Loader.Ok tt))
  /\ (forall w' reason bs,
        must_fetch ->
        Loader.downloadAllMatrices w ms = (w', Loader.Throw reason) ->
        Loader.loadCachedBundles w' ms = Some bs ->
        Loader.initialize w s
        = (w', AttackDataStore.loadFromBundles bs s, Loader.Ok tt))
  /\ (forall w' reason,
        must_fetch ->
        Loader.downloadAllMatrices w ms = (w', Loader.Throw reason) ->
        Loader.loadCachedBundles w' ms = None ->
        Loader.initialize w s
        = (w', s,
           Loader.Throw ("Failed to load ATT&CK data: " ++ reason)%string))
  /\ (forall m reason,
        In m ms -> Loader.loadCachedBundle w m = None ->
        Loader.remote w m = inr reason ->
        exists w' message,
          Loader.initialize w s = (w', s, Loader.Throw message))
  /\ (forall bs,
        Loader.loadCachedBundles w ms = Some bs ->
        exists w' bs',
          Loader.initialize w s
          = (w', AttackDataStore.loadFromBundles bs' s, Loader.Ok tt))
  /\ (forall w' s' message,
        Loader.initialize w s = (w', s', Loader.Throw message) ->
        s' = s
        /\ Loader.loadCachedBundles w ms = None
        /\ Loader.loadCachedBundles w' ms = None
        /\ exists reason,
             Loader.downloadAllMatrices w ms = (w', Loader.Throw reason)
             /\ message = ("Failed to load ATT&CK data: " ++ reason)%string).
Proof.
  intros cfg ms must_fetch. unfold Loader.initialize. fold cfg. fold ms.
  repeat apply conj.
  - intros bs Hcache Hfresh.
    rewrite (loadCachedBundles_hasCachedData _ _ Hcache).
    apply isCacheStale_false in Hfresh. rewrite Hfresh. simpl.
    now rewrite Hcache.
  - intros w' bs Hno Hdl. rewrite (@no_fresh_cache _ _ _ Hno), Hdl.
    reflexivity.
  - intros w' reason bs Hno Hdl Hcache.
    rewrite (@no_fresh_cache _ _ _ Hno), Hdl, Hcache. reflexivity.
  - intros w' reason Hno Hdl Hcache.
    rewrite (@no_fresh_cache _ _ _ Hno), Hdl, Hcache. reflexivity.
  - intros m reason Hin Hnone Hnet.
    assert (Hno : Loader.loadCachedBundles w ms = None).
    { apply load_each_none. eauto. }
    rewrite (@no_fresh_cache w ms (updateInterval cfg) (or_introl Hno)).
    destruct (@download_each_stops w ms (JsMap.empty StixBundle) m reason
                Hin Hnone Hnet) as [w' [message [Hdl Hstill]]].
    unfold Loader.downloadAllMatrices. rewrite Hdl.
    assert (Hno' : Loader.loadCachedBundles w' ms = None).
    { apply load_each_none. eauto. }
    rewrite Hno'. eauto.
  - intros bs Hcache.
    destruct (Loader.hasCachedData w ms
              && negb (Loader.isCacheStale w (updateInterval cfg))).
    + rewrite Hcache. eauto.
    + destruct (Loader.downloadAllMatrices w ms) as [w' [bs'|message]] eqn:E.
      * eauto.
      * destruct (Loader.loadCachedBundles w' ms) as [bs'|] eqn:E'.
        -- eauto.
        -- apply (failed_download_keeps _ _ E) in E'. congruence.
  - intros w' s' message.
    destruct (if Loader.hasCachedData w ms
                 && negb (Loader.isCacheStale w (updateInterval cfg))
              then Loader.loadCachedBundles w ms else None) as [bs|];
      [discriminate|].
    destruct (Loader.downloadAllMatrices w ms) as [w1 [bs|reason]] eqn:E;
      [discriminate|].
    destruct (Loader.loadCachedBundles w1 ms) as [bs|] eqn:E';
      [discriminate|].
    intros [= <- <- <-].
    split; [reflexivity|]. split; [now apply (failed_download_keeps _ _ E)|].
    split; [exact E'|]. exists reason. auto.
Qed.

Lemma initialize_policy_witness :
  Loader.initialize Sample.offline_world (AttackDataStore.create Sample.cfg)
  = (Sample.offline_world, Sample.store, Loader.Ok tt)
  /\ Loader.initialize Sample.bare_world (AttackDataStore.create Sample.cfg)
     = (Sample.bare_world, AttackDataStore.create Sample.cfg,
        Loader.Throw "Failed to load ATT&CK data: fetch failed").
Proof.
  split.
  - destruct (initialize_policy Sample.offline_world
                (AttackDataStore.create Sample.cfg))
      as (_ & _ & Hfallback & _).
    apply (Hfallback Sample.offline_world "fetch failed"%string
                     [("enterprise"%string, Sample.bundle)]).
    + right. split.
      * intros [t [Hmeta Hage]]. injection Hmeta as <-.
        vm_compute in Hage. apply Hage. reflexivity.
      * intros Hmeta. discriminate Hmeta.
    + reflexivity.
    + reflexivity.
  - destruct (initialize_policy Sample.bare_world
                (AttackDataStore.create Sample.cfg))
      as (_ & _ & _ & Hthrow & _).
    apply (Hthrow Sample.bare_world "fetch failed"%string).
    + left. reflexivity.
    + reflexivity.
    + reflexivity.
Defined.
